(** * RDMA device layer of the async messenger: Port, Device, DeviceList

    A shallow embedding of [src/msg/async/rdma/Device.cc].  The verbs
    library, the memory manager and the completion queue / channel wrappers
    are collaborators whose code is elsewhere: every call into them is
    answered by an environment [Env] and recorded in a trace, so that a
    theorem quantified over [Env] holds for every behaviour of the hardware
    and of the collaborators. *)

From Stdlib Require Import ZArith Lia Ascii String.
From stdpp Require Import base numbers option list gmap strings.

Local Open Scope Z_scope.

(** ** Machine integers *)

Definition INT_MAX : Z := 2147483647.
Definition INT_MIN : Z := -2147483648.

(** A C++ [int]: 32 bits, two's complement.  [int_wrap] is the value an
    [int] holds after an arithmetic result [z] is stored into it. *)
Definition int_wrap (z : Z) : Z := (z + 2 ^ 31) mod 2 ^ 32 - 2 ^ 31.

(** A [uint32_t]: the value it holds after [z] is converted to it. *)
Definition uint32_wrap (z : Z) : Z := z mod 2 ^ 32.

(** ** Pointers and the heap

    An object created with [new] (or by a verbs [create] call) is a handle;
    a pointer is a handle or NULL.  Handles are never reused, so a pointer
    to a deleted object stays recognisably dangling. *)

Definition handle := nat.
Definition ptr := option handle.
Definition NULL : ptr := None.

(** ** Data exchanged with the collaborators *)

Record ibv_device_attr := mk_device_attr {
  max_srq_wr : Z;
  max_qp_wr : Z;
  max_cqe : Z;
  phys_port_cnt : Z
}.

(** A registered-memory chunk; [chunk_addr] is the address of the Chunk
    object itself, [buffer] the address of its data. *)
Record Chunk := mk_chunk {
  chunk_addr : Z;
  buffer : Z;
  bytes : Z;
  mr_lkey : Z
}.

Record ibv_sge := mk_sge {
  sge_addr : Z;
  sge_length : Z;
  sge_lkey : Z
}.

Record ibv_recv_wr := mk_recv_wr {
  wr_id : Z;
  wr_next : ptr;
  sg_list : list ibv_sge;
  num_sge : Z
}.

Record pollfd := mk_pollfd {
  pfd_fd : Z;
  pfd_events : Z;
  pfd_revents : Z
}.

(** ** Trace of the calls that leave Device.cc *)

Inductive Event : Type :=
| EvOpenDevice (fd : option Z)
| EvQueryDevice (r : Z) (attr : ibv_device_attr)
| EvNew (h : handle)
| EvDelete (h : handle)
| EvCcInit (cc : handle) (r : Z)
| EvCcGetFd (cc : handle) (fd : Z)
| EvSetNonblock (fd : Z) (r : Z)
| EvRegisterRxTx (mm : handle) (size rx tx : Z)
| EvCreateSrq (pd : handle) (max_wr max_sge : Z) (res : ptr)
| EvGetChannelBuffers (mm : handle) (min_bytes : Z) (r : Z) (chunks : list Chunk)
| EvPostSrqRecv (srq : handle) (wr : ibv_recv_wr) (ret : Z) (err : Z)
| EvCqInit (cq : handle) (depth : Z) (cc : ptr) (r : Z)
| EvPollCq (cq : handle) (n : Z) (r : Z)
| EvRearmNotify (cq : handle) (r : Z)
| EvAckEvents (cc : handle)
| EvGetCqEvent (cc : handle) (b : bool)
| EvPoll (fds : list pollfd) (nfds timeout : Z) (r : Z) (err : Z)
| EvVisit (idx : Z) (n : Z).

(** [EvVisit idx n] is a ghost event: DeviceList's polling loop selected
    [devices[idx]] and that device's poll returned [n]. *)

(** ** The environment

    Each field answers one kind of call; it sees the trace so far and the
    arguments, so the answers may depend on everything that happened. *)

Record Env := mk_env {
  env_open_device : list Event -> option Z;
  env_query_device : list Event -> Z * ibv_device_attr;
  env_cc_init : list Event -> handle -> Z;
  env_cc_get_fd : list Event -> handle -> Z;
  env_set_nonblock : list Event -> Z -> Z;
  env_create_srq : list Event -> handle -> Z -> Z -> bool;
  env_get_channel_buffers : list Event -> handle -> Z -> Z * list Chunk;
  env_post_srq_recv : list Event -> handle -> ibv_recv_wr -> Z * Z;
  env_cq_init : list Event -> handle -> Z -> ptr -> Z;
  env_poll_cq : list Event -> handle -> Z -> Z;
  env_rearm_notify : list Event -> handle -> Z;
  env_get_cq_event : list Event -> handle -> bool;
  env_poll : list Event -> list pollfd -> Z -> Z -> Z * Z
}.

(** ** State and the monad of a call *)

Record State := mk_state {
  trace : list Event;
  live : gset handle;
  next_handle : handle
}.

Inductive outcome (A : Type) : Type :=
| Ok (a : A)
| Abort
| Undefined
| OutOfFuel.

Arguments Ok {A} a.
Arguments Abort {A}.
Arguments Undefined {A}.
Arguments OutOfFuel {A}.

(** [Abort] is [ceph_abort()] or a failed [assert]; [Undefined] is the use
    of a null or dangling pointer or of an index outside its array;
    [OutOfFuel] is a loop that was cut short by the model. *)

Definition M (A : Type) : Type := State -> outcome (A * State).

Definition ret {A} (a : A) : M A := fun s => Ok (a, s).

Definition bind {A B} (m : M A) (k : A -> M B) : M B :=
  fun s =>
    match m s with
    | Ok (a, s') => k a s'
    | Abort => Abort
    | Undefined => Undefined
    | OutOfFuel => OutOfFuel
    end.

Declare Scope m_scope.
Delimit Scope m_scope with m.
Notation "x <-- m ;; k" := (bind m (fun x => k))
  (at level 100, m at next level, right associativity) : m_scope.
Notation "m ;;; k" := (bind m (fun _ => k))
  (at level 100, right associativity) : m_scope.
Local Open Scope m_scope.

Definition ceph_abort {A} : M A := fun _ => Abort.
Definition undefined {A} : M A := fun _ => Undefined.
Definition out_of_fuel {A} : M A := fun _ => OutOfFuel.

(** [assert(b)]: ceph's assert is compiled in every build. *)
Definition assert (b : bool) : M unit := if b then ret tt else ceph_abort.

(** The state after one more event. *)
Definition log (s : State) (e : Event) : State :=
  mk_state (trace s ++ [e]) (live s) (next_handle s).

Definition emit (e : Event) : M unit := fun s => Ok (tt, log s e).

Definition is_live (s : State) (p : ptr) : bool :=
  match p with
  | Some h => bool_decide (h ∈ live s)
  | None => false
  end.

(** [p->...]: the object behind [p], which has to be alive. *)
Definition deref (p : ptr) : M handle :=
  fun s =>
    match p with
    | Some h => if bool_decide (h ∈ live s) then Ok (h, s) else Undefined
    | None => Undefined
    end.

(** [new T(...)]: a fresh handle. *)
Definition new_object : M handle :=
  fun s =>
    let h := next_handle s in
    Ok (h, mk_state (trace s ++ [EvNew h]) ({[h]} ∪ live s) (S h)).

(** [delete p]: nothing for NULL, undefined for an object already gone. *)
Definition delete (p : ptr) : M unit :=
  fun s =>
    match p with
    | None => Ok (tt, s)
    | Some h =>
        if bool_decide (h ∈ live s)
        then Ok (tt, mk_state (trace s ++ [EvDelete h]) (live s ∖ {[h]}) (next_handle s))
        else Undefined
    end.

(** ** Calls into the collaborators

    Each call asks the environment, given the trace so far, and records the
    call together with its answer. *)

Definition call {A} (ask : list Event -> A) (ev : A -> Event) : M A :=
  fun s =>
    let a := ask (trace s) in
    Ok (a, log s (ev a)).

Section Collaborators.
Variable E : Env.

(** [ibv_query_device(ctxt, device_attr)]: the status and the attributes
    written to [*device_attr]. *)
Definition ibv_query_device : M (Z * ibv_device_attr) :=
  call (env_query_device E) (fun a => EvQueryDevice (fst a) (snd a)).

(** [NetHandler(cct).set_nonblock(fd)] *)
Definition set_nonblock (fd : Z) : M Z :=
  call (fun t => env_set_nonblock E t fd) (EvSetNonblock fd).

(** [memory_manager->register_rx_tx(size, rx_num, tx_num)] *)
Definition register_rx_tx (mm : ptr) (size rx tx : Z) : M unit :=
  h <-- deref mm ;; emit (EvRegisterRxTx h size rx tx).

(** [memory_manager->get_channel_buffers(chunks, bytes)]: the returned
    count and the chunks appended to the (empty) vector. *)
Definition get_channel_buffers (mm : ptr) (min_bytes : Z) : M (Z * list Chunk) :=
  h <-- deref mm ;;
  call (fun t => env_get_channel_buffers E t h min_bytes)
       (fun a => EvGetChannelBuffers h min_bytes (fst a) (snd a)).

(** [ibv_create_srq(pd, &sia)]: a new queue, or NULL on error. *)
Definition ibv_create_srq (pdh : handle) (max_wr max_sge : Z) : M ptr :=
  fun s =>
    if env_create_srq E (trace s) pdh max_wr max_sge
    then
      let h := next_handle s in
      Ok (Some h,
          mk_state (trace s ++ [EvCreateSrq pdh max_wr max_sge (Some h)])
                   ({[h]} ∪ live s) (S h))
    else
      Ok (NULL,
          mk_state (trace s ++ [EvCreateSrq pdh max_wr max_sge NULL])
                   (live s) (next_handle s)).

(** [ibv_post_srq_recv(srq, &wr, &bad)]: the call reads through [srq];
    the answer is the status and the value [errno] holds afterwards. *)
Definition ibv_post_srq_recv (srq : ptr) (wr : ibv_recv_wr) : M (Z * Z) :=
  h <-- deref srq ;;
  call (fun t => env_post_srq_recv E t h wr)
       (fun a => EvPostSrqRecv h wr (fst a) (snd a)).

(** [cc->init()] of a completion channel *)
Definition cc_init (cc : handle) : M Z :=
  call (fun t => env_cc_init E t cc) (EvCcInit cc).

(** [cq->init()] of a completion queue built on channel [cc] *)
Definition cq_init (cq : handle) (depth : Z) (cc : ptr) : M Z :=
  call (fun t => env_cq_init E t cq depth cc) (EvCqInit cq depth cc).

(** [cq->poll_cq(n, wc)] *)
Definition poll_cq (cq : ptr) (n : Z) : M Z :=
  h <-- deref cq ;;
  call (fun t => env_poll_cq E t h n) (EvPollCq h n).

(** [cq->rearm_notify()] *)
Definition rearm_notify (cq : ptr) : M Z :=
  h <-- deref cq ;;
  call (fun t => env_rearm_notify E t h) (EvRearmNotify h).

(** [cc->ack_events()] *)
Definition ack_events (cc : ptr) : M unit :=
  h <-- deref cc ;; emit (EvAckEvents h).

(** [cc->get_cq_event()] *)
Definition get_cq_event (cc : ptr) : M bool :=
  h <-- deref cc ;;
  call (fun t => env_get_cq_event E t h) (EvGetCqEvent h).

(** [poll(fds, nfds, timeout)]: the result and [errno] afterwards. *)
Definition sys_poll (fds : list pollfd) (nfds timeout : Z) : M (Z * Z) :=
  call (fun t => env_poll E t fds nfds timeout)
       (fun a => EvPoll fds nfds timeout (fst a) (snd a)).
End Collaborators.

(** ** Configuration and Device *)

Record Config := mk_config {
  ms_async_rdma_receive_buffers : Z;
  ms_async_rdma_send_buffers : Z;
  ms_async_rdma_buffer_size : Z;
  ms_async_rdma_enable_hugepage : bool;
  ms_async_rdma_local_gid : string;
  ms_async_rdma_roce_ver : Z
}.

Definition MAX_SHARED_RX_SGE_COUNT : Z := 1.
Definition CQ_DEPTH : Z := 30000.

(** The members of a Device that the operations below read or write.
    [max_recv_wr] and [max_send_wr] are [uint32_t]. *)
Record Device := mk_device {
  name : string;
  async_fd : Z;
  device_attr : ibv_device_attr;
  initialized : bool;
  pd : ptr;
  memory_manager : ptr;
  srq : ptr;
  tx_cc : ptr;
  rx_cc : ptr;
  tx_cq : ptr;
  rx_cq : ptr;
  max_recv_wr : Z;
  max_send_wr : Z
}.

Definition set_device_attr (a : ibv_device_attr) (d : Device) : Device :=
  mk_device (name d) (async_fd d) a (initialized d) (pd d) (memory_manager d)
            (srq d) (tx_cc d) (rx_cc d) (tx_cq d) (rx_cq d)
            (max_recv_wr d) (max_send_wr d).

Definition set_initialized (b : bool) (d : Device) : Device :=
  mk_device (name d) (async_fd d) (device_attr d) b (pd d) (memory_manager d)
            (srq d) (tx_cc d) (rx_cc d) (tx_cq d) (rx_cq d)
            (max_recv_wr d) (max_send_wr d).

Definition set_pd (p : ptr) (d : Device) : Device :=
  mk_device (name d) (async_fd d) (device_attr d) (initialized d) p
            (memory_manager d) (srq d) (tx_cc d) (rx_cc d) (tx_cq d) (rx_cq d)
            (max_recv_wr d) (max_send_wr d).

Definition set_memory_manager (p : ptr) (d : Device) : Device :=
  mk_device (name d) (async_fd d) (device_attr d) (initialized d) (pd d) p
            (srq d) (tx_cc d) (rx_cc d) (tx_cq d) (rx_cq d)
            (max_recv_wr d) (max_send_wr d).

Definition set_srq (p : ptr) (d : Device) : Device :=
  mk_device (name d) (async_fd d) (device_attr d) (initialized d) (pd d)
            (memory_manager d) p (tx_cc d) (rx_cc d) (tx_cq d) (rx_cq d)
            (max_recv_wr d) (max_send_wr d).

Definition set_tx_cq (p : ptr) (d : Device) : Device :=
  mk_device (name d) (async_fd d) (device_attr d) (initialized d) (pd d)
            (memory_manager d) (srq d) (tx_cc d) (rx_cc d) p (rx_cq d)
            (max_recv_wr d) (max_send_wr d).

Definition set_rx_cq (p : ptr) (d : Device) : Device :=
  mk_device (name d) (async_fd d) (device_attr d) (initialized d) (pd d)
            (memory_manager d) (srq d) (tx_cc d) (rx_cc d) (tx_cq d) p
            (max_recv_wr d) (max_send_wr d).

Definition set_max_recv_wr (n : Z) (d : Device) : Device :=
  mk_device (name d) (async_fd d) (device_attr d) (initialized d) (pd d)
            (memory_manager d) (srq d) (tx_cc d) (rx_cc d) (tx_cq d) (rx_cq d)
            n (max_send_wr d).

Definition set_max_send_wr (n : Z) (d : Device) : Device :=
  mk_device (name d) (async_fd d) (device_attr d) (initialized d) (pd d)
            (memory_manager d) (srq d) (tx_cc d) (rx_cc d) (tx_cq d) (rx_cq d)
            (max_recv_wr d) n.

Definition is_null (p : ptr) : bool :=
  match p with Some _ => false | None => true end.

Section DeviceOps.
Variable E : Env.
Variable conf : Config.

(** [Device::create_comp_channel] *)
Definition create_comp_channel : M ptr :=
  cc <-- new_object ;;
  r <-- cc_init E cc ;;
  if negb (r =? 0) then delete (Some cc) ;;; ret NULL
  else ret (Some cc).

(** [Device::create_comp_queue] *)
Definition create_comp_queue (cc : ptr) : M ptr :=
  cq <-- new_object ;;
  r <-- cq_init E cq CQ_DEPTH cc ;;
  if negb (r =? 0) then delete (Some cq) ;;; ret NULL
  else ret (Some cq).

(** [Device::create_shared_receive_queue]; its two parameters are
    [uint32_t], and [pd->pd] reads through [pd]. *)
Definition create_shared_receive_queue (d : Device) (max_wr max_sge : Z) : M ptr :=
  let max_wr := uint32_wrap max_wr in
  let max_sge := uint32_wrap max_sge in
  pdh <-- deref (pd d) ;;
  ibv_create_srq E pdh max_wr max_sge.

(** The receive work request [Device::post_chunk] builds for a chunk. *)
Definition rx_work_request (chunk : Chunk) : ibv_recv_wr :=
  let isge := mk_sge (buffer chunk) (bytes chunk) (mr_lkey chunk) in
  mk_recv_wr (chunk_addr chunk) NULL [isge] 1.

(** [Device::post_chunk]: [-errno] when the submission reports failure.
    [errno] holds an error number or zero, so the negation stays an
    [int]. *)
Definition post_chunk (d : Device) (chunk : Chunk) : M Z :=
  a <-- ibv_post_srq_recv E (srq d) (rx_work_request chunk) ;;
  let '(r, err) := a in
  if negb (r =? 0) then ret (- err) else ret 0.

(** The loop of [Device::post_channel_cluster] over [free_chunks]. *)
Fixpoint post_chunks (d : Device) (free_chunks : list Chunk) : M unit :=
  match free_chunks with
  | [] => ret tt
  | chunk :: rest =>
      r <-- post_chunk d chunk ;;
      assert (r =? 0) ;;;
      post_chunks d rest
  end.

(** [Device::post_channel_cluster] *)
Definition post_channel_cluster (d : Device) : M Z :=
  a <-- get_channel_buffers E (memory_manager d) 0 ;;
  let '(r, free_chunks) := a in
  assert (0 <? r) ;;;
  post_chunks d free_chunks ;;;
  ret 0.

(** [Device::init].  [Mutex::Locker l(lock)] takes the lock for the
    duration of the call and has no other effect on a single thread.
    [(int)cct->_conf->...] is the conversion of the configured count to
    [int]; [std::min] is taken on two [int]s, and its result is converted
    to [uint32_t] when it is stored in [max_recv_wr] or [max_send_wr]. *)
Definition Device_init (d : Device) : M Device :=
  if initialized d then ret d
  else
    a <-- ibv_query_device E ;;
    let '(r, attr) := a in
    let d := set_device_attr attr d in
    if r =? -1 then ceph_abort
    else
      p <-- new_object ;;
      let d := set_pd (Some p) d in
      r <-- set_nonblock E (async_fd d) ;;
      assert (r =? 0) ;;;
      let d := set_max_recv_wr
                 (uint32_wrap
                    (Z.min (max_srq_wr (device_attr d))
                           (int_wrap (ms_async_rdma_receive_buffers conf)))) d in
      let d := set_max_send_wr
                 (uint32_wrap
                    (Z.min (max_qp_wr (device_attr d))
                           (int_wrap (ms_async_rdma_send_buffers conf)))) d in
      mm <-- new_object ;;
      let d := set_memory_manager (Some mm) d in
      register_rx_tx (memory_manager d) (ms_async_rdma_buffer_size conf)
                     (max_recv_wr d) (max_send_wr d) ;;;
      q <-- create_shared_receive_queue d (max_recv_wr d) MAX_SHARED_RX_SGE_COUNT ;;
      let d := set_srq q d in
      post_channel_cluster d ;;;
      cq <-- create_comp_queue (tx_cc d) ;;
      let d := set_tx_cq cq d in
      assert (negb (is_null (tx_cq d))) ;;;
      cq <-- create_comp_queue (rx_cc d) ;;
      let d := set_rx_cq cq d in
      assert (negb (is_null (rx_cq d))) ;;;
      ret (set_initialized true d).

(** [Device::uninit].  [delete srq] is applied to the queue that
    [ibv_create_srq] returned; like [delete] on the other pointers it is
    taken to release the object it is given, when that is alive. *)
Definition Device_uninit (d : Device) : M Device :=
  if negb (initialized d) then ret d
  else
    ack_events (tx_cc d) ;;;
    ack_events (rx_cc d) ;;;
    let d := set_initialized false d in
    delete (rx_cq d) ;;;
    delete (tx_cq d) ;;;
    delete (rx_cc d) ;;;
    delete (tx_cc d) ;;;
    delete (srq d) ;;;
    delete (memory_manager d) ;;;
    delete (pd d) ;;;
    ret d.

(** [Device::poll_tx_cq] *)
Definition poll_tx_cq (d : Device) (n : Z) : M Z :=
  if negb (initialized d) then ret 0
  else poll_cq E (tx_cq d) n.

(** [Device::poll_rx_cq] *)
Definition poll_rx_cq (d : Device) (n : Z) : M Z :=
  if negb (initialized d) then ret 0
  else poll_cq E (rx_cq d) n.

(** [Device::rearm_cqs] *)
Definition rearm_cqs (d : Device) : M unit :=
  if negb (initialized d) then ret tt
  else
    r <-- rearm_notify E (tx_cq d) ;;
    assert (r =? 0) ;;;
    r <-- rearm_notify E (rx_cq d) ;;
    assert (r =? 0).
End DeviceOps.

(** ** Device construction *)

Record ibv_device := mk_ibv_device { dev_name : string }.

Section DeviceCtor.
Variable E : Env.

(** [ibv_open_device(device)]: the context's [async_fd], or nothing when
    the device cannot be opened. *)
Definition ibv_open_device : M (option Z) :=
  call (env_open_device E) EvOpenDevice.

(** [Device::Device].  The members the constructor does not set ([pd],
    [memory_manager], [srq], the two completion queues, [initialized] and
    the two limits) are declared in Device.h; they start null, false and
    zero here. *)
Definition Device_ctor (device : option ibv_device) : M Device :=
  match device with
  | None => ceph_abort
  | Some dv =>
      c <-- ibv_open_device ;;
      match c with
      | None => ceph_abort
      | Some fd =>
          a <-- ibv_query_device E ;;
          let '(r, attr) := a in
          if r =? -1 then ceph_abort
          else
            tx <-- create_comp_channel E ;;
            assert (negb (is_null tx)) ;;;
            rx <-- create_comp_channel E ;;
            assert (negb (is_null rx)) ;;;
            ret (mk_device (dev_name dv) fd attr false NULL NULL NULL
                           tx rx NULL NULL 0 0)
      end
  end.
End DeviceCtor.

(** ** DeviceList *)

Record DeviceList := mk_device_list {
  devices : list Device;
  last_poll_dev : Z;
  poll_fds : list pollfd
}.

(** [num] is the length of the [devices] array, which the constructor
    allocates with [new Device*[num]]. *)
Definition num (dl : DeviceList) : Z := Z.of_nat (length (devices dl)).

Definition set_last_poll_dev (c : Z) (dl : DeviceList) : DeviceList :=
  mk_device_list (devices dl) c (poll_fds dl).

(** [devices[i]] for an [int] index: outside the array it is undefined. *)
Definition device_at (dl : DeviceList) (i : Z) : option Device :=
  if 0 <=? i then devices dl !! Z.to_nat i else None.

Section DeviceListOps.
Variable E : Env.

(** The loop shared by [DeviceList::poll_tx] and [DeviceList::poll_rx]:
    [count] iterations are left, [d] is the caller's [*d], [n] the local
    result.  [last_poll_dev] is declared in Device.h; it is an [int] here,
    like [num] and the loop counter, [++] stores the wrapped sum and [%]
    is C++'s remainder, which truncates towards zero ([Z.rem]). *)
Fixpoint poll_loop (poll_dev : Device -> Z -> M Z) (num_entries : Z)
         (count : nat) (dl : DeviceList) (d : option Z) (n : Z)
  : M (Z * option Z * DeviceList) :=
  match count with
  | O => ret (n, d, dl)
  | S count' =>
      let dl := set_last_poll_dev (int_wrap (last_poll_dev dl + 1)) dl in
      let idx := Z.rem (last_poll_dev dl) (num dl) in
      match device_at dl idx with
      | None => undefined
      | Some dev =>
          n <-- poll_dev dev num_entries ;;
          emit (EvVisit idx n) ;;;
          if negb (n =? 0) then ret (n, Some idx, dl)
          else poll_loop poll_dev num_entries count' dl (Some idx) n
      end
  end.

(** [DeviceList::poll_tx]; the result is [n], the new [*d] (an index into
    [devices]) and the list with its cursor. *)
Definition DeviceList_poll_tx (dl : DeviceList) (num_entries : Z) (d : option Z)
  : M (Z * option Z * DeviceList) :=
  poll_loop (poll_tx_cq E) num_entries (Z.to_nat (num dl)) dl d 0.

(** [DeviceList::poll_rx] *)
Definition DeviceList_poll_rx (dl : DeviceList) (num_entries : Z) (d : option Z)
  : M (Z * option Z * DeviceList) :=
  poll_loop (poll_rx_cq E) num_entries (Z.to_nat (num dl)) dl d 0.

(** The [while (!done && r == 0)] loop of [DeviceList::poll_blocking].
    [done] is a reference to the caller's flag, which another thread may
    set: [done k] is its value at the [k]-th test of the loop condition.
    [fuel] bounds the number of calls of [poll]. *)
Fixpoint wait_loop (fuel : nat) (done : nat -> bool) (k : nat)
         (dl : DeviceList) (r : Z) : M Z :=
  match fuel with
  | O => if negb (done k) && (r =? 0) then out_of_fuel else ret r
  | S fuel' =>
      if negb (done k) && (r =? 0) then
        a <-- sys_poll E (poll_fds dl) (int_wrap (num dl * 2)) 1 ;;
        let '(r, err) := a in
        if r <? 0 then ceph_abort
        else wait_loop fuel' done (S k) dl r
      else ret r
  end.

(** The [for] loop of [DeviceList::poll_blocking] over the devices. *)
Fixpoint drain_events (ds : list Device) : M unit :=
  match ds with
  | [] => ret tt
  | d :: rest =>
      get_cq_event E (tx_cc d) ;;;
      get_cq_event E (rx_cc d) ;;;
      drain_events rest
  end.

(** [DeviceList::poll_blocking] *)
Definition poll_blocking (fuel : nat) (done : nat -> bool) (dl : DeviceList) : M Z :=
  r <-- wait_loop fuel done 0 dl 0 ;;
  if r <=? 0 then ret r
  else drain_events (devices dl) ;;; ret r.

(** [DeviceList::rearm_notify] *)
Fixpoint DeviceList_rearm_notify (ds : list Device) : M unit :=
  match ds with
  | [] => ret tt
  | d :: rest => rearm_cqs E d ;;; DeviceList_rearm_notify rest
  end.
End DeviceListOps.

(** A sequence of polling calls, transmit and receive mixed, on one list:
    the results in order and the list as the last call leaves it. *)
Inductive direction := Tx | Rx.

Definition DeviceList_poll (E : Env) (dir : direction) (dl : DeviceList)
           (num_entries : Z) (d : option Z) : M (Z * option Z * DeviceList) :=
  match dir with
  | Tx => DeviceList_poll_tx E dl num_entries d
  | Rx => DeviceList_poll_rx E dl num_entries d
  end.


(** The visits a trace records, in order. *)
Definition visit_of (e : Event) : option (Z * Z) :=
  match e with
  | EvVisit idx n => Some (idx, n)
  | _ => None
  end.

Definition visits (t : list Event) : list (Z * Z) := omap visit_of t.

(** The completion channels a trace drained, in order. *)
Definition drained_of (e : Event) : option handle :=
  match e with
  | EvGetCqEvent cc _ => Some cc
  | _ => None
  end.

(** The work requests a trace posted, in order. *)
Definition posted_of (e : Event) : option (handle * ibv_recv_wr) :=
  match e with
  | EvPostSrqRecv q wr _ _ => Some (q, wr)
  | _ => None
  end.

Definition is_wait (e : Event) : bool :=
  match e with
  | EvPoll _ _ _ _ _ => true
  | _ => false
  end.

(** ** Port *)

(** One entry of a port's GID table as the two queries of the constructor
    see it: the status of [ibv_query_gid] with the 16 raw bytes it writes,
    and the status of [ibv_exp_query_gid_attr] with the type it reports. *)
Record gid_entry := mk_gid_entry {
  query_gid_r : Z;
  entry_gid : list Z;
  query_attr_r : Z;
  entry_type : Z
}.

(** What the hardware answers for one port: [ibv_query_port]'s status, the
    LID it reports, and the GID table ([gid_tbl_len] is its length). *)
Record port_hw := mk_port_hw {
  query_port_r : Z;
  hw_lid : Z;
  gid_table : list gid_entry
}.

Definition gid_tbl_len (hw : port_hw) : Z := Z.of_nat (length (gid_table hw)).

Record Port := mk_port {
  port_num : Z;
  lid : Z;
  gid : list Z;
  gid_idx : Z
}.

(** [memcmp(&gid, &cgid, 16) == 0] *)
Definition memcmp16_eq (a b : list Z) : bool :=
  bool_decide (take 16 a = take 16 b).

(** The [for] loop of [Port::Port] under HAVE_IBV_EXP, from index [gid_idx]
    on the entries [tbl] that are left; the result is the final [gid_idx]
    and the member [gid]. *)
Fixpoint gid_scan (roce_ver : Z) (cgid : list Z) (malformed : bool)
         (tbl : list gid_entry) (gid_idx : Z) (gid : list Z)
  : outcome (Z * list Z) :=
  match tbl with
  | [] => Ok (gid_idx, gid)
  | e :: rest =>
      if negb (query_gid_r e =? 0) then Abort
      else if negb (query_attr_r e =? 0) then Abort
      else if malformed then Ok (gid_idx, entry_gid e)
      else if (entry_type e =? roce_ver) && memcmp16_eq (entry_gid e) cgid
      then Ok (gid_idx, entry_gid e)
      else gid_scan roce_ver cgid malformed rest (gid_idx + 1) (entry_gid e)
  end.

Section PortCtor.
(** libc's [sscanf] with the sixteen-field format of the constructor: the
    number of fields converted (or EOF) and the bytes stored in
    [cgid.raw]. *)
Variable sscanf_gid : string -> Z * list Z.
Variable conf : Config.

(** [Port::Port] with HAVE_IBV_EXP *)
Definition Port_ctor_exp (hw : port_hw) (ipn : Z) : outcome Port :=
  if query_port_r hw =? -1 then Abort
  else
    let '(r, cgid) := sscanf_gid (ms_async_rdma_local_gid conf) in
    let malformed := negb (r =? 16) in
    match gid_scan (ms_async_rdma_roce_ver conf) cgid malformed
                   (gid_table hw) 0 [] with
    | Ok (idx, g) =>
        if idx =? gid_tbl_len hw then Abort
        else Ok (mk_port ipn (hw_lid hw) g idx)
    | _ => Abort
    end.

(** [Port::Port] without HAVE_IBV_EXP: the GID at index 0. *)
Definition Port_ctor (hw : port_hw) (ipn : Z) : outcome Port :=
  if query_port_r hw =? -1 then Abort
  else
    match gid_table hw with
    | e :: _ =>
        if negb (query_gid_r e =? 0) then Abort
        else Ok (mk_port ipn (hw_lid hw) (entry_gid e) 0)
    | [] => Abort
    end.
End PortCtor.

(** A reading of [sscanf] on the format
    ["%02hhx%02hhx:%02hhx%02hhx: ... :%02hhx%02hhx"] for the examples below:
    a field is one or two hexadecimal digits, a colon follows every second
    field, the scan stops at the first character that does not fit.  White
    space, signs and radix prefixes, which [sscanf] also accepts, are left
    out: the reading is that of [sscanf] on strings of hexadecimal digits
    and colons, as the examples have them.  The theorems on the constructor
    take [sscanf] as a parameter. *)
Definition hex_digit (c : ascii) : option Z :=
  let n := Z.of_nat (nat_of_ascii c) in
  if (48 <=? n) && (n <=? 57) then Some (n - 48)
  else if (97 <=? n) && (n <=? 102) then Some (n - 87)
  else if (65 <=? n) && (n <=? 70) then Some (n - 55)
  else None.

Definition scan_field (s : string) : option (Z * string) :=
  match s with
  | String c1 s1 =>
      match hex_digit c1 with
      | None => None
      | Some v1 =>
          match s1 with
          | String c2 s2 =>
              match hex_digit c2 with
              | Some v2 => Some (16 * v1 + v2, s2)
              | None => Some (v1, s1)
              end
          | EmptyString => Some (v1, s1)
          end
      end
  | EmptyString => None
  end.

Fixpoint scan_fields (left : nat) (k : Z) (s : string) : list Z :=
  match left with
  | O => []
  | S left' =>
      match scan_field s with
      | None => []
      | Some (v, s') =>
          if Z.even (k + 1) && (0 <? Z.of_nat left')
          then match s' with
               | String ":" s'' => v :: scan_fields left' (k + 1) s''
               | _ => [v]
               end
          else v :: scan_fields left' (k + 1) s'
      end
  end.

Definition scan_gid (s : string) : Z * list Z :=
  match s with
  | EmptyString => (-1, [])
  | _ => let raw := scan_fields 16 0 s in (Z.of_nat (length raw), raw)
  end.

(** ** DeviceList construction *)

Definition POLL_EVENTS : Z := 57. (* POLLIN | POLLERR | POLLNVAL | POLLHUP *)

Section DeviceListCtor.
Variable E : Env.

(** [cc->get_fd()] *)
Definition get_fd (cc : ptr) : M Z :=
  h <-- deref cc ;;
  call (fun t => env_cc_get_fd E t h) (EvCcGetFd h).

(** The [for] loop of [DeviceList::DeviceList]: a Device per entry and
    its two poll descriptors. *)
Fixpoint make_devices (device_list : list ibv_device)
  : M (list Device * list pollfd) :=
  match device_list with
  | [] => ret ([], [])
  | dv :: rest =>
      d <-- Device_ctor E (Some dv) ;;
      tfd <-- get_fd (tx_cc d) ;;
      rfd <-- get_fd (rx_cc d) ;;
      a <-- make_devices rest ;;
      let '(ds, fds) := a in
      ret (d :: ds, mk_pollfd tfd POLL_EVENTS 0 :: mk_pollfd rfd POLL_EVENTS 0 :: fds)
  end.

(** [DeviceList::DeviceList]; [device_list] is what [ibv_get_device_list]
    returned.  The constructor does not set [last_poll_dev]: [cursor0] is
    the value its declaration in Device.h gives it. *)
Definition DeviceList_ctor (device_list : option (list ibv_device)) (cursor0 : Z)
  : M DeviceList :=
  match device_list with
  | None => ceph_abort
  | Some [] => ceph_abort
  | Some l =>
      a <-- make_devices l ;;
      let '(ds, fds) := a in
      ret (mk_device_list ds cursor0 fds)
  end.
End DeviceListCtor.

(** ** The rest of Device.cc

    Port binding, the queue-pair factory, the destructor and the lookup by
    name.  The calls these add to the ones above ([qp->init()],
    [ibv_destroy_srq], [ibv_close_device]) are answered by functions of the
    trace too, but are not recorded in it. *)

(** A call whose answer is not recorded. *)
Definition ask {A} (f : list Event -> A) : M A := fun s => Ok (f (trace s), s).

Definition IBV_PORT_ACTIVE : Z := 4.

(** What the hardware answers for one port number: the answers the Port
    constructor uses, and the link state [ibv_query_port] reports in
    [port_attr->state]. *)
Record port_link := mk_port_link {
  link_hw : port_hw;
  link_state : Z
}.

(** A Port object: its handle, the Port as the constructor left it, and
    [get_port_attr()->state]. *)
Record PortObj := mk_port_obj {
  port_handle : handle;
  port_value : Port;
  port_state : Z
}.

(** The two members of a Device that [binding_port] writes. *)
Record Binding := mk_binding {
  port_cnt : Z;
  active_port : option PortObj
}.

Definition has_port (b : Binding) : bool :=
  match active_port b with Some _ => true | None => false end.

Section PortBinding.
(** [Port::Port] as the build has it, and the hardware by port number. *)
Variable port_ctor : port_hw -> Z -> outcome Port.
Variable hw_ports : Z -> port_link.

(** The [for] loop of [Device::binding_port]: [count] iterations are left,
    [i] is the loop counter (a [uint8_t]; [phys_port_cnt] is one as well, so
    [i + 1] stays below 256). *)
Fixpoint binding_loop (count : nat) (i : Z) (port_num : Z) (b : Binding) : M Binding :=
  match count with
  | O => ret b
  | S count' =>
      h <-- new_object ;;
      match port_ctor (link_hw (hw_ports (i + 1))) (i + 1) with
      | Ok port =>
          let state := link_state (hw_ports (i + 1)) in
          if (i + 1 =? port_num) && (state =? IBV_PORT_ACTIVE)
          then ret (mk_binding (port_cnt b) (Some (mk_port_obj h port state)))
          else delete (Some h) ;;; binding_loop count' (i + 1) port_num b
      | Abort => ceph_abort
      | Undefined => undefined
      | OutOfFuel => out_of_fuel
      end
  end.

(** [Device::binding_port] *)
Definition Device_binding_port (d : Device) (b : Binding) (port_num : Z) : M Binding :=
  let b := mk_binding (phys_port_cnt (device_attr d)) (active_port b) in
  b <-- binding_loop (Z.to_nat (port_cnt b)) 0 port_num b ;;
  assert (has_port b) ;;;
  ret b.
End PortBinding.

(** What [Device::create_queue_pair] hands to the QueuePair constructor. *)
Record QueuePair := mk_queue_pair {
  qp_type : Z;
  qp_port_num : Z;
  qp_srq : ptr;
  qp_tx_cq : ptr;
  qp_rx_cq : ptr;
  qp_max_send_wr : Z;
  qp_max_recv_wr : Z
}.

Section QueuePairFactory.
(** [qp->init()] *)
Variable qp_init : list Event -> handle -> QueuePair -> Z.

(** [Device::create_queue_pair]; [active_port->get_port_num()] reads
    through [active_port]. *)
Definition Device_create_queue_pair (d : Device) (b : Binding) (type : Z)
  : M (option (handle * QueuePair)) :=
  match active_port b with
  | None => undefined
  | Some po =>
      deref (Some (port_handle po)) ;;;
      qp <-- new_object ;;
      let q := mk_queue_pair type (port_num (port_value po)) (srq d)
                             (tx_cq d) (rx_cq d) (max_send_wr d) (max_recv_wr d) in
      r <-- ask (fun t => qp_init t qp q) ;;
      if negb (r =? 0) then delete (Some qp) ;;; ret None
      else ret (Some (qp, q))
  end.
End QueuePairFactory.

Section DeviceDtor.
(** [ibv_destroy_srq(srq)] and [ibv_close_device(ctxt)] *)
Variable destroy_srq : list Event -> handle -> Z.
Variable close_device : list Event -> Z.

(** [Device::~Device].  [ibv_destroy_srq] reads through [srq] and, when it
    returns 0, has released the queue. *)
Definition Device_dtor (d : Device) (b : Binding) : M unit :=
  q <-- deref (srq d) ;;
  r <-- ask (fun t => destroy_srq t q) ;;
  assert (r =? 0) ;;;
  delete (srq d) ;;;
  delete (memory_manager d) ;;;
  delete (pd d) ;;;
  match active_port b with
  | Some po =>
      delete (Some (port_handle po)) ;;;
      r <-- ask close_device ;;
      assert (r =? 0)
  | None => ret tt
  end.
End DeviceDtor.

(** The loop of [DeviceList::get_device] from index [i] on: [strlen] and
    [strcmp] on the names, the first device that fits. *)
Fixpoint get_device_from (ds : list Device) (i : Z) (device_name : string) : option Z :=
  match ds with
  | [] => None
  | d :: rest =>
      if (String.length device_name =? 0)%nat || String.eqb device_name (name d)
      then Some i
      else get_device_from rest (i + 1) device_name
  end.

(** [DeviceList::get_device]: the index of the device returned, or nothing
    for NULL. *)
Definition DeviceList_get_device (dl : DeviceList) (device_name : string) : option Z :=
  get_device_from (devices dl) 0 device_name.

(** ** Predicates of the statements *)

(** The limits of a device are the minima [init()] computes from its
    capabilities and the configuration. *)
Definition limits_ok (conf : Config) (d : Device) : Prop :=
  max_recv_wr d
  = Z.min (max_srq_wr (device_attr d)) (ms_async_rdma_receive_buffers conf) /\
  max_send_wr d
  = Z.min (max_qp_wr (device_attr d)) (ms_async_rdma_send_buffers conf).

(** The state after the events [t]. *)
Definition extend (s : State) (t : list Event) : State :=
  mk_state (trace s ++ t) (live s) (next_handle s).

(** A recorded submission after which [post_chunk] returns zero. *)
Definition post_accepted (e : Event) : bool :=
  match e with
  | EvPostSrqRecv _ _ r err => (r =? 0) || (err =? 0)
  | _ => false
  end.



(** Both completion channels of every device are alive. *)
Definition channels_live (s : State) (ds : list Device) : bool :=
  forallb (fun d => is_live s (tx_cc d) && is_live s (rx_cc d)) ds.

(** The channels [poll_blocking] drains, device by device. *)
Definition channels_of (ds : list Device) : list ptr :=
  flat_map (fun d => [tx_cc d; rx_cc d]) ds.

(** Handles are handed out in increasing order: what is alive is below
    the next handle. *)
Definition heap_wf (s : State) : Prop :=
  forall h, h ∈ live s -> (h < next_handle s)%nat.

(** From [s] to [s'] only objects created in between were added. *)
Definition fresh_ext (s s' : State) : Prop :=
  (next_handle s <= next_handle s')%nat /\
  forall h, h ∈ live s' -> h ∈ live s \/ (next_handle s <= h)%nat.

(** A computation that, when it returns, has added only new objects. *)
Definition only_fresh {A} (m : M A) : Prop :=
  forall s a s', m s = Ok (a, s') -> fresh_ext s s'.

(** A computation that, when it returns, has deleted nothing. *)
Definition keeps_live {A} (m : M A) : Prop :=
  forall s a s', m s = Ok (a, s') -> live s ⊆ live s'.

(** The five owned resources of a device: protection domain, memory
    manager, shared receive queue, and the transmit and receive pairs of
    completion queue and completion channel. *)
Definition resources (d : Device) : list ptr :=
  [pd d; memory_manager d; srq d; tx_cq d; tx_cc d; rx_cq d; rx_cc d].

Definition all_live (s : State) (ps : list ptr) : bool := forallb (is_live s) ps.
Definition none_live (s : State) (ps : list ptr) : bool :=
  forallb (fun p => negb (is_live s p)) ps.

(** The memory manager's contract on [get_channel_buffers]: a positive
    count comes with chunks. *)
Definition nonempty_buffers (E : Env) : Prop :=
  forall t h b,
    0 < fst (env_get_channel_buffers E t h b) ->
    snd (env_get_channel_buffers E t h b) <> [].

(** The entry's queries both succeed. *)
Definition entry_readable (e : gid_entry) : Prop :=
  query_gid_r e = 0 /\ query_attr_r e = 0.

(** The entry has the configured type and the target's sixteen bytes. *)
Definition entry_matches (roce_ver : Z) (cgid : list Z) (e : gid_entry) : Prop :=
  entry_type e = roce_ver /\ take 16 (entry_gid e) = take 16 cgid.

(** The device poll of one direction. *)
Definition dev_poll (E : Env) (dir : direction) : Device -> Z -> M Z :=
  match dir with
  | Tx => poll_tx_cq E
  | Rx => poll_rx_cq E
  end.

(** Every initialized device has both completion queues alive. *)
Definition device_pollable (s : State) (d : Device) : bool :=
  negb (initialized d) || (is_live s (tx_cq d) && is_live s (rx_cq d)).

Definition devices_pollable (s : State) (ds : list Device) : bool :=
  forallb (device_pollable s) ds.

(** The indices [(c+1) mod N, (c+2) mod N, ..., (c+m) mod N]. *)
Definition rotation (c N : Z) (m : nat) : list Z :=
  map (fun j : nat => (c + Z.of_nat (S j)) mod N) (seq 0 m).


(** The file descriptor a trace shows a channel to have reported. *)
Definition getfd_of (e : Event) : option (ptr * Z) :=
  match e with
  | EvCcGetFd cc fd => Some (Some cc, fd)
  | _ => None
  end.

(** The completion queue a poll of direction [dir] reads. *)
Definition cq_of (dir : direction) (d : Device) : ptr :=
  match dir with
  | Tx => tx_cq d
  | Rx => rx_cq d
  end.

(** What a polling call of direction [dir] with [ne] entries may add to
    the trace: visits of devices of the list, and polls, with [ne] entries,
    of the completion queue of that direction of an initialized device. *)
Definition poll_event_ok (dir : direction) (dl : DeviceList) (ne : Z) (e : Event) : Prop :=
  match e with
  | EvVisit i _ => 0 <= i < num dl
  | EvPollCq cq n _ =>
      n = ne /\
      exists d, d ∈ devices dl /\ initialized d = true /\ cq_of dir d = Some cq
  | _ => False
  end.

(** The completion queues [rearm_notify] re-arms, in order. *)
Definition rearm_targets (ds : list Device) : list ptr :=
  flat_map (fun d => if initialized d then [tx_cq d; rx_cq d] else []) ds.

(** The same queues as handles, null pointers left out. *)
Definition rearm_handles (ds : list Device) : list handle :=
  omap id (rearm_targets ds).

(** The queue and status of a recorded re-arm. *)
Definition rearmed_of (e : Event) : option (ptr * Z) :=
  match e with
  | EvRearmNotify cq r => Some (Some cq, r)
  | _ => None
  end.

(** The result of a recorded call of [poll]. *)
Definition wait_of (e : Event) : option Z :=
  match e with
  | EvPoll _ _ _ r _ => Some r
  | _ => None
  end.

(** A recorded call of [poll] was made on the list's descriptor array,
    with two descriptors per device and a timeout of 1. *)
Definition wait_args_ok (dl : DeviceList) (e : Event) : Prop :=
  match e with
  | EvPoll fds nfds timeout _ _ =>
      fds = poll_fds dl /\ nfds = int_wrap (num dl * 2) /\ timeout = 1
  | _ => True
  end.

(** A computation that, when it returns, has created and deleted
    nothing. *)
Definition same_heap {A} (m : M A) : Prop :=
  forall s a s', m s = Ok (a, s') ->
    live s' = live s /\ next_handle s' = next_handle s.

(** The Port constructor returns for port number [k]. *)
Definition constructible (port_ctor : port_hw -> Z -> outcome Port)
           (hw_ports : Z -> port_link) (k : Z) : Prop :=
  exists p, port_ctor (link_hw (hw_ports k)) k = Ok p.

(** The bound port as a pointer, and what [Device::~Device] releases. *)
Definition port_ptr (b : Binding) : ptr :=
  match active_port b with Some po => Some (port_handle po) | None => NULL end.

Definition dtor_released (d : Device) (b : Binding) : list ptr :=
  [srq d; memory_manager d; pd d; port_ptr b].

(** [m] calls of [poll] on the list's descriptor array with a timeout
    of 1, one after the other, as the environment answers them from the
    trace [tr] on. *)
Fixpoint waits (E : Env) (dl : DeviceList) (tr : list Event) (m : nat) : list Event :=
  match m with
  | O => []
  | S m' =>
      let a := env_poll E tr (poll_fds dl) (int_wrap (num dl * 2)) 1 in
      let e := EvPoll (poll_fds dl) (int_wrap (num dl * 2)) 1 (fst a) (snd a) in
      e :: waits E dl (tr ++ [e]) m'
  end.

(** The re-arms of the completion queues [targets], one after the other,
    as the environment answers them from the trace [tr] on. *)
Fixpoint rearms (E : Env) (tr : list Event) (targets : list handle) : list Event :=
  match targets with
  | [] => []
  | h :: rest =>
      let e := EvRearmNotify h (env_rearm_notify E tr h) in
      e :: rearms E (tr ++ [e]) rest
  end.

Definition rearm_status (e : Event) : Z :=
  match e with
  | EvRearmNotify _ r => r
  | _ => 0
  end.





(** ** Concrete environments and inputs for the examples *)

Definition example_attr : ibv_device_attr := mk_device_attr 1024 4096 65536 1.

Definition chunk_a : Chunk := mk_chunk 4096 8192 4096 17.
Definition chunk_b : Chunk := mk_chunk 4160 12288 4096 17.

(** Everything succeeds, two receive chunks are free, no completion is
    pending, and [poll] reports one ready descriptor. *)
Definition quiet_env : Env :=
  mk_env (fun _ => Some 5)
         (fun _ => (0, example_attr))
         (fun _ _ => 0)
         (fun _ h => Z.of_nat h + 10)
         (fun _ _ => 0)
         (fun _ _ _ _ => true)
         (fun _ _ _ => (2, [chunk_a; chunk_b]))
         (fun _ _ _ => (0, 0))
         (fun _ _ _ _ => 0)
         (fun _ _ _ => 0)
         (fun _ _ => 0)
         (fun _ _ => false)
         (fun _ _ _ _ => (1, 0)).

(** As [quiet_env], with [poll_cq] answering by completion queue. *)
Definition with_poll_cq (f : handle -> Z) (E : Env) : Env :=
  mk_env (env_open_device E) (env_query_device E) (env_cc_init E)
         (env_cc_get_fd E) (env_set_nonblock E) (env_create_srq E)
         (env_get_channel_buffers E) (env_post_srq_recv E) (env_cq_init E)
         (fun _ h _ => f h) (env_rearm_notify E) (env_get_cq_event E)
         (env_poll E).

(** As [E], with [ibv_post_srq_recv] answering [a] every time. *)
Definition with_post_srq_recv (a : Z * Z) (E : Env) : Env :=
  mk_env (env_open_device E) (env_query_device E) (env_cc_init E)
         (env_cc_get_fd E) (env_set_nonblock E) (env_create_srq E)
         (env_get_channel_buffers E) (fun _ _ _ => a) (env_cq_init E)
         (env_poll_cq E) (env_rearm_notify E) (env_get_cq_event E)
         (env_poll E).

Definition example_conf : Config :=
  mk_config 512 1024 4096 false "fe80:0000:0000:0000:0202:c9ff:fe00:0001" 1.

Definition empty_state : State := mk_state [] ∅ 0%nat.

Definition result_of {A} (o : outcome (A * State)) (default : A) : A :=
  match o with Ok (a, _) => a | _ => default end.

Definition state_of {A} (o : outcome (A * State)) : State :=
  match o with Ok (_, s) => s | _ => empty_state end.

(** A device as its constructor leaves it, the same device after
    [init()], and after [init()] and [uninit()], all under [quiet_env]. *)
Definition null_device : Device :=
  mk_device "" 0 (mk_device_attr 0 0 0 0) false NULL NULL NULL NULL NULL NULL NULL 0 0.

Definition fresh_run : outcome (Device * State) :=
  Device_ctor quiet_env (Some (mk_ibv_device "mlx5_0")) empty_state.
Definition fresh_device : Device := result_of fresh_run null_device.
Definition fresh_state : State := state_of fresh_run.

Definition ready_run : outcome (Device * State) :=
  Device_init quiet_env example_conf fresh_device fresh_state.
Definition ready_device : Device := result_of ready_run null_device.
Definition ready_state : State := state_of ready_run.

Definition torn_run : outcome (Device * State) :=
  Device_uninit ready_device ready_state.
Definition torn_device : Device := result_of torn_run null_device.
Definition torn_state : State := state_of torn_run.

(** As [quiet_env], but every submission to a shared receive queue fails
    with status 22 and leaves [errno] at zero. *)
Definition silent_failure_env : Env := with_post_srq_recv (22, 0) quiet_env.


(** The list built by [DeviceList::DeviceList] on two devices, cursor 0. *)
Definition pair_run : outcome (DeviceList * State) :=
  DeviceList_ctor quiet_env
    (Some [mk_ibv_device "mlx5_0"; mk_ibv_device "mlx5_1"]) 0 empty_state.
Definition pair_list : DeviceList :=
  result_of pair_run (mk_device_list [] 0 []).
Definition pair_state : State := state_of pair_run.

(** A caller's flag that is never set, and one set from the start. *)
Definition never_done : nat -> bool := fun _ => false.

(** GID tables and configurations for the examples.  [target_gid] is what
    [example_conf]'s GID string holds. *)
Definition target_gid : list Z :=
  [254; 128; 0; 0; 0; 0; 0; 0; 2; 2; 201; 255; 254; 0; 0; 1].
Definition other_gid : list Z :=
  [254; 128; 0; 0; 0; 0; 0; 0; 2; 2; 201; 255; 254; 0; 0; 2].

Definition example_port_hw : port_hw :=
  mk_port_hw 0 7
    [ mk_gid_entry 0 other_gid 0 0;
      mk_gid_entry 0 target_gid 0 0;
      mk_gid_entry 0 other_gid 0 1;
      mk_gid_entry 0 target_gid 0 1;
      mk_gid_entry 0 target_gid 0 1 ].

(** A port whose first GID cannot be queried, and one without GIDs. *)
Definition unreadable_port_hw : port_hw :=
  mk_port_hw 0 7 [ mk_gid_entry (-1) [] 0 0; mk_gid_entry 0 target_gid 0 1 ].
Definition empty_port_hw : port_hw := mk_port_hw 0 7 [].

(** A configuration whose GID string has four bytes only. *)
Definition short_gid_conf : Config := mk_config 512 1024 4096 false "fe80:0000" 1.

(** Two devices with a completion queue each way, handles 5, 6 and 7, 8,
    for the polling examples. *)
Definition polled_device (nm : string) (tq rq : handle) : Device :=
  mk_device nm 5 example_attr true NULL NULL NULL NULL NULL (Some tq) (Some rq) 512 1024.

Definition polled_list (c : Z) : DeviceList :=
  mk_device_list [polled_device "mlx5_0" 5%nat 6%nat;
                  polled_device "mlx5_1" 7%nat 8%nat] c [].

Definition polled_state : State :=
  mk_state [] ({[5%nat]} ∪ {[6%nat]} ∪ {[7%nat]} ∪ {[8%nat]}) 9%nat.

(** No completion anywhere, except that polling queue 7 fails with -1. *)
Definition failing_env : Env :=
  with_poll_cq (fun h => if Nat.eqb h 7 then -1 else 0) quiet_env.

(** A caller's flag that is set when the loop tests it for the third time. *)
Definition done_at_2 : nat -> bool := fun k => (2 <=? k)%nat.

(** As [quiet_env], but [poll] always times out. *)
Definition idle_env : Env :=
  mk_env (env_open_device quiet_env) (env_query_device quiet_env)
         (env_cc_init quiet_env) (env_cc_get_fd quiet_env)
         (env_set_nonblock quiet_env) (env_create_srq quiet_env)
         (env_get_channel_buffers quiet_env) (env_post_srq_recv quiet_env)
         (env_cq_init quiet_env) (env_poll_cq quiet_env)
         (env_rearm_notify quiet_env) (env_get_cq_event quiet_env)
         (fun _ _ _ _ => (0, 0)).

(** A device with two ports, of which the second is active, and a Device
    on it with nothing bound. *)
Definition active_links : Z -> port_link :=
  fun k => mk_port_link example_port_hw (if k =? 2 then IBV_PORT_ACTIVE else 1).

Definition two_port_device : Device :=
  set_device_attr (mk_device_attr 1024 4096 65536 2) ready_device.

Definition unbound : Binding := mk_binding 0 None.

(** A configuration asking for 4294967295 receive buffers, capabilities
    with a negative [max_srq_wr], and an environment whose device query
    answers [a]. *)
Definition huge_conf : Config :=
  mk_config 4294967295 1024 4096 false "fe80:0000:0000:0000:0202:c9ff:fe00:0001" 1.

Definition negative_attr : ibv_device_attr := mk_device_attr (-5) 4096 65536 1.

Definition with_query_device (a : Z * ibv_device_attr) (E : Env) : Env :=
  mk_env (env_open_device E) (fun _ => a) (env_cc_init E)
         (env_cc_get_fd E) (env_set_nonblock E) (env_create_srq E)
         (env_get_channel_buffers E) (env_post_srq_recv E) (env_cq_init E)
         (env_poll_cq E) (env_rearm_notify E) (env_get_cq_event E)
         (env_poll E).


(** As [quiet_env], but the completion queue 7 has three completions. *)
Definition busy_env : Env :=
  with_poll_cq (fun h => if Nat.eqb h 7 then 3 else 0) quiet_env.

(** * Properties *)

(** ** Running the monad *)

Lemma bind_ok {A B} (m : M A) (k : A -> M B) s a s' :
  m s = Ok (a, s') -> bind m k s = k a s'.
Proof. intros H. unfold bind. now rewrite H. Qed.

Lemma bind_inv {A B} (m : M A) (k : A -> M B) s b s'' :
  bind m k s = Ok (b, s'') ->
  exists a s', m s = Ok (a, s') /\ k a s' = Ok (b, s'').
Proof.
  unfold bind. destruct (m s) as [[a s']| | |]; try discriminate.
  intros H. now exists a, s'.
Qed.

Lemma assert_inv b s u s' : assert b s = Ok (u, s') -> b = true /\ s' = s.
Proof.
  destruct b; cbn; [|discriminate]. intros H. now inversion H.
Qed.

Lemma deref_live p h s :
  p = Some h -> h ∈ live s -> deref p s = Ok (h, s).
Proof.
  intros -> Hl. unfold deref. now rewrite bool_decide_eq_true_2.
Qed.

Lemma deref_inv p s h s' :
  deref p s = Ok (h, s') -> p = Some h /\ h ∈ live s /\ s' = s.
Proof.
  unfold deref. destruct p as [h0|]; [|discriminate].
  case_bool_decide; [|discriminate].
  intros Heq. inversion Heq. now subst.
Qed.

Lemma is_live_Some s p :
  is_live s p = true <-> exists h, p = Some h /\ h ∈ live s.
Proof.
  unfold is_live. destruct p as [h|].
  - rewrite bool_decide_eq_true. split; [eauto|]. now intros (? & [= <-] & ?).
  - split; [discriminate|]. now intros (? & ? & ?).
Qed.

(** Splits a successful run into the successful runs of its steps. *)
Ltac run_inv :=
  repeat match goal with
         | H : bind _ _ _ = Ok _ |- _ =>
             let a := fresh "a" in
             let s' := fresh "s" in
             let H1 := fresh "Hrun" in
             let H2 := fresh "Hrun" in
             apply bind_inv in H; destruct H as (a & s' & H1 & H2)
         | H : (let '(_, _) := ?p in _) _ = Ok _ |- _ => destruct p eqn:?
         | H : (if ?b then _ else _) _ = Ok _ |- _ => destruct b eqn:?
         | H : ceph_abort _ = Ok _ |- _ => discriminate H
         | H : undefined _ = Ok _ |- _ => discriminate H
         | H : ret _ _ = Ok _ |- _ => cbv [ret] in H; inversion H; clear H; subst
         | H : assert _ _ = Ok _ |- _ => apply assert_inv in H; destruct H as [? ->]
         end.

(** A handle of a concrete state is alive. *)
Ltac live_now := apply (bool_decide_unpack _); vm_compute; exact I.

(** ** C3: the guards of init and uninit *)

(** C3.  [init()] on a device that is already initialized returns at once
    and leaves the device and everything else as they were; [uninit()] on a
    device that is not initialized does the same.  So a second [init()]
    after a successful one, and a second [uninit()] after a successful one,
    change nothing. *)
Theorem Device_init_uninit_guarded (E : Env) (conf : Config) (d u : Device) (s : State) :
  initialized d = true ->
  initialized u = false ->
  Device_init E conf d s = Ok (d, s) /\
  Device_uninit u s = Ok (u, s) /\
  (forall d1 s1, Device_init E conf u s = Ok (d1, s1) ->
                 Device_init E conf d1 s1 = Ok (d1, s1)) /\
  (forall d1 s1, Device_uninit d s = Ok (d1, s1) ->
                 Device_uninit d1 s1 = Ok (d1, s1)).
Proof.
  intros Hd Hu. repeat split.
  - unfold Device_init. now rewrite Hd.
  - unfold Device_uninit. now rewrite Hu.
  - intros d1 s1 H.
    assert (initialized d1 = true) as Hi.
    { unfold Device_init in H. rewrite Hu in H. run_inv. reflexivity. }
    unfold Device_init. now rewrite Hi.
  - intros d1 s1 H.
    assert (initialized d1 = false) as Hi.
    { unfold Device_uninit in H. rewrite Hd in H. cbn [negb] in H.
      run_inv. reflexivity. }
    unfold Device_uninit. now rewrite Hi.
Qed.

Lemma Device_init_uninit_guarded_witness :
  Device_init quiet_env example_conf ready_device ready_state
  = Ok (ready_device, ready_state) /\
  Device_uninit fresh_device ready_state = Ok (fresh_device, ready_state).
Proof.
  destruct (Device_init_uninit_guarded quiet_env example_conf
              ready_device fresh_device ready_state) as (H1 & H2 & _).
  - reflexivity.
  - reflexivity.
  - split; [exact H1 | exact H2].
Defined.

(** ** C8: polling and re-arming one device *)

(** C8.  On a device that is not initialized, [poll_tx_cq] and [poll_rx_cq]
    return zero and [rearm_cqs] returns, none of them calling a completion
    queue (the state, trace included, is as before).  On an initialized
    device [u] with its two completion queues alive, each poll is the
    completion queue's [poll_cq] and returns what it reports, and
    [rearm_cqs] re-arms the transmit queue, then the receive queue, and
    aborts as soon as one of the two reports failure. *)
Theorem Device_poll_rearm_guarded (E : Env) (d u : Device) (n : Z) (s : State)
        (tq rq : handle) :
  initialized d = false ->
  initialized u = true ->
  tx_cq u = Some tq -> tq ∈ live s ->
  rx_cq u = Some rq -> rq ∈ live s ->
  (poll_tx_cq E d n s = Ok (0, s) /\
   poll_rx_cq E d n s = Ok (0, s) /\
   rearm_cqs E d s = Ok (tt, s)) /\
  (let r := env_poll_cq E (trace s) tq n in
   poll_tx_cq E u n s = Ok (r, log s (EvPollCq tq n r))) /\
  (let r := env_poll_cq E (trace s) rq n in
   poll_rx_cq E u n s = Ok (r, log s (EvPollCq rq n r))) /\
  (let r1 := env_rearm_notify E (trace s) tq in
   let s1 := log s (EvRearmNotify tq r1) in
   let r2 := env_rearm_notify E (trace s1) rq in
   let s2 := log s1 (EvRearmNotify rq r2) in
   rearm_cqs E u s =
   if r1 =? 0 then if r2 =? 0 then Ok (tt, s2) else Abort else Abort).
Proof.
  intros Hd Hu Htq Hlt Hrq Hlr. repeat split.
  - unfold poll_tx_cq. now rewrite Hd.
  - unfold poll_rx_cq. now rewrite Hd.
  - unfold rearm_cqs. now rewrite Hd.
  - unfold poll_tx_cq, poll_cq. rewrite Hu. cbn [negb].
    now rewrite (bind_ok _ _ _ _ _ (deref_live _ _ _ Htq Hlt)).
  - unfold poll_rx_cq, poll_cq. rewrite Hu. cbn [negb].
    now rewrite (bind_ok _ _ _ _ _ (deref_live _ _ _ Hrq Hlr)).
  - unfold rearm_cqs, rearm_notify. rewrite Hu. cbn [negb].
    unfold bind at 1.
    rewrite (bind_ok _ _ _ _ _ (deref_live _ _ _ Htq Hlt)).
    unfold call at 1. cbv zeta.
    destruct (env_rearm_notify E (trace s) tq =? 0) eqn:E1; cbn; [|reflexivity].
    unfold bind at 1.
    assert (rq ∈ live (log s (EvRearmNotify tq (env_rearm_notify E (trace s) tq))))
      as Hlr' by exact Hlr.
    rewrite (bind_ok _ _ _ _ _ (deref_live _ _ _ Hrq Hlr')).
    unfold call. cbv zeta.
    now destruct (env_rearm_notify E _ rq =? 0).
Qed.

Lemma Device_poll_rearm_guarded_witness :
  poll_tx_cq quiet_env fresh_device 16 ready_state = Ok (0, ready_state) /\
  poll_rx_cq quiet_env ready_device 16 ready_state
  = Ok (0, log ready_state (EvPollCq 6%nat 16 0)).
Proof.
  destruct (Device_poll_rearm_guarded quiet_env fresh_device ready_device 16
              ready_state 5%nat 6%nat) as ((H1 & _) & _ & H2 & _).
  - reflexivity.
  - reflexivity.
  - reflexivity.
  - live_now.
  - reflexivity.
  - live_now.
  - split; [exact H1 | exact H2].
Defined.

(** ** C7: posting one chunk *)

Lemma int_wrap_id z : INT_MIN <= z <= INT_MAX -> int_wrap z = z.
Proof.
  unfold INT_MIN, INT_MAX, int_wrap. intros H.
  rewrite Z.mod_small; lia.
Qed.

Lemma post_chunk_run (E : Env) (d : Device) (chunk : Chunk) (s : State) (q : handle) :
  srq d = Some q -> q ∈ live s ->
  let a := env_post_srq_recv E (trace s) q (rx_work_request chunk) in
  post_chunk E d chunk s
  = Ok (if negb (fst a =? 0) then - snd a else 0,
        log s (EvPostSrqRecv q (rx_work_request chunk) (fst a) (snd a))).
Proof.
  intros Hq Hl a. unfold post_chunk, ibv_post_srq_recv.
  unfold bind at 1.
  rewrite (bind_ok _ _ _ _ _ (deref_live _ _ _ Hq Hl)).
  unfold call. cbv zeta. fold a. destruct a as [r err]. cbn [fst snd].
  now destruct (r =? 0).
Qed.

(** C7, on the code.  [post_chunk(chunk)] submits to the device's shared
    receive queue one work request with a single scatter-gather entry, which
    carries the chunk's buffer address, length and local key, and with the
    chunk's own address as [wr_id].  It returns zero when the submission
    reports success and [-errno], not the negated status, when it reports
    failure.  So a failed submission after which [errno] is zero (the
    status of [ibv_post_srq_recv] is the error number; the call need not
    set [errno]) makes [post_chunk] return zero, as a successful one does;
    the result is negative only when [errno] holds a positive number
    then. *)
Theorem post_chunk_descriptor_and_result (E : Env) (d : Device) (chunk : Chunk)
        (s : State) (q : handle) :
  srq d = Some q -> q ∈ live s ->
  let wr := mk_recv_wr (chunk_addr chunk) NULL
              [mk_sge (buffer chunk) (bytes chunk) (mr_lkey chunk)] 1 in
  let r := fst (env_post_srq_recv E (trace s) q wr) in
  let err := snd (env_post_srq_recv E (trace s) q wr) in
  let s' := log s (EvPostSrqRecv q wr r err) in
  post_chunk E d chunk s = Ok (if r =? 0 then 0 else - err, s') /\
  (r = 0 -> post_chunk E d chunk s = Ok (0, s')) /\
  (r <> 0 -> err = 0 -> post_chunk E d chunk s = Ok (0, s')) /\
  (r <> 0 -> 0 < err ->
   exists v, post_chunk E d chunk s = Ok (v, s') /\ v = - err /\ v < 0).
Proof.
  intros Hq Hl wr r err s'.
  pose proof (post_chunk_run E d chunk s q Hq Hl) as Hrun.
  cbv zeta in Hrun. change (rx_work_request chunk) with wr in Hrun.
  fold r err in Hrun. fold s' in Hrun.
  destruct (Z.eqb_spec r 0) as [Hr|Hr]; cbn [negb] in Hrun.
  - split; [exact Hrun|]. split; [intros _; exact Hrun|].
    split; intros Hc; contradiction.
  - split; [exact Hrun|]. split; [intros Hc; contradiction|]. split.
    + intros _ Herr. rewrite Hrun, Herr. reflexivity.
    + intros _ Herr. exists (- err). split; [exact Hrun|]. split; [reflexivity | lia].
Qed.

(** A submission that fails with status 22 and leaves [errno] at zero:
    [post_chunk] returns 0. *)
Lemma post_chunk_descriptor_and_result_witness :
  post_chunk silent_failure_env ready_device chunk_a ready_state
  = Ok (0, log ready_state
             (EvPostSrqRecv 4%nat
                (mk_recv_wr 4096 NULL [mk_sge 8192 4096 17] 1) 22 0)).
Proof.
  destruct (post_chunk_descriptor_and_result silent_failure_env ready_device
              chunk_a ready_state 4%nat) as (_ & _ & H & _).
  - reflexivity.
  - live_now.
  - apply H.
    + vm_compute. discriminate.
    + reflexivity.
Defined.

(** ** C6: posting the initial receive buffers *)

Lemma extend_nil s : extend s [] = s.
Proof. destruct s. unfold extend. cbn. now rewrite app_nil_r. Qed.

Lemma extend_extend s t1 t2 : extend (extend s t1) t2 = extend s (t1 ++ t2).
Proof. unfold extend. cbn. now rewrite app_assoc. Qed.

Lemma log_extend s e : log s e = extend s [e].
Proof. reflexivity. Qed.

(** The loop over the chunks either aborts, or posts every chunk once, in
    order, each post accepted. *)
Lemma post_chunks_cases (E : Env) (d : Device) (q : handle) (chunks : list Chunk) :
  srq d = Some q ->
  forall s, q ∈ live s ->
  post_chunks E d chunks s = Abort \/
  exists t,
    post_chunks E d chunks s = Ok (tt, extend s t) /\
    omap posted_of t = map (fun c => (q, rx_work_request c)) chunks /\
    length t = length chunks /\
    forallb post_accepted t = true.
Proof.
  intros Hq. induction chunks as [|c cs IH]; intros s Hl.
  - right. exists []. rewrite extend_nil. now cbn.
  - set (a := env_post_srq_recv E (trace s) q (rx_work_request c)).
    set (e := EvPostSrqRecv q (rx_work_request c) (fst a) (snd a)).
    set (v := if negb (fst a =? 0) then - snd a else 0).
    assert (post_chunks E d (c :: cs) s
            = if v =? 0 then post_chunks E d cs (log s e) else Abort) as Heq.
    { cbn [post_chunks]. unfold bind at 1.
      rewrite (post_chunk_run E d c s q Hq Hl). cbv zeta. fold a e v.
      unfold bind. now destruct (v =? 0). }
    rewrite Heq. clear Heq.
    destruct (Z.eqb_spec v 0) as [Hv|Hv]; [|now left].
    assert (post_accepted e = true) as Hacc.
    { subst e v. cbn. destruct (fst a =? 0); cbn in *; [reflexivity|].
      apply Z.eqb_eq. lia. }
    assert (q ∈ live (log s e)) as Hl' by exact Hl.
    destruct (IH _ Hl') as [Hab|(t & Hrun & Hp & Hlen & Hall)]; [now left|].
    right. exists (e :: t). rewrite Hrun, log_extend, extend_extend.
    split; [reflexivity|]. split; [|split].
    + cbn [map]. rewrite <- Hp. reflexivity.
    + cbn [length]. now rewrite Hlen.
    + change (forallb post_accepted (e :: t))
        with (post_accepted e && forallb post_accepted t).
      now rewrite Hacc, Hall.
Qed.






(** ** C5: the operating limits *)

(** A successful [init()] that ran leaves the refreshed attributes, the two
    limits and the flag in the device. *)
Lemma Device_init_fields (E : Env) (conf : Config) (d : Device) (s : State)
      (d' : Device) (s' : State) :
  initialized d = false ->
  Device_init E conf d s = Ok (d', s') ->
  initialized d' = true /\
  device_attr d' = snd (env_query_device E (trace s)) /\
  max_recv_wr d'
  = uint32_wrap (Z.min (max_srq_wr (device_attr d'))
                       (int_wrap (ms_async_rdma_receive_buffers conf))) /\
  max_send_wr d'
  = uint32_wrap (Z.min (max_qp_wr (device_attr d'))
                       (int_wrap (ms_async_rdma_send_buffers conf))) /\
  tx_cc d' = tx_cc d /\ rx_cc d' = rx_cc d.
Proof.
  intros Hi H. unfold Device_init in H. rewrite Hi in H.
  apply bind_inv in H as (a & s1 & Hq & H).
  unfold ibv_query_device, call in Hq. cbv zeta in Hq. inversion Hq; subst a s1; clear Hq.
  destruct (env_query_device E (trace s)) as [r attr]. cbn [fst snd] in H.
  run_inv. cbn. repeat split.
Qed.

Lemma uint32_wrap_id z : 0 <= z < 2 ^ 32 -> uint32_wrap z = z.
Proof. intros H. unfold uint32_wrap. now apply Z.mod_small. Qed.

Lemma uint32_wrap_range z : 0 <= uint32_wrap z < 2 ^ 32.
Proof. unfold uint32_wrap. apply Z.mod_pos_bound. lia. Qed.

Lemma uint32_wrap_idem z : uint32_wrap (uint32_wrap z) = uint32_wrap z.
Proof. apply uint32_wrap_id, uint32_wrap_range. Qed.

(** C5, as the code has it.  When [init()] succeeds, with configured
    buffer counts between 0 and [INT_MAX] and capabilities that are not
    negative, [max_recv_wr] is the minimum of the device's [max_srq_wr] and
    the configured receive-buffer count and [max_send_wr] the minimum of its
    [max_qp_wr] and the configured send-buffer count, so neither exceeds its
    capability or its configured count.  (An [init()] that returns at once,
    on a device already initialized, keeps the limits the device has.) *)
Theorem Device_init_limits (E : Env) (conf : Config) (d : Device) (s : State)
        (d' : Device) (s' : State) :
  0 <= ms_async_rdma_receive_buffers conf <= INT_MAX ->
  0 <= ms_async_rdma_send_buffers conf <= INT_MAX ->
  0 <= max_srq_wr (device_attr d') ->
  0 <= max_qp_wr (device_attr d') ->
  (initialized d = true -> limits_ok conf d) ->
  Device_init E conf d s = Ok (d', s') ->
  max_recv_wr d'
  = Z.min (max_srq_wr (device_attr d')) (ms_async_rdma_receive_buffers conf) /\
  max_send_wr d'
  = Z.min (max_qp_wr (device_attr d')) (ms_async_rdma_send_buffers conf) /\
  max_recv_wr d' <= max_srq_wr (device_attr d') /\
  max_recv_wr d' <= ms_async_rdma_receive_buffers conf /\
  max_send_wr d' <= max_qp_wr (device_attr d') /\
  max_send_wr d' <= ms_async_rdma_send_buffers conf.
Proof.
  intros Hrx Htx Hcr Hct Hinv H.
  assert (limits_ok conf d') as [Hr Hs].
  { destruct (initialized d) eqn:Hi.
    - unfold Device_init in H. rewrite Hi in H. cbv [ret] in H.
      inversion H; subst. now apply Hinv.
    - destruct (Device_init_fields E conf d s d' s' Hi H)
        as (_ & _ & Hr & Hs & _).
      unfold INT_MAX in *.
      rewrite int_wrap_id in Hr by (unfold INT_MIN, INT_MAX; lia).
      rewrite int_wrap_id in Hs by (unfold INT_MIN, INT_MAX; lia).
      rewrite uint32_wrap_id in Hr by lia.
      rewrite uint32_wrap_id in Hs by lia.
      now split. }
  rewrite Hr, Hs. repeat split; lia.
Qed.

Lemma Device_init_limits_witness :
  max_recv_wr ready_device = Z.min 1024 512 /\
  max_send_wr ready_device = Z.min 4096 1024.
Proof.
  destruct (Device_init_limits quiet_env example_conf fresh_device fresh_state
              ready_device ready_state) as (H1 & H2 & _).
  - cbv. split; discriminate.
  - cbv. split; discriminate.
  - vm_compute. discriminate.
  - vm_compute. discriminate.
  - intros H. discriminate H.
  - vm_compute. reflexivity.
  - split; [exact H1 | exact H2].
Defined.

(** Outside those ranges the limits are not the minima.  A configured count
    of 4294967295 receive buffers is -1 as an [int], the minimum with the
    capability 1024 is -1, and [max_recv_wr] holds it as 4294967295, above
    the capability.  A capability reported as -5 gives 4294967291, above
    the 512 buffers configured. *)
Lemma Device_init_limit_exceeds_bounds :
  (exists d' s',
      Device_init quiet_env huge_conf fresh_device fresh_state = Ok (d', s') /\
      max_srq_wr (device_attr d') = 1024 /\
      ms_async_rdma_receive_buffers huge_conf = 4294967295 /\
      max_recv_wr d' = 4294967295 /\
      max_recv_wr d' <> Z.min 1024 4294967295 /\
      max_srq_wr (device_attr d') < max_recv_wr d') /\
  (exists d' s',
      Device_init (with_query_device (0, negative_attr) quiet_env) example_conf
                  fresh_device fresh_state = Ok (d', s') /\
      max_srq_wr (device_attr d') = -5 /\
      ms_async_rdma_receive_buffers example_conf = 512 /\
      max_recv_wr d' = 4294967291 /\
      ms_async_rdma_receive_buffers example_conf < max_recv_wr d').
Proof.
  split.
  - eexists _, _. split; [vm_compute; reflexivity|].
    repeat split; try reflexivity; vm_compute; discriminate.
  - eexists _, _. split; [vm_compute; reflexivity|].
    repeat split; try reflexivity; vm_compute; discriminate.
Qed.

(** ** C9: the blocking wait *)

(** The wait loop only adds calls of [poll] to the trace, and a result
    other than the initial one is what the last of them returned. *)
Lemma wait_loop_trace (E : Env) (done : nat -> bool) (dl : DeviceList) (fuel : nat) :
  forall k r0 s r s1,
    wait_loop E fuel done k dl r0 s = Ok (r, s1) ->
    exists t,
      s1 = extend s t /\
      forallb is_wait t = true /\
      ((t = [] /\ r = r0) \/
       exists t' fds n tmo err, t = t' ++ [EvPoll fds n tmo r err]).
Proof.
  induction fuel as [|fuel IH]; intros k r0 s r s1 H.
  - cbn [wait_loop] in H.
    destruct (negb (done k) && (r0 =? 0)); [discriminate|].
    cbv [ret] in H. inversion H; subst.
    exists []. rewrite extend_nil. auto.
  - cbn [wait_loop] in H.
    destruct (negb (done k) && (r0 =? 0)).
    + unfold bind, sys_poll, call in H. cbv zeta in H.
      set (a := env_poll E (trace s) (poll_fds dl) (int_wrap (num dl * 2)) 1) in H.
      destruct a as [r1 err] eqn:Ha. cbn [fst snd] in H.
      destruct (r1 <? 0); [discriminate|].
      apply IH in H as (t & -> & Hw & Hlast).
      exists (EvPoll (poll_fds dl) (int_wrap (num dl * 2)) 1 r1 err :: t).
      rewrite log_extend, extend_extend. split; [reflexivity|].
      split; [cbn; exact Hw|].
      right. destruct Hlast as [[-> ->]|(t' & fds & n & tmo & err' & ->)].
      * now exists [], (poll_fds dl), (int_wrap (num dl * 2)), 1, err.
      * now exists (EvPoll (poll_fds dl) (int_wrap (num dl * 2)) 1 r1 err :: t'),
                   fds, n, tmo, err'.
    + cbv [ret] in H. inversion H; subst.
      exists []. rewrite extend_nil. auto.
Qed.

(** With every channel alive the drain loop asks each device's transmit
    channel, then its receive channel, once. *)
Lemma drain_events_run (E : Env) (ds : list Device) :
  forall s,
    channels_live s ds = true ->
    exists t,
      drain_events E ds s = Ok (tt, extend s t) /\
      map Some (omap drained_of t) = channels_of ds /\
      length t = (2 * length ds)%nat.
Proof.
  induction ds as [|d ds IH]; intros s Hl.
  - exists []. rewrite extend_nil. now cbn.
  - cbn [channels_live forallb] in Hl.
    apply andb_prop in Hl as [Hd Hl]. apply andb_prop in Hd as [Ht Hr].
    apply is_live_Some in Ht as (tc & Htc & Hlt).
    apply is_live_Some in Hr as (rc & Hrc & Hlr).
    cbn [drain_events]. unfold get_cq_event. unfold bind at 1 2.
    rewrite (deref_live _ _ _ Htc Hlt). unfold call at 1. cbv zeta.
    set (e1 := EvGetCqEvent tc _).
    unfold bind at 1 2.
    assert (rc ∈ live (log s e1)) as Hlr' by exact Hlr.
    rewrite (deref_live _ _ _ Hrc Hlr'). unfold call at 1. cbv zeta.
    set (e2 := EvGetCqEvent rc _).
    destruct (IH (log (log s e1) e2)) as (t & Hrun & Hch & Hlen); [exact Hl|].
    exists (e1 :: e2 :: t). rewrite Hrun.
    rewrite !log_extend, !extend_extend. split; [reflexivity|].
    split.
    + unfold channels_of. cbn [flat_map app]. fold (channels_of ds).
      rewrite <- Hch, Htc, Hrc. reflexivity.
    + cbn [length]. lia.
Qed.


(** The loop ends with the first result of [poll] that is not zero: it
    returns a positive one and aborts on a negative one. *)
Lemma wait_loop_ready (E : Env) (done : nat -> bool) (dl : DeviceList)
      (fuel k : nat) (s : State) (r err : Z) :
  done k = false ->
  env_poll E (trace s) (poll_fds dl) (int_wrap (num dl * 2)) 1 = (r, err) ->
  wait_loop E (S fuel) done k dl 0 s
  = if r <? 0 then Abort
    else if r =? 0
         then wait_loop E fuel done (S k) dl 0
                (log s (EvPoll (poll_fds dl) (int_wrap (num dl * 2)) 1 r err))
         else Ok (r, log s (EvPoll (poll_fds dl) (int_wrap (num dl * 2)) 1 r err)).
Proof.
  intros Hd Hp. cbn [wait_loop]. rewrite Hd. cbn [negb andb Z.eqb].
  unfold bind, sys_poll, call. cbv zeta. rewrite Hp. cbn [fst snd].
  destruct (r <? 0); [reflexivity|].
  destruct (Z.eqb_spec r 0) as [->|Hr]; [reflexivity|].
  destruct fuel; cbn [wait_loop];
    replace (r =? 0) with false by (symmetry; now apply Z.eqb_neq);
    rewrite andb_false_r; reflexivity.
Qed.

Lemma wait_loop_done (E : Env) (done : nat -> bool) (dl : DeviceList)
      (fuel k : nat) (s : State) :
  done k = true -> wait_loop E fuel done k dl 0 s = Ok (0, s).
Proof. intros Hd. destruct fuel; cbn [wait_loop]; rewrite Hd; reflexivity. Qed.



(** ** C2: the resources across init, uninit and a second init *)

Lemma fresh_ext_refl s : fresh_ext s s.
Proof. split; [lia | auto]. Qed.

Lemma fresh_ext_trans s1 s2 s3 :
  fresh_ext s1 s2 -> fresh_ext s2 s3 -> fresh_ext s1 s3.
Proof.
  intros [Hn1 Hl1] [Hn2 Hl2]. split; [lia|].
  intros h Hh. destruct (Hl2 h Hh) as [Hh2|Hh2]; [|right; lia].
  exact (Hl1 h Hh2).
Qed.

Lemma only_fresh_ret {A} (a : A) : only_fresh (ret a).
Proof. intros s a' s' H. cbv [ret] in H. inversion H. apply fresh_ext_refl. Qed.

Lemma only_fresh_bind {A B} (m : M A) (k : A -> M B) :
  only_fresh m -> (forall a, only_fresh (k a)) -> only_fresh (bind m k).
Proof.
  intros Hm Hk s b s'' H. apply bind_inv in H as (a & s' & H1 & H2).
  eapply fresh_ext_trans; [exact (Hm _ _ _ H1) | exact (Hk _ _ _ _ H2)].
Qed.

Lemma only_fresh_fail {A} (m : M A) :
  (forall s, m s = Abort \/ m s = Undefined) -> only_fresh m.
Proof. intros Hm s a s' H. destruct (Hm s) as [H'|H']; congruence. Qed.

Lemma only_fresh_abort {A} : only_fresh (@ceph_abort A).
Proof. apply only_fresh_fail. now left. Qed.

Lemma fresh_ext_log s e : fresh_ext s (log s e).
Proof. split; cbn; [lia | auto]. Qed.

Lemma only_fresh_emit e : only_fresh (emit e).
Proof. intros s a s' H. cbv [emit] in H. inversion H. apply fresh_ext_log. Qed.

Lemma only_fresh_call {A} (ask : list Event -> A) ev : only_fresh (call ask ev).
Proof. intros s a s' H. cbv [call] in H. inversion H. apply fresh_ext_log. Qed.

Lemma only_fresh_assert b : only_fresh (assert b).
Proof. destruct b; [apply only_fresh_ret | apply only_fresh_abort]. Qed.

Lemma only_fresh_deref p : only_fresh (deref p).
Proof.
  intros s a s' H. apply deref_inv in H as (_ & _ & ->). apply fresh_ext_refl.
Qed.

Lemma only_fresh_new : only_fresh new_object.
Proof.
  intros s a s' H. cbv [new_object] in H. inversion H; subst.
  split; cbn; [lia|].
  intros h [Hh|Hh]%elem_of_union; [right | now left].
  apply elem_of_singleton in Hh. lia.
Qed.

Lemma only_fresh_delete p : only_fresh (delete p).
Proof.
  intros s a s' H. unfold delete in H. destruct p as [h|].
  - case_bool_decide; [|discriminate]. inversion H; subst.
    split; cbn; [lia|].
    intros h' [Hh _]%elem_of_difference. now left.
  - inversion H. apply fresh_ext_refl.
Qed.

Lemma only_fresh_create_srq E pdh w g : only_fresh (ibv_create_srq E pdh w g).
Proof.
  intros s a s' H. unfold ibv_create_srq in H.
  destruct (env_create_srq E (trace s) pdh w g); inversion H; subst.
  - split; cbn; [lia|].
    intros h [Hh|Hh]%elem_of_union; [right | now left].
    apply elem_of_singleton in Hh. lia.
  - split; cbn; [lia | auto].
Qed.

Create HintDb fresh_db.
#[local] Hint Resolve only_fresh_ret only_fresh_abort only_fresh_emit
  only_fresh_call only_fresh_assert only_fresh_deref only_fresh_new
  only_fresh_delete only_fresh_create_srq : fresh_db.

(** Decomposes a goal [only_fresh m] along the structure of [m]. *)
Ltac fresh_steps :=
  repeat first
    [ apply only_fresh_bind; [|intros ?]
    | match goal with
      | |- only_fresh (let '(_, _) := ?p in _) => destruct p
      | |- only_fresh (if ?b then _ else _) => destruct b
      | |- only_fresh (match ?o with Some _ => _ | None => _ end) => destruct o
      end
    | solve [auto with fresh_db] ].

Lemma only_fresh_post_chunks E d chunks : only_fresh (post_chunks E d chunks).
Proof.
  induction chunks as [|c cs IH]; cbn [post_chunks]; [auto with fresh_db|].
  unfold post_chunk, ibv_post_srq_recv. fresh_steps.
Qed.

Lemma only_fresh_init E conf d : only_fresh (Device_init E conf d).
Proof.
  unfold Device_init, ibv_query_device, set_nonblock, register_rx_tx,
    create_shared_receive_queue, post_channel_cluster, get_channel_buffers,
    create_comp_queue, cq_init.
  fresh_steps. apply only_fresh_post_chunks.
Qed.

Lemma delete_inv p s u s' :
  delete p s = Ok (u, s') ->
  is_live s' p = false /\ live s' ⊆ live s /\ next_handle s' = next_handle s.
Proof.
  unfold delete. destruct p as [h|].
  - case_bool_decide; [|discriminate]. intros Heq. inversion Heq; subst.
    cbn. rewrite bool_decide_eq_false. split; [|split; [|reflexivity]].
    + intros [_ Hn]%elem_of_difference. apply Hn. now apply elem_of_singleton.
    + intros x [Hx _]%elem_of_difference. exact Hx.
  - intros Heq. inversion Heq; subst. cbn. repeat split; reflexivity.
Qed.

Lemma ack_events_inv p s u s' :
  ack_events p s = Ok (u, s') ->
  exists h, p = Some h /\ h ∈ live s /\ s' = log s (EvAckEvents h).
Proof.
  unfold ack_events. intros H. apply bind_inv in H as (h & s0 & Hd & He).
  apply deref_inv in Hd as (-> & Hl & ->).
  cbv [emit] in He. inversion He; subst. now exists h.
Qed.

Lemma is_live_anti s s' p :
  live s' ⊆ live s -> is_live s p = false -> is_live s' p = false.
Proof.
  unfold is_live. destruct p as [h|]; [|reflexivity].
  rewrite !bool_decide_eq_false. intros Hsub Hn Hin. apply Hn, Hsub, Hin.
Qed.

(** Closes [live s' ⊆ live s] from the inclusions step by step. *)
Ltac live_chain :=
  cbn [live log];
  repeat first [ reflexivity | eassumption | etrans; [eassumption|] ].

(** After a [uninit()] that ran, every resource of the device is released
    and the flag is cleared; the pointers keep their values. *)
Lemma Device_uninit_releases (d : Device) (s : State) (d1 : Device) (s1 : State) :
  initialized d = true ->
  Device_uninit d s = Ok (d1, s1) ->
  d1 = set_initialized false d /\
  none_live s1 (resources d1) = true /\
  is_live s (tx_cc d) = true /\ is_live s (rx_cc d) = true /\
  next_handle s1 = next_handle s /\ live s1 ⊆ live s.
Proof.
  intros Hi H. unfold Device_uninit in H. rewrite Hi in H. cbn [negb] in H.
  apply bind_inv in H as (? & sa & Ha1 & H).
  apply bind_inv in H as (? & sb & Ha2 & H).
  apply ack_events_inv in Ha1 as (tc & Htc & Hlt & ->).
  apply ack_events_inv in Ha2 as (rc & Hrc & Hlr & ->).
  cbn [tx_cc rx_cc rx_cq tx_cq srq memory_manager pd set_initialized] in H.
  apply bind_inv in H as (? & s3 & D1 & H). apply delete_inv in D1 as (L1 & S1 & N1).
  apply bind_inv in H as (? & s4 & D2 & H). apply delete_inv in D2 as (L2 & S2 & N2).
  apply bind_inv in H as (? & s5 & D3 & H). apply delete_inv in D3 as (L3 & S3 & N3).
  apply bind_inv in H as (? & s6 & D4 & H). apply delete_inv in D4 as (L4 & S4 & N4).
  apply bind_inv in H as (? & s7 & D5 & H). apply delete_inv in D5 as (L5 & S5 & N5).
  apply bind_inv in H as (? & s8 & D6 & H). apply delete_inv in D6 as (L6 & S6 & N6).
  apply bind_inv in H as (? & s9 & D7 & H). apply delete_inv in D7 as (L7 & S7 & N7).
  cbv [ret] in H. inversion H; subst d1 s9; clear H.
  cbn [live log next_handle] in *.
  split; [reflexivity|]. split; [|split; [|split; [|split]]].
  - unfold none_live, resources.
    cbn [forallb tx_cc rx_cc rx_cq tx_cq srq memory_manager pd set_initialized].
    rewrite (is_live_anti s1 s1 _ ltac:(reflexivity) L7).
    rewrite (is_live_anti s8 s1 _ ltac:(live_chain) L6).
    rewrite (is_live_anti s7 s1 _ ltac:(live_chain) L5).
    rewrite (is_live_anti s4 s1 _ ltac:(live_chain) L2).
    rewrite (is_live_anti s6 s1 _ ltac:(live_chain) L4).
    rewrite (is_live_anti s3 s1 _ ltac:(live_chain) L1).
    rewrite (is_live_anti s5 s1 _ ltac:(live_chain) L3).
    reflexivity.
  - apply is_live_Some. now exists tc.
  - apply is_live_Some. now exists rc.
  - congruence.
  - live_chain.
Qed.

(** A second [init()] after [uninit()] returns with the flag set, but the
    two completion channels it builds the completion queues on are the ones
    [uninit()] deleted: only the constructor creates channels. *)
Lemma Device_reinit_channels_deleted (E : Env) (conf : Config) (d : Device)
      (s : State) (d1 : Device) (s1 : State) (d2 : Device) (s2 : State) :
  heap_wf s ->
  initialized d = true ->
  Device_uninit d s = Ok (d1, s1) ->
  Device_init E conf d1 s1 = Ok (d2, s2) ->
  initialized d2 = true /\
  tx_cc d2 = tx_cc d /\ rx_cc d2 = rx_cc d /\
  is_live s2 (tx_cc d2) = false /\ is_live s2 (rx_cc d2) = false /\
  all_live s2 (resources d2) = false.
Proof.
  intros Hwf Hi Hun Hin.
  destruct (Device_uninit_releases d s d1 s1 Hi Hun)
    as (-> & Hnone & Htx & Hrx & Hnext & Hsub).
  destruct (Device_init_fields E conf (set_initialized false d) s1 d2 s2
              eq_refl Hin) as (Hi2 & _ & _ & _ & Htc & Hrc).
  cbn [tx_cc rx_cc set_initialized] in Htc, Hrc.
  destruct (only_fresh_init E conf _ s1 d2 s2 Hin) as [_ Hfresh].
  assert (forall p, is_live s p = true -> is_live s1 p = false ->
                    is_live s2 p = false) as Hgone.
  { intros p Hp Hp1. apply is_live_Some in Hp as (h & -> & Hl).
    cbn in Hp1 |- *. rewrite bool_decide_eq_false in Hp1 |- *.
    intros Hl2. destruct (Hfresh h Hl2) as [Hl1|Hge]; [contradiction|].
    specialize (Hwf h Hl). lia. }
  unfold none_live, resources in Hnone.
  cbn [forallb tx_cc rx_cc rx_cq tx_cq srq memory_manager pd set_initialized]
    in Hnone.
  repeat (apply andb_prop in Hnone as [? Hnone]).
  assert (is_live s2 (tx_cc d2) = false) as Ht2.
  { rewrite Htc. apply Hgone; [exact Htx|]. now apply negb_true_iff. }
  assert (is_live s2 (rx_cc d2) = false) as Hr2.
  { rewrite Hrc. apply Hgone; [exact Hrx|]. now apply negb_true_iff. }
  repeat split; try assumption.
  unfold all_live, resources. cbn [forallb]. rewrite Ht2.
  now rewrite !andb_false_r.
Qed.

Lemma keeps_live_ret {A} (a : A) : keeps_live (ret a).
Proof. intros s a' s' H. cbv [ret] in H. now inversion H. Qed.

Lemma keeps_live_bind {A B} (m : M A) (k : A -> M B) :
  keeps_live m -> (forall a, keeps_live (k a)) -> keeps_live (bind m k).
Proof.
  intros Hm Hk s b s'' H. apply bind_inv in H as (a & s' & H1 & H2).
  etrans; [exact (Hm _ _ _ H1) | exact (Hk _ _ _ _ H2)].
Qed.

Lemma keeps_live_abort {A} : keeps_live (@ceph_abort A).
Proof. intros s a s' H. discriminate H. Qed.

Lemma keeps_live_emit e : keeps_live (emit e).
Proof. intros s a s' H. cbv [emit] in H. now inversion H. Qed.

Lemma keeps_live_call {A} (ask : list Event -> A) ev : keeps_live (call ask ev).
Proof. intros s a s' H. cbv [call] in H. now inversion H. Qed.

Lemma keeps_live_assert b : keeps_live (assert b).
Proof. destruct b; [apply keeps_live_ret | apply keeps_live_abort]. Qed.

Lemma keeps_live_deref p : keeps_live (deref p).
Proof. intros s a s' H. now apply deref_inv in H as (_ & _ & ->). Qed.

Lemma keeps_live_new : keeps_live new_object.
Proof.
  intros s a s' H. cbv [new_object] in H. inversion H; subst. cbn.
  apply union_subseteq_r.
Qed.

Lemma keeps_live_create_srq E pdh w g : keeps_live (ibv_create_srq E pdh w g).
Proof.
  intros s a s' H. unfold ibv_create_srq in H.
  destruct (env_create_srq E (trace s) pdh w g); inversion H; subst; cbn.
  - apply union_subseteq_r.
  - reflexivity.
Qed.

Create HintDb keeps_db.
#[local] Hint Resolve keeps_live_ret keeps_live_abort keeps_live_emit
  keeps_live_call keeps_live_assert keeps_live_deref keeps_live_new
  keeps_live_create_srq : keeps_db.

Ltac keeps_steps :=
  repeat first
    [ apply keeps_live_bind; [|intros ?]
    | match goal with
      | |- keeps_live (let '(_, _) := ?p in _) => destruct p
      | |- keeps_live (if ?b then _ else _) => destruct b
      end
    | solve [auto with keeps_db] ].

Lemma keeps_live_post_chunks E d chunks : keeps_live (post_chunks E d chunks).
Proof.
  induction chunks as [|c cs IH]; cbn [post_chunks]; [auto with keeps_db|].
  unfold post_chunk, ibv_post_srq_recv. keeps_steps.
Qed.

Lemma keeps_live_post_channel_cluster E d : keeps_live (post_channel_cluster E d).
Proof.
  unfold post_channel_cluster, get_channel_buffers. keeps_steps.
  apply keeps_live_post_chunks.
Qed.

Lemma new_object_inv h s s' :
  new_object s = Ok (h, s') -> h ∈ live s' /\ live s ⊆ live s'.
Proof.
  intros H. cbv [new_object] in H. inversion H; subst. cbn.
  split; [apply elem_of_union_l; now apply elem_of_singleton
         | apply union_subseteq_r].
Qed.

(** A completion queue that [create_comp_queue] returns is alive, and
    nothing else was deleted. *)
Lemma create_comp_queue_inv E cc q s s' :
  create_comp_queue E cc s = Ok (q, s') ->
  is_null q = false ->
  is_live s' q = true /\ live s ⊆ live s'.
Proof.
  unfold create_comp_queue. intros H Hq.
  apply bind_inv in H as (cq & s1 & Hn & H).
  apply new_object_inv in Hn as (Hl & Hsub).
  apply bind_inv in H as (r & s2 & Hc & H).
  cbv [cq_init call] in Hc. inversion Hc; subst r s2; clear Hc.
  destruct (negb _).
  - apply bind_inv in H as (? & s3 & _ & H). cbv [ret] in H.
    inversion H; subst. discriminate Hq.
  - cbv [ret] in H. inversion H; subst. cbn.
    split; [now rewrite bool_decide_eq_true | exact Hsub].
Qed.

(** When the memory manager keeps its contract, a
    [post_channel_cluster()] that returns has posted to a queue that
    exists. *)
Lemma post_channel_cluster_srq_live E d s v s' :
  nonempty_buffers E ->
  post_channel_cluster E d s = Ok (v, s') ->
  is_live s (srq d) = true.
Proof.
  intros Hne H. unfold post_channel_cluster, get_channel_buffers in H.
  apply bind_inv in H as (a & s0 & Hg & H).
  apply bind_inv in Hg as (mm & s1 & Hd & Hg).
  apply deref_inv in Hd as (_ & _ & ->).
  cbv [call] in Hg. inversion Hg; subst a s0; clear Hg.
  pose proof (Hne (trace s) mm 0) as Hc.
  destruct (env_get_channel_buffers E (trace s) mm 0) as [r chunks].
  cbn [fst snd] in *.
  apply bind_inv in H as (? & s2 & Ha & H).
  apply assert_inv in Ha as (Hr & ->).
  apply bind_inv in H as (? & s3 & Hp & _).
  destruct chunks as [|c cs]; [exfalso; apply Hc; [lia | reflexivity]|].
  cbn [post_chunks] in Hp. apply bind_inv in Hp as (? & s4 & Hp & _).
  unfold post_chunk, ibv_post_srq_recv in Hp.
  apply bind_inv in Hp as (? & s5 & Hp & _).
  apply bind_inv in Hp as (h & s6 & Hd & _).
  apply deref_inv in Hd as (Hq & Hl & _).
  apply is_live_Some. now exists h.
Qed.

Lemma is_live_mono s s' p :
  live s ⊆ live s' -> is_live s p = true -> is_live s' p = true.
Proof.
  intros Hsub Hp. apply is_live_Some in Hp as (h & -> & Hl).
  apply is_live_Some. exists h. split; [reflexivity | now apply Hsub].
Qed.

(** After an [init()] that ran on a device whose completion channels are
    alive, all resources are alive and the flag is set. *)
Lemma Device_init_establishes (E : Env) (conf : Config) (d : Device) (s : State)
      (d' : Device) (s' : State) :
  nonempty_buffers E ->
  initialized d = false ->
  is_live s (tx_cc d) = true -> is_live s (rx_cc d) = true ->
  Device_init E conf d s = Ok (d', s') ->
  all_live s' (resources d') = true /\ initialized d' = true.
Proof.
  intros Hne Hi Htc Hrc H. unfold Device_init in H. rewrite Hi in H.
  apply bind_inv in H as (a & s1 & Hq & H).
  apply keeps_live_call in Hq as K1. destruct a as [r attr].
  destruct (r =? -1); [discriminate|].
  apply bind_inv in H as (p & s2 & Hn & H).
  apply new_object_inv in Hn as (Lp & K2).
  apply bind_inv in H as (r0 & s3 & Hs & H). apply keeps_live_call in Hs as K3.
  apply bind_inv in H as (? & s4 & Ha & H). apply assert_inv in Ha as (_ & ->).
  apply bind_inv in H as (mm & s5 & Hn & H).
  apply new_object_inv in Hn as (Lm & K5).
  apply bind_inv in H as (? & s6 & Hr & H).
  assert (live s5 ⊆ live s6) as K6.
  { revert Hr. unfold register_rx_tx.
    match goal with
    | |- ?m s5 = Ok (_, s6) -> _ =>
        intros Hr; assert (keeps_live m) as Hk by keeps_steps;
        exact (Hk _ _ _ Hr)
    end. }
  apply bind_inv in H as (q & s7 & Hc & H).
  assert (live s6 ⊆ live s7) as K7.
  { revert Hc. unfold create_shared_receive_queue. cbv zeta.
    match goal with
    | |- ?m s6 = Ok (q, s7) -> _ =>
        intros Hc; assert (keeps_live m) as Hk by keeps_steps;
        exact (Hk _ _ _ Hc)
    end. }
  apply bind_inv in H as (v & s8 & Hp & H).
  pose proof (post_channel_cluster_srq_live _ _ _ _ _ Hne Hp) as Lq.
  apply keeps_live_post_channel_cluster in Hp as K8.
  cbn [srq set_srq] in Lq.
  apply bind_inv in H as (cq & s9 & Hc1 & H).
  apply bind_inv in H as (? & s10 & Ha & H). apply assert_inv in Ha as (Hn1 & ->).
  cbn [tx_cq set_tx_cq] in Hn1. apply negb_true_iff in Hn1.
  apply create_comp_queue_inv in Hc1 as (L1 & K9); [|exact Hn1].
  apply bind_inv in H as (cq' & s11 & Hc2 & H).
  apply bind_inv in H as (? & s12 & Ha & H). apply assert_inv in Ha as (Hn2 & ->).
  cbn [rx_cq set_rx_cq] in Hn2. apply negb_true_iff in Hn2.
  apply create_comp_queue_inv in Hc2 as (L2 & K10); [|exact Hn2].
  cbv [ret] in H. inversion H; subst d' s'; clear H.
  split; [|reflexivity].
  unfold all_live, resources. cbn.
  assert (forall sx px, live sx ⊆ live s11 -> is_live sx px = true ->
                        is_live s11 px = true) as Hup
      by (intros sx px; apply is_live_mono).
  change (bool_decide (p ∈ live s11)) with (is_live s11 (Some p)).
  change (bool_decide (mm ∈ live s11)) with (is_live s11 (Some mm)).
  rewrite (Hup s2 (Some p)), (Hup s5 (Some mm)), (Hup s7 q), (Hup s9 cq),
    (Hup s (tx_cc d)), (Hup s11 cq'), (Hup s (rx_cc d)); try assumption;
    try reflexivity;
    try (apply is_live_Some; eexists; split; [reflexivity|eassumption]);
    repeat first [ reflexivity | eassumption | etrans; [eassumption|] ].
Qed.

(** C2, on the code.  A device is constructed, initialized, uninitialized
    and initialized again, every call of the environment succeeding.  The
    second [init()] returns with [initialized] set and with new protection
    domain, memory manager, shared receive queue and completion queues, but
    both completion channels are the deleted ones, so the resource set is
    not re-established; the [uninit()] that follows uses them after their
    deletion. *)
Theorem Device_reinit_uses_deleted_channels :
  all_live ready_state (resources ready_device) = true /\
  initialized ready_device = true /\
  none_live torn_state (resources torn_device) = true /\
  initialized torn_device = false /\
  exists d2 s2,
    Device_init quiet_env example_conf torn_device torn_state = Ok (d2, s2) /\
    initialized d2 = true /\
    is_live s2 (tx_cc d2) = false /\
    is_live s2 (rx_cc d2) = false /\
    all_live s2 (resources d2) = false /\
    Device_uninit d2 s2 = Undefined.
Proof.
  split; [vm_compute; reflexivity|].
  split; [vm_compute; reflexivity|].
  split; [vm_compute; reflexivity|].
  split; [vm_compute; reflexivity|].
  eexists. eexists.
  split; [vm_compute; reflexivity|].
  repeat split; vm_compute; reflexivity.
Qed.

(** ** C4: the GID index a port selects *)

Lemma entry_matches_test roce_ver cgid e :
  (entry_type e =? roce_ver) && memcmp16_eq (entry_gid e) cgid = true
  <-> entry_matches roce_ver cgid e.
Proof.
  unfold entry_matches, memcmp16_eq.
  rewrite andb_true_iff, Z.eqb_eq, bool_decide_eq_true. reflexivity.
Qed.

(** With a well-formed target the scan stops at the first matching entry,
    when the entries up to it can be queried. *)
Lemma gid_scan_first_match roce_ver cgid (tbl : list gid_entry) :
  forall (i : nat) e idx g,
    tbl !! i = Some e ->
    entry_readable e ->
    entry_matches roce_ver cgid e ->
    (forall j e', (j < i)%nat -> tbl !! j = Some e' ->
                  entry_readable e' /\ ~ entry_matches roce_ver cgid e') ->
    gid_scan roce_ver cgid false tbl idx g = Ok (idx + Z.of_nat i, entry_gid e).
Proof.
  induction tbl as [|e0 tbl IH]; intros i e idx g Hi [Hq Ha] Hm Hbefore.
  - discriminate Hi.
  - destruct i as [|i].
    + cbn in Hi. inversion Hi; subst e0. cbn [gid_scan].
      rewrite Hq, Ha. cbn [Z.eqb negb].
      apply entry_matches_test in Hm. rewrite Hm.
      f_equal. f_equal. lia.
    + cbn in Hi. cbn [gid_scan].
      destruct (Hbefore 0%nat e0) as [[Hq0 Ha0] Hn0]; [lia | reflexivity |].
      rewrite Hq0, Ha0. cbn [Z.eqb negb].
      destruct ((entry_type e0 =? roce_ver) && memcmp16_eq (entry_gid e0) cgid)
        eqn:Ht.
      * apply entry_matches_test in Ht. contradiction.
      * rewrite (IH i e (idx + 1) (entry_gid e0) Hi (conj Hq Ha) Hm).
        -- f_equal. f_equal. lia.
        -- intros j e' Hj He'. apply (Hbefore (S j) e'); [lia | exact He'].
Qed.

(** With a well-formed target that no entry matches, the scan aborts on a
    failed query or runs through the whole table. *)
Lemma gid_scan_no_match roce_ver cgid (tbl : list gid_entry) :
  forall idx g,
    (forall e, e ∈ tbl -> ~ entry_matches roce_ver cgid e) ->
    gid_scan roce_ver cgid false tbl idx g = Abort \/
    ((forall e, e ∈ tbl -> entry_readable e) /\
     exists g', gid_scan roce_ver cgid false tbl idx g
                = Ok (idx + Z.of_nat (length tbl), g')).
Proof.
  induction tbl as [|e0 tbl IH]; intros idx g Hno.
  - right. split; [intros e He; inversion He|].
    exists g. cbn. f_equal. f_equal. lia.
  - cbn [gid_scan].
    destruct (Z.eqb_spec (query_gid_r e0) 0) as [Hq|Hq]; [|now left].
    destruct (Z.eqb_spec (query_attr_r e0) 0) as [Ha|Ha]; [|now left].
    cbn [negb].
    destruct ((entry_type e0 =? roce_ver) && memcmp16_eq (entry_gid e0) cgid)
      eqn:Ht.
    { apply entry_matches_test in Ht. exfalso. apply (Hno e0); [left | exact Ht]. }
    destruct (IH (idx + 1) (entry_gid e0)) as [Hab|[Hall (g' & Hok)]].
    + intros e He. apply Hno. now right.
    + now left.
    + right. split.
      * intros e He. apply elem_of_cons in He as [->|He]; [now split | now apply Hall].
      * exists g'. rewrite Hok. f_equal. f_equal. cbn [length]. lia.
Qed.

(** C4, as the code has it.  The port's attributes being available:
    when [sscanf] converts other than sixteen bytes, index 0 is selected
    whatever GID and type entry 0 holds, provided the table has an entry 0
    and its two queries succeed; when it converts sixteen, the first index
    whose type is the configured version and whose sixteen bytes are the
    target's is selected, provided the entries up to it can be queried; and
    when no entry matches the well-formed target the construction aborts,
    the scan having run through the whole table unless a query failed. *)
Theorem Port_gid_selection (sscanf_gid : string -> Z * list Z) (conf : Config)
        (hw : port_hw) (ipn : Z) (r : Z) (cgid : list Z) :
  query_port_r hw <> -1 ->
  sscanf_gid (ms_async_rdma_local_gid conf) = (r, cgid) ->
  (r <> 16 ->
   forall e rest,
     gid_table hw = e :: rest ->
     entry_readable e ->
     Port_ctor_exp sscanf_gid conf hw ipn
     = Ok (mk_port ipn (hw_lid hw) (entry_gid e) 0)) /\
  (r = 16 ->
   forall (i : nat) e,
     gid_table hw !! i = Some e ->
     entry_readable e ->
     entry_matches (ms_async_rdma_roce_ver conf) cgid e ->
     (forall j e', (j < i)%nat -> gid_table hw !! j = Some e' ->
        entry_readable e' /\ ~ entry_matches (ms_async_rdma_roce_ver conf) cgid e') ->
     Port_ctor_exp sscanf_gid conf hw ipn
     = Ok (mk_port ipn (hw_lid hw) (entry_gid e) (Z.of_nat i))) /\
  (r = 16 ->
   (forall e, e ∈ gid_table hw ->
              ~ entry_matches (ms_async_rdma_roce_ver conf) cgid e) ->
   Port_ctor_exp sscanf_gid conf hw ipn = Abort /\
   ((forall e, e ∈ gid_table hw -> entry_readable e) ->
    exists g, gid_scan (ms_async_rdma_roce_ver conf) cgid false (gid_table hw) 0 []
              = Ok (gid_tbl_len hw, g))).
Proof.
  intros Hport Hscan.
  assert ((query_port_r hw =? -1) = false) as Hp by (apply Z.eqb_neq; exact Hport).
  unfold Port_ctor_exp. rewrite Hp, Hscan. split; [|split].
  - intros Hr e rest Htbl [Hq Ha].
    replace (r =? 16) with false by (symmetry; apply Z.eqb_neq; exact Hr).
    cbn [negb]. rewrite Htbl. cbn [gid_scan]. rewrite Hq, Ha. cbn [Z.eqb negb].
    unfold gid_tbl_len. rewrite Htbl. cbn [length].
    replace (0 =? Z.of_nat (S (length rest))) with false
      by (symmetry; apply Z.eqb_neq; lia).
    reflexivity.
  - intros Hr i e Hi He Hm Hbefore. subst r. cbn [Z.eqb Pos.eqb negb].
    rewrite (gid_scan_first_match _ _ _ i e 0 [] Hi He Hm Hbefore).
    apply lookup_lt_Some in Hi. unfold gid_tbl_len.
    replace (0 + Z.of_nat i =? Z.of_nat (length (gid_table hw))) with false
      by (symmetry; apply Z.eqb_neq; lia).
    reflexivity.
  - intros Hr Hno. subst r. cbn [Z.eqb Pos.eqb negb].
    destruct (gid_scan_no_match _ cgid (gid_table hw) 0 [] Hno)
      as [Hab|[Hall (g & Hok)]].
    + split; [now rewrite Hab|].
      intros Hread. exfalso. revert Hab. generalize 0 at 1. generalize (@nil Z).
      clear Hno. induction (gid_table hw) as [|e0 tbl IH]; intros g idx;
        [discriminate|].
      cbn [gid_scan]. destruct (Hread e0) as [Hq Ha]; [left|].
      rewrite Hq, Ha. cbn [Z.eqb negb].
      destruct (andb _ _); [discriminate|].
      apply IH. intros e He. apply Hread. now right.
    + split.
      * rewrite Hok. unfold gid_tbl_len. now rewrite Z.eqb_refl.
      * intros _. exists g. exact Hok.
Qed.

(** The same on the sources' example: the target's bytes sit at indices 1,
    3 and 4, with the configured type at 3 and 4 only. *)
Lemma Port_gid_selection_witness :
  Port_ctor_exp scan_gid example_conf example_port_hw 1
  = Ok (mk_port 1 7 target_gid 3) /\
  Port_ctor_exp scan_gid short_gid_conf example_port_hw 1
  = Ok (mk_port 1 7 other_gid 0).
Proof.
  split.
  - destruct (Port_gid_selection scan_gid example_conf example_port_hw 1
                16 target_gid) as (_ & H & _).
    + cbn. lia.
    + vm_compute. reflexivity.
    + apply (H eq_refl 3%nat (mk_gid_entry 0 target_gid 0 1)).
      * reflexivity.
      * split; reflexivity.
      * split; reflexivity.
      * intros [|[|[|j]]] e' Hj He'; [| | |lia];
          cbn in He'; inversion He'; subst e';
          (split; [split; reflexivity|]); intros [Ht Hg]; discriminate.
  - destruct (Port_gid_selection scan_gid short_gid_conf example_port_hw 1
                4 [254; 128; 0; 0]) as (H & _).
    + cbn. lia.
    + vm_compute. reflexivity.
    + apply (H ltac:(lia) (mk_gid_entry 0 other_gid 0 0) _ eq_refl).
      split; reflexivity.
Defined.

(** C4 as stated fails: with a GID string of four bytes and
    a table whose entry 0 cannot be queried, no index is selected; the
    constructor aborts on the failed query, which it makes before it looks
    at [malformed]. *)
Lemma Port_malformed_gid_unreadable_entry :
  fst (scan_gid (ms_async_rdma_local_gid short_gid_conf)) = 4 /\
  Port_ctor_exp scan_gid short_gid_conf unreadable_port_hw 1 = Abort /\
  ~ exists p,
      Port_ctor_exp scan_gid short_gid_conf unreadable_port_hw 1 = Ok p /\
      gid_idx p = 0.
Proof.
  split; [reflexivity|]. split; [reflexivity|].
  intros (p & Hp & _). discriminate Hp.
Qed.

(** A port without GIDs aborts too, malformed target or not. *)
Lemma Port_malformed_gid_empty_table :
  Port_ctor_exp scan_gid short_gid_conf empty_port_hw 1 = Abort.
Proof. reflexivity. Qed.

(** ** C1 and C10: round-robin polling over the devices *)

Lemma visits_app t1 t2 : visits (t1 ++ t2) = visits t1 ++ visits t2.
Proof. unfold visits. apply omap_app. Qed.

Lemma rotation_S c N m :
  rotation c N (S m) = (c + 1) mod N :: rotation (c + 1) N m.
Proof.
  unfold rotation. cbn [seq map]. f_equal.
  rewrite <- seq_shift, map_map. apply map_ext. intros j.
  f_equal. lia.
Qed.







Lemma device_at_in_range (dl : DeviceList) (i : Z) :
  0 <= i < num dl ->
  exists dev, device_at dl i = Some dev /\ dev ∈ devices dl.
Proof.
  intros Hi. unfold device_at, num in *.
  replace (0 <=? i) with true by (symmetry; apply Z.leb_le; lia).
  destruct (devices dl !! Z.to_nat i) as [dev|] eqn:Hl.
  - exists dev. split; [reflexivity|]. eapply list_elem_of_lookup_2, Hl.
  - apply lookup_ge_None in Hl. lia.
Qed.


Lemma set_last_poll_dev_twice a b dl :
  set_last_poll_dev a (set_last_poll_dev b dl) = set_last_poll_dev a dl.
Proof. reflexivity. Qed.



Lemma DeviceList_poll_unfold E dir dl ne d :
  DeviceList_poll E dir dl ne d
  = poll_loop (dev_poll E dir) ne (Z.to_nat (num dl)) dl d 0.
Proof. destruct dir; reflexivity. Qed.







(** The scenario of two devices without traffic: [poll_rx(10, ...)] returns
    0 after one attempt per device, the cursor going from 0 to 2. *)
Lemma poll_rx_two_idle_devices :
  result_of (DeviceList_poll_rx quiet_env (polled_list 0) 10 None polled_state)
            (0, None, polled_list 0)
  = (0, Some 0, polled_list 2) /\
  visits (trace (state_of (DeviceList_poll_rx quiet_env (polled_list 0) 10 None
                             polled_state)))
  = [(1, 0); (0, 0)].
Proof. split; vm_compute; reflexivity. Qed.

(** With completions on the second device's transmit queue the call stops
    there and returns their number. *)
Lemma poll_tx_busy_device :
  DeviceList_poll_tx busy_env (polled_list 0) 16 None polled_state
  = Ok ((3, Some 1, polled_list 1),
        extend polled_state [EvPollCq 7%nat 16 3; EvVisit 1 3]).
Proof. vm_compute. reflexivity. Qed.

(** The range of the cursor matters: at [INT_MAX] the increment wraps to
    [INT_MIN + 1] after one step, whose remainder is negative. *)
Lemma poll_cursor_at_INT_MAX :
  DeviceList_poll_tx quiet_env (polled_list INT_MAX) 16 None polled_state
  = Undefined.
Proof. vm_compute. reflexivity. Qed.





(** * Further properties of Device.cc *)

(** ** Lookup of a device by name *)

Lemma name_test (device_name nm : string) :
  (String.length device_name =? 0)%nat || String.eqb device_name nm = true
  <-> device_name = EmptyString \/ nm = device_name.
Proof.
  rewrite orb_true_iff, Nat.eqb_eq, String.eqb_eq. split.
  - intros [Hl|He]; [left | right; now symmetry].
    destruct device_name; [reflexivity | discriminate Hl].
  - intros [->|He]; [left; reflexivity | right; now symmetry].
Qed.

Lemma get_device_from_first (ds : list Device) (device_name : string) :
  forall i0,
    match get_device_from ds i0 device_name with
    | Some i =>
        exists (k : nat) dev,
          i = i0 + Z.of_nat k /\ ds !! k = Some dev /\
          (device_name = EmptyString \/ name dev = device_name) /\
          forall (j : nat) dev', (j < k)%nat -> ds !! j = Some dev' ->
            device_name <> EmptyString /\ name dev' <> device_name
    | None =>
        forall dev, dev ∈ ds ->
          device_name <> EmptyString /\ name dev <> device_name
    end.
Proof.
  induction ds as [|d ds IH]; intros i0; cbn [get_device_from].
  - intros dev Hin. inversion Hin.
  - destruct ((String.length device_name =? 0)%nat || String.eqb device_name (name d))
      eqn:Ht.
    + apply name_test in Ht. exists 0%nat, d. split; [lia|].
      split; [reflexivity|]. split; [exact Ht|]. intros j dev' Hj. lia.
    + assert (device_name <> EmptyString /\ name d <> device_name) as Hd.
      { split; intros Hc; apply not_true_iff_false in Ht; apply Ht, name_test;
          [now left | now right]. }
      specialize (IH (i0 + 1)).
      destruct (get_device_from ds (i0 + 1) device_name) as [i|].
      * destruct IH as (k & dev & -> & Hk & Hm & Hbefore).
        exists (S k), dev. split; [lia|]. split; [exact Hk|]. split; [exact Hm|].
        intros [|j] dev' Hj Hl.
        -- cbn in Hl. inversion Hl; subst dev'. exact Hd.
        -- apply (Hbefore j dev'); [lia | exact Hl].
      * intros dev Hin. apply elem_of_cons in Hin as [->|Hin]; [exact Hd|].
        now apply IH.
Qed.

(** X1.  [get_device(name)] returns the first device of the list that fits:
    with the empty name that is [devices[0]], otherwise the device of least
    index whose name is [name]; it returns NULL exactly when the name is not
    empty and no device has it, or the list is empty. *)
Theorem DeviceList_get_device_first_match (dl : DeviceList) (device_name : string) :
  (forall i,
      DeviceList_get_device dl device_name = Some i ->
      exists dev,
        device_at dl i = Some dev /\
        (device_name = EmptyString \/ name dev = device_name) /\
        (device_name = EmptyString -> i = 0) /\
        forall j dev', 0 <= j < i -> device_at dl j = Some dev' ->
                       name dev' <> device_name) /\
  (DeviceList_get_device dl device_name = None <->
   forall dev, dev ∈ devices dl ->
               device_name <> EmptyString /\ name dev <> device_name).
Proof.
  unfold DeviceList_get_device.
  pose proof (get_device_from_first (devices dl) device_name 0) as H.
  split.
  - intros i Hi. rewrite Hi in H. destruct H as (k & dev & -> & Hk & Hm & Hbefore).
    exists dev. unfold device_at.
    replace (0 <=? 0 + Z.of_nat k) with true by (symmetry; apply Z.leb_le; lia).
    replace (Z.to_nat (0 + Z.of_nat k)) with k by lia.
    split; [exact Hk|]. split; [exact Hm|]. split.
    + intros He. destruct k as [|k]; [reflexivity|].
      destruct (devices dl) as [|d0 ds] eqn:Hd; [discriminate Hk|].
      destruct (Hbefore 0%nat d0) as [Hne _]; [lia | reflexivity | contradiction].
    + intros j dev' Hj Hat.
      replace (0 <=? j) with true in Hat by (symmetry; apply Z.leb_le; lia).
      apply (Hbefore (Z.to_nat j) dev'); [lia | exact Hat].
  - split.
    + intros Hn. rewrite Hn in H. exact H.
    + intros Hall. destruct (get_device_from (devices dl) 0 device_name) as [i|];
        [|reflexivity].
      destruct H as (k & dev & _ & Hk & Hm & _).
      destruct (Hall dev) as [Hne Hnm]; [eapply list_elem_of_lookup_2, Hk|].
      destruct Hm; contradiction.
Qed.

Lemma DeviceList_get_device_first_match_witness :
  exists dev, device_at (polled_list 0) 1 = Some dev /\ name dev = "mlx5_1"%string.
Proof.
  destruct (DeviceList_get_device_first_match (polled_list 0) "mlx5_1") as [H _].
  destruct (H 1 eq_refl) as (dev & Hat & [He|Hn] & _); [discriminate He|].
  exists dev. split; [exact Hat | exact Hn].
Defined.

(** ** What a constructed Port holds *)

Lemma gid_scan_sound roce_ver cgid malformed (tbl : list gid_entry) :
  forall idx g0 i g,
    gid_scan roce_ver cgid malformed tbl idx g0 = Ok (i, g) ->
    (i = idx + Z.of_nat (length tbl) /\ (malformed = true -> tbl = [])) \/
    exists (k : nat) e,
      i = idx + Z.of_nat k /\ tbl !! k = Some e /\ g = entry_gid e /\
      (malformed = true -> k = 0%nat) /\
      (malformed = false -> entry_matches roce_ver cgid e) /\
      forall (j : nat) e', (j <= k)%nat -> tbl !! j = Some e' ->
        entry_readable e' /\
        ((j < k)%nat -> ~ entry_matches roce_ver cgid e').
Proof.
  induction tbl as [|e0 tbl IH]; intros idx g0 i g H; cbn [gid_scan] in H.
  - inversion H; subst. left. split; [cbn; lia | reflexivity].
  - destruct (Z.eqb_spec (query_gid_r e0) 0) as [Hq|Hq]; [|discriminate H].
    destruct (Z.eqb_spec (query_attr_r e0) 0) as [Ha|Ha]; [|discriminate H].
    cbn [negb] in H.
    assert (forall (j : nat) e', (j <= 0)%nat -> (e0 :: tbl) !! j = Some e' ->
              entry_readable e' /\ ((j < 0)%nat -> ~ entry_matches roce_ver cgid e'))
      as Hfirst.
    { intros j e' Hj Hl. replace j with 0%nat in * by lia. cbn in Hl.
      inversion Hl; subst e'. split; [now split | lia]. }
    destruct malformed.
    + inversion H; subst. right. exists 0%nat, e0.
      split; [lia|]. split; [reflexivity|]. split; [reflexivity|].
      split; [reflexivity|]. split; [discriminate | exact Hfirst].
    + destruct ((entry_type e0 =? roce_ver) && memcmp16_eq (entry_gid e0) cgid)
        eqn:Ht.
      * inversion H; subst. apply entry_matches_test in Ht.
        right. exists 0%nat, e0.
        split; [lia|]. split; [reflexivity|]. split; [reflexivity|].
        split; [discriminate|]. split; [intros _; exact Ht | exact Hfirst].
      * assert (~ entry_matches roce_ver cgid e0) as Hn0.
        { intros Hm. apply entry_matches_test in Hm. congruence. }
        apply IH in H as [[-> _]|(k & e & -> & Hk & -> & _ & Hm & Hbefore)].
        -- left. split; [cbn [length]; lia | discriminate].
        -- right. exists (S k), e.
           split; [lia|]. split; [exact Hk|]. split; [reflexivity|].
           split; [discriminate|]. split; [exact Hm|].
           intros [|j] e' Hj Hl.
           ++ cbn in Hl. inversion Hl; subst e'. split; [now split | now intros _].
           ++ destruct (Hbefore j e') as [Hr Hnm]; [lia | exact Hl |].
              split; [exact Hr | intros Hlt; apply Hnm; lia].
Qed.

(** X2.  Whatever [Port::Port] (HAVE_IBV_EXP) returns holds the port number
    it was given, the LID of the port query, and the GID of a table entry
    inside the table: the entries up to it could all be queried, with a
    malformed target it is entry 0, and with a well-formed one it has the
    configured type and the target's sixteen bytes while no entry before it
    has both. *)
Theorem Port_ctor_exp_sound (sscanf_gid : string -> Z * list Z) (conf : Config)
        (hw : port_hw) (ipn : Z) (r : Z) (cgid : list Z) (p : Port) :
  sscanf_gid (ms_async_rdma_local_gid conf) = (r, cgid) ->
  Port_ctor_exp sscanf_gid conf hw ipn = Ok p ->
  port_num p = ipn /\ lid p = hw_lid hw /\ query_port_r hw <> -1 /\
  0 <= gid_idx p < gid_tbl_len hw /\
  exists e,
    gid_table hw !! Z.to_nat (gid_idx p) = Some e /\
    gid p = entry_gid e /\
    (r <> 16 -> gid_idx p = 0) /\
    (r = 16 -> entry_matches (ms_async_rdma_roce_ver conf) cgid e) /\
    forall (j : nat) e', Z.of_nat j <= gid_idx p -> gid_table hw !! j = Some e' ->
      entry_readable e' /\
      (Z.of_nat j < gid_idx p -> ~ entry_matches (ms_async_rdma_roce_ver conf) cgid e').
Proof.
  intros Hscan H. unfold Port_ctor_exp in H. rewrite Hscan in H.
  destruct (Z.eqb_spec (query_port_r hw) (-1)) as [Hp|Hp]; [discriminate H|].
  destruct (gid_scan _ cgid (negb (r =? 16)) (gid_table hw) 0 [])
    as [[i g]| | |] eqn:Hs; try discriminate H.
  destruct (Z.eqb_spec i (gid_tbl_len hw)) as [Hi|Hi]; [discriminate H|].
  inversion H; subst p; clear H. cbn [port_num lid gid gid_idx].
  apply gid_scan_sound in Hs as [[-> _]|(k & e & -> & Hk & -> & Hmal & Hwell & Hbefore)].
  { exfalso. apply Hi. unfold gid_tbl_len. lia. }
  pose proof (lookup_lt_Some _ _ _ Hk) as Hlt.
  split; [reflexivity|]. split; [reflexivity|]. split; [exact Hp|].
  split; [unfold gid_tbl_len; lia|].
  exists e. replace (Z.to_nat (0 + Z.of_nat k)) with k by lia.
  split; [exact Hk|]. split; [reflexivity|]. split; [|split].
  - intros Hr. rewrite Hmal; [reflexivity|].
    apply negb_true_iff, Z.eqb_neq. exact Hr.
  - intros Hr. apply Hwell. subst r. reflexivity.
  - intros j e' Hj Hl. destruct (Hbefore j e') as [Hr Hn]; [lia | exact Hl |].
    split; [exact Hr | intros Hlt'; apply Hn; lia].
Qed.

Lemma Port_ctor_exp_sound_witness :
  gid_idx (mk_port 1 7 target_gid 3) = 3 /\
  exists e,
    gid_table example_port_hw !! 3%nat = Some e /\
    entry_matches 1 target_gid e.
Proof.
  destruct (Port_ctor_exp_sound scan_gid example_conf example_port_hw 1 16
              target_gid (mk_port 1 7 target_gid 3))
    as (_ & _ & _ & _ & e & Hl & _ & _ & Hm & _).
  - vm_compute. reflexivity.
  - vm_compute. reflexivity.
  - split; [reflexivity|]. exists e. split; [exact Hl | exact (Hm eq_refl)].
Defined.

(** X3.  With a malformed or absent target GID the two builds agree:
    whenever [Port::Port] with HAVE_IBV_EXP returns, [Port::Port] without it
    returns a port with the same number, LID and GID (that of table
    index 0). *)
Theorem Port_ctor_builds_agree (sscanf_gid : string -> Z * list Z) (conf : Config)
        (hw : port_hw) (ipn : Z) (r : Z) (cgid : list Z) (p : Port) :
  sscanf_gid (ms_async_rdma_local_gid conf) = (r, cgid) ->
  r <> 16 ->
  Port_ctor_exp sscanf_gid conf hw ipn = Ok p ->
  exists p',
    Port_ctor hw ipn = Ok p' /\
    port_num p' = port_num p /\ lid p' = lid p /\ gid p' = gid p.
Proof.
  intros Hscan Hr H. unfold Port_ctor_exp in H. rewrite Hscan in H.
  unfold Port_ctor.
  destruct (Z.eqb_spec (query_port_r hw) (-1)) as [Hp|Hp]; [discriminate H|].
  replace (r =? 16) with false in H by (symmetry; apply Z.eqb_neq; exact Hr).
  cbn [negb] in H.
  destruct (gid_scan _ cgid true (gid_table hw) 0 []) as [[i g]| | |] eqn:Hs;
    try discriminate H.
  destruct (Z.eqb_spec i (gid_tbl_len hw)) as [Hi|Hi]; [discriminate H|].
  inversion H; subst p; clear H. cbn [port_num lid gid].
  apply gid_scan_sound in Hs as [[-> _]|(k & e & -> & Hk & -> & Hmal & _ & Hbefore)].
  { exfalso. apply Hi. unfold gid_tbl_len. lia. }
  rewrite (Hmal eq_refl) in Hk, Hbefore.
  destruct (Hbefore 0%nat e) as [[Hq _] _]; [lia | exact Hk |].
  destruct (gid_table hw) as [|e0 rest]; [discriminate Hk|].
  cbn in Hk. inversion Hk; subst e0. rewrite Hq. cbn [Z.eqb negb].
  eexists. split; [reflexivity|]. cbn [port_num lid gid]. repeat split.
Qed.

Lemma Port_ctor_builds_agree_witness :
  exists p',
    Port_ctor example_port_hw 1 = Ok p' /\
    port_num p' = 1 /\ lid p' = 7 /\ gid p' = other_gid.
Proof.
  apply (Port_ctor_builds_agree scan_gid short_gid_conf example_port_hw 1
           4 [254; 128; 0; 0] (mk_port 1 7 other_gid 0)).
  - vm_compute. reflexivity.
  - discriminate.
  - vm_compute. reflexivity.
Defined.

(** ** The factories of completion channels and completion queues *)

Lemma fresh_not_live s : heap_wf s -> next_handle s ∉ live s.
Proof. intros Hwf Hin. specialize (Hwf _ Hin). lia. Qed.

Lemma new_then_delete (h : handle) (L : gset handle) :
  h ∉ L -> ({[h]} ∪ L) ∖ {[h]} = L.
Proof.
  intros Hn. apply set_eq. intros x.
  rewrite elem_of_difference, elem_of_union, elem_of_singleton. split.
  - intros [[Hx|Hx] Hne]; [contradiction | exact Hx].
  - intros Hx. split; [now right | intros ->; contradiction].
Qed.

Lemma heap_wf_new s t :
  heap_wf s ->
  heap_wf (mk_state t ({[next_handle s]} ∪ live s) (S (next_handle s))).
Proof.
  intros Hwf h Hh. cbn in *.
  apply elem_of_union in Hh as [Hh|Hh].
  - apply elem_of_singleton in Hh. lia.
  - specialize (Hwf _ Hh). lia.
Qed.

Lemma heap_wf_skip s t :
  heap_wf s -> heap_wf (mk_state t (live s) (S (next_handle s))).
Proof. intros Hwf h Hh. cbn in *. specialize (Hwf _ Hh). lia. Qed.

(** [create_comp_channel] always returns; what it returns and leaves
    behind is decided by the status of [cc->init()]. *)
Lemma create_comp_channel_run (E : Env) (s : State) :
  heap_wf s ->
  let h := next_handle s in
  let r := env_cc_init E (trace s ++ [EvNew h]) h in
  create_comp_channel E s
  = Ok (if r =? 0 then Some h else NULL,
        if r =? 0
        then mk_state (trace s ++ [EvNew h; EvCcInit h r]) ({[h]} ∪ live s) (S h)
        else mk_state (trace s ++ [EvNew h; EvCcInit h r; EvDelete h]) (live s) (S h)).
Proof.
  intros Hwf h r. unfold create_comp_channel, bind, new_object, cc_init, call, log.
  cbn [trace live next_handle]. fold h r.
  destruct (r =? 0); cbn [negb].
  - cbv [ret]. now rewrite <- !app_assoc.
  - unfold delete. cbn [live trace next_handle].
    rewrite bool_decide_eq_true_2 by (apply elem_of_union_l, elem_of_singleton; reflexivity).
    cbv [ret]. rewrite new_then_delete by (apply fresh_not_live; exact Hwf).
    now rewrite <- !app_assoc.
Qed.

(** The same for [create_comp_queue], the status being that of
    [cq->init()] on a queue of depth [CQ_DEPTH] bound to channel [cc]. *)
Lemma create_comp_queue_run (E : Env) (cc : ptr) (s : State) :
  heap_wf s ->
  let h := next_handle s in
  let r := env_cq_init E (trace s ++ [EvNew h]) h CQ_DEPTH cc in
  create_comp_queue E cc s
  = Ok (if r =? 0 then Some h else NULL,
        if r =? 0
        then mk_state (trace s ++ [EvNew h; EvCqInit h CQ_DEPTH cc r])
                      ({[h]} ∪ live s) (S h)
        else mk_state (trace s ++ [EvNew h; EvCqInit h CQ_DEPTH cc r; EvDelete h])
                      (live s) (S h)).
Proof.
  intros Hwf h r. unfold create_comp_queue, bind, new_object, cq_init, call, log.
  cbn [trace live next_handle]. fold h r.
  destruct (r =? 0); cbn [negb].
  - cbv [ret]. now rewrite <- !app_assoc.
  - unfold delete. cbn [live trace next_handle].
    rewrite bool_decide_eq_true_2 by (apply elem_of_union_l, elem_of_singleton; reflexivity).
    cbv [ret]. rewrite new_then_delete by (apply fresh_not_live; exact Hwf).
    now rewrite <- !app_assoc.
Qed.

(** X4.  [create_comp_channel] and [create_comp_queue] always return.  They
    return NULL exactly when the object's [init()] reports a status other
    than 0, and then the heap is as before the call: the object they
    created is deleted again.  Otherwise they return a new object, alive and
    different from everything alive before; for a completion queue it was
    initialised with depth 30000 on the channel passed. *)
Theorem factories_release_on_failure (E : Env) (cc : ptr) (s : State) :
  heap_wf s ->
  let h := next_handle s in
  (exists p s',
      create_comp_channel E s = Ok (p, s') /\ heap_wf s' /\
      (p = NULL <-> env_cc_init E (trace s ++ [EvNew h]) h <> 0) /\
      (p = NULL -> live s' = live s) /\
      (p <> NULL -> p = Some h /\ (h ∉ live s) /\ live s' = {[h]} ∪ live s)) /\
  (exists p s' r,
      create_comp_queue E cc s = Ok (p, s') /\ heap_wf s' /\
      r = env_cq_init E (trace s ++ [EvNew h]) h 30000 cc /\
      EvCqInit h 30000 cc r ∈ trace s' /\
      (p = NULL <-> r <> 0) /\
      (p = NULL -> live s' = live s) /\
      (p <> NULL -> p = Some h /\ (h ∉ live s) /\ live s' = {[h]} ∪ live s)).
Proof.
  intros Hwf h. pose proof (fresh_not_live s Hwf) as Hfresh. split.
  - eexists. eexists. split; [apply (create_comp_channel_run E s Hwf)|].
    cbv zeta. fold h.
    destruct (Z.eqb_spec (env_cc_init E (trace s ++ [EvNew h]) h) 0) as [Hr|Hr].
    + split; [apply heap_wf_new; exact Hwf|].
      split; [split; [discriminate | intros Hc; contradiction]|].
      split; [discriminate|]. intros _. now repeat split.
    + split; [apply heap_wf_skip; exact Hwf|].
      split; [split; [intros _; exact Hr | reflexivity]|].
      split; [reflexivity|]. intros Hc. exfalso. apply Hc. reflexivity.
  - eexists. eexists. eexists.
    split; [apply (create_comp_queue_run E cc s Hwf)|].
    cbv zeta. fold h. change CQ_DEPTH with 30000.
    split; [|split; [reflexivity|]].
    { destruct (_ =? 0); [apply heap_wf_new | apply heap_wf_skip]; exact Hwf. }
    destruct (Z.eqb_spec (env_cq_init E (trace s ++ [EvNew h]) h 30000 cc) 0)
      as [Hr|Hr]; cbn [trace live].
    + split; [apply elem_of_app; right; apply elem_of_cons; right; apply elem_of_cons; now left|].
      split; [split; [discriminate | intros Hc; contradiction]|].
      split; [discriminate|]. intros _. now repeat split.
    + split; [apply elem_of_app; right; apply elem_of_cons; right; apply elem_of_cons; now left|].
      split; [split; [intros _; exact Hr | reflexivity]|].
      split; [reflexivity|]. intros Hc. exfalso. apply Hc. reflexivity.
Qed.

Lemma factories_release_on_failure_witness :
  exists p s',
    create_comp_channel quiet_env ready_state = Ok (p, s') /\
    (p <> NULL -> p = Some 7%nat).
Proof.
  destruct (factories_release_on_failure quiet_env NULL ready_state)
    as ((p & s' & Hrun & _ & _ & _ & Hok) & _).
  - intros h Hh. vm_compute.
    apply elem_of_elements in Hh. vm_compute in Hh.
    repeat (apply elem_of_cons in Hh as [->|Hh]; [lia|]). inversion Hh.
  - exists p, s'. split; [exact Hrun|]. intros Hp. now destruct (Hok Hp) as [-> _].
Defined.

(** ** The list the DeviceList constructor builds *)

Lemma heap_wf_log s e : heap_wf s -> heap_wf (log s e).
Proof. intros Hwf h Hh. exact (Hwf h Hh). Qed.

Lemma heap_wf_extend s t : heap_wf s -> heap_wf (extend s t).
Proof. intros Hwf h Hh. exact (Hwf h Hh). Qed.

(** A Device whose constructor returned: two new channels, nothing else. *)
Lemma Device_ctor_run (E : Env) (device : option ibv_device) (s : State)
      (d : Device) (s' : State) :
  heap_wf s ->
  Device_ctor E device s = Ok (d, s') ->
  let h := next_handle s in
  exists dv t,
    device = Some dv /\ name d = dev_name dv /\ initialized d = false /\
    tx_cc d = Some h /\ rx_cc d = Some (S h) /\
    resources d = [NULL; NULL; NULL; NULL; Some h; NULL; Some (S h)] /\
    trace s' = trace s ++ t /\ omap getfd_of t = [] /\
    live s' = {[h]} ∪ {[S h]} ∪ live s /\ next_handle s' = S (S h) /\
    heap_wf s'.
Proof.
  intros Hwf H h. unfold Device_ctor in H.
  destruct device as [dv|]; [|discriminate H].
  apply bind_inv in H as (c & s1 & Ho & H).
  cbv [ibv_open_device call] in Ho. inversion Ho; subst c s1; clear Ho.
  destruct (env_open_device E (trace s)) as [fd|] eqn:Hfd; [|discriminate H].
  apply bind_inv in H as (a & s2 & Hq & H).
  cbv [ibv_query_device call] in Hq. inversion Hq; subst a s2; clear Hq.
  set (s2 := log (log s _) _) in H.
  destruct (env_query_device E (trace s ++ [EvOpenDevice (Some fd)])) as [r attr].
  cbn [fst snd] in *.
  destruct (r =? -1); [cbv [ceph_abort] in H; discriminate H|].
  assert (heap_wf s2) as Hwf2 by (subst s2; now apply heap_wf_log, heap_wf_log).
  apply bind_inv in H as (tx & s3 & Hc1 & H).
  rewrite (create_comp_channel_run E s2 Hwf2) in Hc1. cbv zeta in Hc1.
  apply bind_inv in H as (? & s4 & Ha1 & H). apply assert_inv in Ha1 as (Hn1 & ->).
  destruct (env_cc_init E (trace s2 ++ [EvNew (next_handle s2)]) (next_handle s2) =? 0);
    inversion Hc1; subst tx s3; clear Hc1; [|cbn in Hn1; discriminate Hn1].
  set (s3 := mk_state _ _ _) in H.
  assert (heap_wf s3) as Hwf3 by (subst s3; apply heap_wf_new; exact Hwf2).
  apply bind_inv in H as (rx & s5 & Hc2 & H).
  rewrite (create_comp_channel_run E s3 Hwf3) in Hc2. cbv zeta in Hc2.
  apply bind_inv in H as (? & s6 & Ha2 & H). apply assert_inv in Ha2 as (Hn2 & ->).
  destruct (env_cc_init E (trace s3 ++ [EvNew (next_handle s3)]) (next_handle s3) =? 0);
    inversion Hc2; subst rx s5; clear Hc2; [|cbn in Hn2; discriminate Hn2].
  cbv [ret] in H. inversion H; subst d s'; clear H.
  exists dv. eexists.
  split; [reflexivity|]. split; [reflexivity|]. split; [reflexivity|].
  split; [reflexivity|]. split; [reflexivity|]. split; [reflexivity|].
  split.
  { subst s3 s2. cbn [trace log]. rewrite <- !app_assoc. reflexivity. }
  split; [reflexivity|].
  split.
  { subst s3 s2. cbn [live log next_handle]. fold h.
    apply set_eq. intros k. rewrite !elem_of_union. tauto. }
  split; [reflexivity|].
  apply (heap_wf_new s3). exact Hwf3.
Qed.

Lemma get_fd_inv (E : Env) (p : ptr) (s : State) (fd : Z) (s' : State) :
  get_fd E p s = Ok (fd, s') ->
  exists h, p = Some h /\ h ∈ live s /\ s' = log s (EvCcGetFd h fd).
Proof.
  unfold get_fd. intros H. apply bind_inv in H as (h & s0 & Hd & Hc).
  apply deref_inv in Hd as (-> & Hl & ->).
  cbv [call] in Hc. inversion Hc; subst. now exists h.
Qed.

Lemma channels_live_all s ds :
  (forall p, p ∈ channels_of ds -> is_live s p = true) ->
  channels_live s ds = true.
Proof.
  intros H. unfold channels_live. apply forallb_forall. intros d Hd.
  apply list_elem_of_In in Hd.
  apply andb_true_intro. split; apply H; unfold channels_of;
    apply list_elem_of_In, in_flat_map; exists d;
    (split; [now apply list_elem_of_In | cbn; auto]).
Qed.

Lemma uninitialized_pollable s ds :
  Forall (fun d => initialized d = false) ds -> devices_pollable s ds = true.
Proof.
  intros H. unfold devices_pollable. apply forallb_forall. intros d Hd.
  rewrite Forall_forall in H. unfold device_pollable.
  rewrite (H d); [reflexivity | now apply list_elem_of_In].
Qed.

(** The loop of the constructor: a device per entry, in order, each with
    two new channels, and two descriptors per device. *)
Lemma make_devices_run (E : Env) (l : list ibv_device) :
  forall s ds fds s',
    heap_wf s ->
    make_devices E l s = Ok ((ds, fds), s') ->
    heap_wf s' /\ live s ⊆ live s' /\
    (next_handle s <= next_handle s')%nat /\
    map name ds = map dev_name l /\
    length fds = (2 * length ds)%nat /\
    Forall (fun d => initialized d = false) ds /\
    (forall p, p ∈ channels_of ds ->
       exists h, p = Some h /\ (next_handle s <= h < next_handle s')%nat /\
                 h ∈ live s') /\
    NoDup (channels_of ds) /\
    Forall (fun p => pfd_events p = POLL_EVENTS /\ pfd_revents p = 0) fds /\
    exists t, trace s' = trace s ++ t /\
              omap getfd_of t = zip (channels_of ds) (map pfd_fd fds).
Proof.
  induction l as [|dv rest IH]; intros s ds fds s' Hwf H; cbn [make_devices] in H.
  - cbv [ret] in H. inversion H; subst.
    split; [exact Hwf|]. split; [reflexivity|]. split; [lia|].
    split; [reflexivity|]. split; [reflexivity|]. split; [constructor|].
    split; [intros p Hp; inversion Hp|]. split; [constructor|].
    split; [constructor|].
    exists []. split; [now rewrite app_nil_r | reflexivity].
  - apply bind_inv in H as (d & s1 & Hc & H).
    destruct (Device_ctor_run E _ s d s1 Hwf Hc)
      as (dv' & t0 & Hdv & Hname & Hinit & Htx & Hrx & _ & Ht0 & Hg0 & Hl1 & Hn1 & Hwf1).
    inversion Hdv; subst dv'; clear Hdv.
    apply bind_inv in H as (tfd & s2 & Hf1 & H).
    apply get_fd_inv in Hf1 as (h1 & Hh1 & _ & ->).
    apply bind_inv in H as (rfd & s3 & Hf2 & H).
    apply get_fd_inv in Hf2 as (h2 & Hh2 & _ & ->).
    rewrite Htx in Hh1. rewrite Hrx in Hh2.
    inversion Hh1; subst h1. inversion Hh2; subst h2. clear Hh1 Hh2.
    apply bind_inv in H as ([ds0 fds0] & s4 & Hrest & H).
    cbv [ret] in H. inversion H; subst ds fds s4; clear H.
    set (h := next_handle s) in *.
    set (s3 := log (log s1 _) _) in Hrest.
    assert (heap_wf s3) as Hwf3 by (subst s3; now apply heap_wf_log, heap_wf_log).
    destruct (IH s3 ds0 fds0 s' Hwf3 Hrest)
      as (Hwf' & Hsub & Hnext & Hnames & Hlen & Huninit & Hch & Hnd & Hev & t & Ht & Hg).
    assert (next_handle s3 = S (S h)) as Hn3 by exact Hn1.
    assert (live s3 = {[h]} ∪ {[S h]} ∪ live s) as Hl3 by exact Hl1.
    split; [exact Hwf'|].
    split.
    { intros x Hx. apply Hsub. rewrite Hl3. apply elem_of_union_r. exact Hx. }
    split; [lia|].
    split; [cbn [map]; now rewrite Hname, Hnames|].
    split; [cbn [length]; lia|].
    split; [constructor; assumption|].
    unfold channels_of. cbn [flat_map app]. fold (channels_of ds0).
    rewrite Htx, Hrx.
    split.
    { intros p Hp. apply elem_of_cons in Hp as [->|Hp].
      - exists h. split; [reflexivity|]. split; [lia|].
        apply Hsub. rewrite Hl3. apply elem_of_union_l, elem_of_union_l.
        now apply elem_of_singleton.
      - apply elem_of_cons in Hp as [->|Hp].
        + exists (S h). split; [reflexivity|]. split; [lia|].
          apply Hsub. rewrite Hl3. apply elem_of_union_l, elem_of_union_r.
          now apply elem_of_singleton.
        + destruct (Hch p Hp) as (h' & -> & Hr & Hl').
          exists h'. split; [reflexivity|]. split; [lia | exact Hl']. }
    split.
    { apply NoDup_cons. split.
      - intros Hp. apply elem_of_cons in Hp as [Hp|Hp]; [inversion Hp; lia|].
        destruct (Hch _ Hp) as (h' & Heq & Hr & _). inversion Heq. lia.
      - apply NoDup_cons. split; [|exact Hnd].
        intros Hp. destruct (Hch _ Hp) as (h' & Heq & Hr & _). inversion Heq. lia. }
    split; [repeat constructor; assumption|].
    exists (t0 ++ [EvCcGetFd h tfd; EvCcGetFd (S h) rfd] ++ t).
    split.
    { rewrite Ht. subst s3. cbn [trace log]. rewrite Ht0.
      rewrite <- !app_assoc. reflexivity. }
    rewrite !omap_app, Hg0, Hg. reflexivity.
Qed.

(** X5.  A DeviceList whose constructor returned was built from a device
    list that is not NULL and not empty.  It holds one Device per entry, in
    the order and with the names of the entries, none of them initialized;
    their completion channels are alive and pairwise different; and the
    descriptor array has two entries per device, events POLLIN | POLLERR |
    POLLNVAL | POLLHUP and no returned events, entry [2i] holding the
    descriptor of device [i]'s transmit channel and entry [2i+1] that of its
    receive channel.  So the list can be waited on and polled as it is. *)
Theorem DeviceList_ctor_invariants (E : Env) (device_list : option (list ibv_device))
        (cursor0 : Z) (s : State) (dl : DeviceList) (s' : State) :
  heap_wf s ->
  DeviceList_ctor E device_list cursor0 s = Ok (dl, s') ->
  exists l t,
    device_list = Some l /\ l <> [] /\
    map name (devices dl) = map dev_name l /\
    0 < num dl /\ last_poll_dev dl = cursor0 /\
    length (poll_fds dl) = (2 * length (devices dl))%nat /\
    Forall (fun d => initialized d = false) (devices dl) /\
    NoDup (channels_of (devices dl)) /\
    channels_live s' (devices dl) = true /\
    devices_pollable s' (devices dl) = true /\
    Forall (fun p => pfd_events p = 57 /\ pfd_revents p = 0) (poll_fds dl) /\
    trace s' = trace s ++ t /\
    omap getfd_of t = zip (channels_of (devices dl)) (map pfd_fd (poll_fds dl)).
Proof.
  intros Hwf H. unfold DeviceList_ctor in H.
  destruct device_list as [l|]; [|discriminate H].
  destruct l as [|dv rest]; [discriminate H|].
  apply bind_inv in H as ([ds fds] & s1 & Hm & H).
  cbv [ret] in H. inversion H; subst dl s1; clear H.
  destruct (make_devices_run E _ s ds fds s' Hwf Hm)
    as (_ & _ & _ & Hnames & Hlen & Huninit & Hch & Hnd & Hev & t & Ht & Hg).
  exists (dv :: rest), t. cbn [devices last_poll_dev poll_fds].
  split; [reflexivity|]. split; [discriminate|]. split; [exact Hnames|].
  split.
  { unfold num. cbn [devices].
    apply (f_equal (@length _)) in Hnames. rewrite !length_map in Hnames.
    cbn [length] in Hnames. lia. }
  split; [reflexivity|]. split; [exact Hlen|]. split; [exact Huninit|].
  split; [exact Hnd|].
  split.
  { apply channels_live_all. intros p Hp.
    destruct (Hch p Hp) as (h & -> & _ & Hl). apply is_live_Some. now exists h. }
  split; [now apply uninitialized_pollable|].
  split; [exact Hev|]. split; [exact Ht | exact Hg].
Qed.

Lemma DeviceList_ctor_invariants_witness :
  map name (devices pair_list) = ["mlx5_0"; "mlx5_1"]%string /\
  length (poll_fds pair_list) = 4%nat /\
  channels_live pair_state (devices pair_list) = true.
Proof.
  destruct (DeviceList_ctor_invariants quiet_env
              (Some [mk_ibv_device "mlx5_0"; mk_ibv_device "mlx5_1"]) 0
              empty_state pair_list pair_state)
    as (l & t & Hl & _ & Hn & _ & _ & Hlen & _ & _ & Hc & _).
  - intros h Hh. cbn in Hh. apply not_elem_of_empty in Hh. contradiction.
  - vm_compute. reflexivity.
  - inversion Hl; subst l. split; [exact Hn|]. split; [exact Hlen | exact Hc].
Defined.

(** ** Polling: what it touches *)

Lemma dev_poll_uninitialized (E : Env) (dir : direction) (dev : Device) (ne : Z) (s : State) :
  initialized dev = false -> dev_poll E dir dev ne s = Ok (0, s).
Proof.
  intros Hi. destruct dir; cbn [dev_poll]; unfold poll_tx_cq, poll_rx_cq;
    now rewrite Hi.
Qed.

Lemma dev_poll_inv (E : Env) (dir : direction) (dev : Device) (ne : Z) (s : State)
      (n : Z) (s1 : State) :
  dev_poll E dir dev ne s = Ok (n, s1) ->
  (initialized dev = false /\ n = 0 /\ s1 = s) \/
  (initialized dev = true /\
   exists cq, cq_of dir dev = Some cq /\ cq ∈ live s /\ s1 = log s (EvPollCq cq ne n)).
Proof.
  intros H. destruct (initialized dev) eqn:Hi.
  - right. split; [reflexivity|].
    destruct dir; cbn [dev_poll cq_of] in *; unfold poll_tx_cq, poll_rx_cq, poll_cq in H;
      rewrite Hi in H; cbn [negb] in H;
      apply bind_inv in H as (h & s0 & Hd & Hc);
      apply deref_inv in Hd as (Hp & Hl & ->);
      cbv [call] in Hc; inversion Hc; subst; now exists h.
  - left. rewrite (dev_poll_uninitialized E dir dev ne s Hi) in H.
    inversion H. now repeat split.
Qed.

(** On devices none of which is initialized the loop makes its [count]
    visits and nothing else. *)
Lemma poll_loop_idle (E : Env) (dir : direction) (ne : Z) (count : nat) :
  forall (dl : DeviceList) (d : option Z) (n0 : Z) (s : State),
    let c := last_poll_dev dl in
    let N := num dl in
    Forall (fun d => initialized d = false) (devices dl) ->
    (0 < count)%nat -> 0 < N ->
    -1 <= c -> c + Z.of_nat count <= INT_MAX ->
    poll_loop (dev_poll E dir) ne count dl d n0 s
    = Ok ((0, Some ((c + Z.of_nat count) mod N),
           set_last_poll_dev (c + Z.of_nat count) dl),
          extend s (map (fun i => EvVisit i 0) (rotation c N count))).
Proof.
  induction count as [|count IH]; intros dl d n0 s c N Hun Hcount HN Hc Hmax;
    [lia|].
  cbn [poll_loop].
  assert (int_wrap (last_poll_dev dl + 1) = c + 1) as Hw.
  { apply int_wrap_id. unfold INT_MIN, INT_MAX in *. subst c. lia. }
  rewrite Hw. cbn [last_poll_dev set_last_poll_dev].
  change (num (set_last_poll_dev (c + 1) dl)) with N.
  rewrite (Z.rem_mod_nonneg (c + 1) N) by lia.
  destruct (device_at_in_range dl ((c + 1) mod N)) as (dev & Hat & Hin).
  { apply Z.mod_pos_bound. exact HN. }
  change (device_at (set_last_poll_dev (c + 1) dl) ((c + 1) mod N))
    with (device_at dl ((c + 1) mod N)).
  rewrite Hat.
  assert (initialized dev = false) as Hi.
  { rewrite Forall_forall in Hun. apply Hun, Hin. }
  unfold bind at 1. rewrite (dev_poll_uninitialized E dir dev ne s Hi).
  unfold bind at 1. cbn [emit Z.eqb negb]. rewrite log_extend, rotation_S.
  cbn [map].
  destruct count as [|count'].
  - cbn [poll_loop ret rotation seq map]. do 4 f_equal.
  - rewrite (IH (set_last_poll_dev (c + 1) dl)); try assumption; try lia;
      cbn [last_poll_dev set_last_poll_dev devices]; try assumption; try lia.
    change (num (set_last_poll_dev (c + 1) dl)) with N.
    rewrite extend_extend, set_last_poll_dev_twice. cbn [app].
    replace (c + 1 + Z.of_nat (S count')) with (c + Z.of_nat (S (S count'))) by lia.
    reflexivity.
Qed.

(** X6.  On a list none of whose devices is initialized (as the constructor
    leaves it), [poll_tx] and [poll_rx] return 0 after one visit per device
    in rotation order, move the cursor by [N], and call no completion queue:
    the visits are all they add to the trace. *)
Theorem DeviceList_poll_uninitialized (E : Env) (dir : direction) (dl : DeviceList)
        (ne : Z) (d0 : option Z) (s : State) :
  let c := last_poll_dev dl in
  let N := num dl in
  Forall (fun d => initialized d = false) (devices dl) ->
  0 < N -> -1 <= c -> c + N <= INT_MAX ->
  DeviceList_poll E dir dl ne d0 s
  = Ok ((0, Some ((c + N) mod N), set_last_poll_dev (c + N) dl),
        extend s (map (fun i => EvVisit i 0) (rotation c N (Z.to_nat N)))).
Proof.
  intros c N Hun HN Hc Hmax. rewrite DeviceList_poll_unfold.
  rewrite (poll_loop_idle E dir ne (Z.to_nat (num dl)) dl d0 0 s);
    fold c N; try assumption; try lia.
  replace (Z.of_nat (Z.to_nat N)) with N by lia. reflexivity.
Qed.

Lemma DeviceList_poll_uninitialized_witness :
  DeviceList_poll quiet_env Rx pair_list 10 None pair_state
  = Ok ((0, Some 0, set_last_poll_dev 2 pair_list),
        extend pair_state [EvVisit 1 0; EvVisit 0 0]).
Proof.
  apply (DeviceList_poll_uninitialized quiet_env Rx pair_list 10 None pair_state).
  - repeat constructor.
  - vm_compute. reflexivity.
  - vm_compute. discriminate.
  - vm_compute. discriminate.
Defined.

(** The loop changes nothing but the cursor, and adds to the trace only
    visits and polls of the direction's queues. *)
Lemma poll_loop_touches (E : Env) (dir : direction) (ne : Z) (count : nat) :
  forall (dl : DeviceList) (d : option Z) (n0 : Z) (s : State)
         (n : Z) (d' : option Z) (dl' : DeviceList) (s' : State),
    poll_loop (dev_poll E dir) ne count dl d n0 s = Ok ((n, d', dl'), s') ->
    devices dl' = devices dl /\ poll_fds dl' = poll_fds dl /\
    exists t, s' = extend s t /\ Forall (poll_event_ok dir dl ne) t /\
              (length (visits t) <= count)%nat.
Proof.
  induction count as [|count IH]; intros dl d n0 s n d' dl' s' H;
    cbn [poll_loop] in H.
  - cbv [ret] in H. inversion H; subst. split; [reflexivity|].
    split; [reflexivity|]. exists []. rewrite extend_nil.
    split; [reflexivity|]. split; [constructor | cbn; lia].
  - set (dl1 := set_last_poll_dev (int_wrap (last_poll_dev dl + 1)) dl) in H.
    set (idx := Z.rem (last_poll_dev dl1) (num dl1)) in H.
    destruct (device_at dl1 idx) as [dev|] eqn:Hat; [|discriminate H].
    assert (dev ∈ devices dl /\ 0 <= idx < num dl) as [Hin Hidx].
    { unfold device_at in Hat.
      destruct (Z.leb_spec 0 idx) as [H0|H0]; [|discriminate Hat].
      split; [eapply list_elem_of_lookup_2, Hat|].
      apply lookup_lt_Some in Hat. unfold num.
      cbn [devices dl1 set_last_poll_dev] in Hat. lia. }
    apply bind_inv in H as (n1 & s1 & Hp & H).
    apply bind_inv in H as (u & s2 & He & H).
    cbv [emit] in He. inversion He; subst s2; clear He.
    assert (exists t1, s1 = extend s t1 /\ Forall (poll_event_ok dir dl ne) t1 /\
                       visits t1 = []) as (t1 & -> & Hok1 & Hv1).
    { apply dev_poll_inv in Hp as [(_ & _ & ->)|(Hi & cq & Hcq & _ & ->)].
      - exists []. rewrite extend_nil.
        split; [reflexivity|]. split; [constructor | reflexivity].
      - exists [EvPollCq cq ne n1]. split; [reflexivity|]. split; [|reflexivity].
        constructor; [|constructor]. split; [reflexivity|]. now exists dev. }
    assert (poll_event_ok dir dl ne (EvVisit idx n1)) as Hokv by exact Hidx.
    rewrite log_extend, extend_extend in H.
    destruct (negb (n1 =? 0)).
    + cbv [ret] in H. inversion H; subst. split; [reflexivity|]. split; [reflexivity|].
      eexists. split; [reflexivity|]. split.
      * apply Forall_app. split; [exact Hok1 | now constructor].
      * rewrite visits_app, Hv1. cbn. lia.
    + apply IH in H as (Hd & Hf & t & -> & Hok & Hlen).
      split; [exact Hd|]. split; [exact Hf|].
      exists ((t1 ++ [EvVisit idx n1]) ++ t). rewrite extend_extend.
      split; [reflexivity|]. split.
      * apply Forall_app. split; [apply Forall_app; split; [exact Hok1 | now constructor]|].
        exact Hok.
      * rewrite !visits_app, Hv1. cbn. cbn in Hlen. lia.
Qed.

(** X7.  A call of [poll_tx] or [poll_rx] that returns leaves the devices,
    the descriptor array and the heap as they were; all it changes is the
    cursor.  To the trace it adds at most [N] visits, and polls only of the
    completion queue of its own direction of initialized devices of the
    list, each with the caller's [num_entries]: nothing is re-armed, drained
    or released. *)
Theorem DeviceList_poll_touches_only (E : Env) (dir : direction) (dl : DeviceList)
        (ne : Z) (d0 : option Z) (s : State)
        (n : Z) (d' : option Z) (dl' : DeviceList) (s' : State) :
  DeviceList_poll E dir dl ne d0 s = Ok ((n, d', dl'), s') ->
  devices dl' = devices dl /\ poll_fds dl' = poll_fds dl /\
  live s' = live s /\ next_handle s' = next_handle s /\
  exists t,
    trace s' = trace s ++ t /\
    Forall (poll_event_ok dir dl ne) t /\
    Z.of_nat (length (visits t)) <= num dl.
Proof.
  intros H. rewrite DeviceList_poll_unfold in H.
  apply poll_loop_touches in H as (Hd & Hf & t & -> & Hok & Hlen).
  split; [exact Hd|]. split; [exact Hf|]. split; [reflexivity|].
  split; [reflexivity|]. exists t. split; [reflexivity|].
  split; [exact Hok | unfold num in *; lia].
Qed.

Lemma DeviceList_poll_touches_only_witness :
  exists t,
    trace (state_of (DeviceList_poll failing_env Tx (polled_list 0) 16 None polled_state))
    = trace polled_state ++ t /\
    Forall (poll_event_ok Tx (polled_list 0) 16) t.
Proof.
  destruct (DeviceList_poll_touches_only failing_env Tx (polled_list 0) 16 None
              polled_state (-1) (Some 1) (polled_list 1)
              (state_of (DeviceList_poll failing_env Tx (polled_list 0) 16 None
                           polled_state)))
    as (_ & _ & _ & _ & t & Ht & Hok & _).
  - vm_compute. reflexivity.
  - exists t. split; [exact Ht | exact Hok].
Defined.

(** ** Re-arming all devices *)

Lemma rearm_cqs_run (E : Env) (d : Device) (s : State) (tq rq : handle) :
  initialized d = true ->
  tx_cq d = Some tq -> tq ∈ live s ->
  rx_cq d = Some rq -> rq ∈ live s ->
  let r1 := env_rearm_notify E (trace s) tq in
  let r2 := env_rearm_notify E (trace s ++ [EvRearmNotify tq r1]) rq in
  rearm_cqs E d s
  = if r1 =? 0
    then if r2 =? 0
         then Ok (tt, extend s [EvRearmNotify tq r1; EvRearmNotify rq r2])
         else Abort
    else Abort.
Proof.
  intros Hi Htq Hlt Hrq Hlr r1 r2.
  unfold rearm_cqs, rearm_notify. rewrite Hi. cbn [negb].
  unfold bind at 1.
  rewrite (bind_ok _ _ _ _ _ (deref_live _ _ _ Htq Hlt)).
  unfold call at 1. cbv zeta. fold r1.
  destruct (r1 =? 0); cbn [assert]; [|reflexivity].
  unfold bind at 1. cbn [ret]. unfold bind at 1.
  assert (rq ∈ live (log s (EvRearmNotify tq r1))) as Hlr' by exact Hlr.
  rewrite (bind_ok _ _ _ _ _ (deref_live _ _ _ Hrq Hlr')).
  unfold call. cbv zeta. cbn [trace log]. fold r2.
  destruct (r2 =? 0); cbn [assert]; [|reflexivity].
  cbv [ret]. unfold extend, log. cbn. now rewrite <- app_assoc.
Qed.

Lemma rearms_app (E : Env) (a b : list handle) :
  forall tr,
    rearms E tr (a ++ b) = rearms E tr a ++ rearms E (tr ++ rearms E tr a) b.
Proof.
  induction a as [|h a IH]; intros tr; cbn [app rearms].
  - now rewrite app_nil_r.
  - cbv zeta. rewrite IH. cbn [app]. now rewrite <- app_assoc.
Qed.

Lemma rearm_handles_cons (d : Device) (ds : list Device) :
  rearm_handles (d :: ds) = rearm_handles [d] ++ rearm_handles ds.
Proof.
  unfold rearm_handles, rearm_targets. cbn [flat_map].
  now rewrite app_nil_r, omap_app.
Qed.

(** Re-arms all of which answer 0 are one per queue, in order. *)
Lemma rearms_zero (E : Env) (hs : list handle) :
  forall tr,
    forallb (fun e => rearm_status e =? 0) (rearms E tr hs) = true ->
    omap rearmed_of (rearms E tr hs) = map (fun h => (Some h, 0)) hs /\
    length (rearms E tr hs) = length hs.
Proof.
  induction hs as [|h hs IH]; intros tr Hz; [now split|].
  cbn [rearms] in Hz |- *. cbv zeta in Hz |- *. cbn [forallb rearm_status] in Hz.
  apply andb_prop in Hz as [H0 Hz]. apply Z.eqb_eq in H0.
  destruct (IH _ Hz) as [Ho Hl]. split.
  - cbn [map]. rewrite <- Ho, H0. reflexivity.
  - cbn [length]. now rewrite Hl.
Qed.

(** Among re-arms that do not all answer 0 there is a first that does
    not. *)
Lemma rearms_first_failure (E : Env) (hs : list handle) :
  forall tr,
    forallb (fun e => rearm_status e =? 0) (rearms E tr hs) = false ->
    exists pre h rest,
      hs = pre ++ h :: rest /\
      Forall (fun e => rearm_status e = 0) (rearms E tr pre) /\
      env_rearm_notify E (tr ++ rearms E tr pre) h <> 0.
Proof.
  induction hs as [|h hs IH]; intros tr Hz; [discriminate Hz|].
  cbn [rearms] in Hz. cbv zeta in Hz. cbn [forallb rearm_status] in Hz.
  destruct (Z.eqb_spec (env_rearm_notify E tr h) 0) as [H0|H0].
  - cbn [andb] in Hz. apply IH in Hz as (pre & h' & rest & -> & Hpre & Hne).
    exists (h :: pre), h', rest. split; [reflexivity|].
    cbn [rearms]. cbv zeta. split.
    + constructor; [exact H0 | exact Hpre].
    + cbn [app]. now rewrite <- app_assoc in Hne.
  - exists [], h, hs. split; [reflexivity|]. cbn [rearms].
    split; [constructor | now rewrite app_nil_r].
Qed.

(** [rearm_notify] is decided by what the environment answers to the
    re-arms of the initialized devices' queues, taken in order. *)
Lemma DeviceList_rearm_notify_exact (E : Env) (ds : list Device) :
  forall s,
    devices_pollable s ds = true ->
    rearm_targets ds = map Some (rearm_handles ds) /\
    DeviceList_rearm_notify E ds s
    = if forallb (fun e => rearm_status e =? 0)
                 (rearms E (trace s) (rearm_handles ds))
      then Ok (tt, extend s (rearms E (trace s) (rearm_handles ds)))
      else Abort.
Proof.
  induction ds as [|d ds IH]; intros s Hp.
  - cbn. now rewrite extend_nil.
  - cbn [devices_pollable forallb] in Hp. apply andb_prop in Hp as [Hd Hds].
    rewrite rearm_handles_cons, rearms_app.
    change (rearm_targets (d :: ds))
      with ((if initialized d then [tx_cq d; rx_cq d] else []) ++ rearm_targets ds).
    cbn [DeviceList_rearm_notify]. unfold bind.
    unfold device_pollable in Hd.
    destruct (initialized d) eqn:Hi; cbn [negb orb] in Hd.
    + apply andb_prop in Hd as [Ht Hr].
      apply is_live_Some in Ht as (tq & Htq & Hlt).
      apply is_live_Some in Hr as (rq & Hrq & Hlr).
      assert (rearm_handles [d] = [tq; rq]) as Hhd.
      { unfold rearm_handles, rearm_targets. cbn [flat_map].
        now rewrite Hi, Htq, Hrq. }
      rewrite Hhd, (rearm_cqs_run E d s tq rq Hi Htq Hlt Hrq Hlr). cbv zeta.
      cbn [rearms]. cbv zeta.
      set (r1 := env_rearm_notify E (trace s) tq).
      set (r2 := env_rearm_notify E (trace s ++ [EvRearmNotify tq r1]) rq).
      set (t1 := [EvRearmNotify tq r1; EvRearmNotify rq r2]).
      destruct (IH (extend s t1) Hds) as [Htg Hrun].
      split; [rewrite Htq, Hrq, Htg; reflexivity|].
      rewrite forallb_app. subst t1. cbn [forallb rearm_status].
      destruct (r1 =? 0); [|reflexivity]. destruct (r2 =? 0); [|reflexivity].
      cbn [andb]. rewrite Hrun. cbn [trace extend]. clear Hds.
      destruct (forallb _ _); [|reflexivity].
      now rewrite extend_extend.
    + assert (rearm_handles [d] = []) as Hhd.
      { unfold rearm_handles, rearm_targets. cbn [flat_map]. now rewrite Hi. }
      rewrite Hhd. cbn [rearms app]. rewrite app_nil_r.
      unfold rearm_cqs. rewrite Hi. cbn [negb]. cbv [ret].
      apply (IH s Hds).
Qed.

(** X8.  [rearm_notify] on a list whose initialized devices have their
    completion queues is decided by the answers to the re-arms it makes.
    It takes the transmit and then the receive queue of every initialized
    device, in the order of the devices.  It aborts exactly when one of
    these re-arms reports a status other than 0, at the first that does,
    all re-arms before it having been made and having reported 0.
    Otherwise it returns after re-arming every one of the queues once, each
    with status 0.  Devices that are not initialized are passed over, and
    nothing else is called. *)
Theorem DeviceList_rearm_notify_all (E : Env) (ds : list Device) (s : State) :
  devices_pollable s ds = true ->
  let hs := rearm_handles ds in
  rearm_targets ds = map Some hs /\
  ((DeviceList_rearm_notify E ds s = Abort /\
    exists pre h rest,
      hs = pre ++ h :: rest /\
      Forall (fun e => rearm_status e = 0) (rearms E (trace s) pre) /\
      env_rearm_notify E (trace s ++ rearms E (trace s) pre) h <> 0) \/
   (Forall (fun e => rearm_status e = 0) (rearms E (trace s) hs) /\
    exists t,
      DeviceList_rearm_notify E ds s = Ok (tt, extend s t) /\
      t = rearms E (trace s) hs /\
      omap rearmed_of t = map (fun p => (p, 0)) (rearm_targets ds) /\
      length t = length (rearm_targets ds))).
Proof.
  intros Hp hs.
  destruct (DeviceList_rearm_notify_exact E ds s Hp) as [Htg Hrun].
  fold hs in Htg, Hrun. split; [exact Htg|]. rewrite Hrun.
  destruct (forallb (fun e => rearm_status e =? 0) (rearms E (trace s) hs))
    eqn:Hz.
  - right. split.
    { apply Forall_forall. intros e He. rewrite forallb_forall in Hz.
      apply Z.eqb_eq, Hz. now apply list_elem_of_In. }
    exists (rearms E (trace s) hs). split; [reflexivity|]. split; [reflexivity|].
    destruct (rearms_zero E hs (trace s) Hz) as [Ho Hl].
    rewrite Ho, Hl, Htg, map_map, length_map. split; reflexivity.
  - left. split; [reflexivity|]. now apply rearms_first_failure.
Qed.

Lemma DeviceList_rearm_notify_all_witness :
  exists t,
    DeviceList_rearm_notify quiet_env (devices (polled_list 0)) polled_state
    = Ok (tt, extend polled_state t) /\
    omap rearmed_of t
    = [(Some 5%nat, 0); (Some 6%nat, 0); (Some 7%nat, 0); (Some 8%nat, 0)].
Proof.
  destruct (DeviceList_rearm_notify_all quiet_env (devices (polled_list 0))
              polled_state) as (_ & [[Hab _]|(_ & t & Hrun & _ & Ho & _)]).
  - vm_compute. reflexivity.
  - exfalso. vm_compute in Hab. discriminate Hab.
  - exists t. split; [exact Hrun | exact Ho].
Defined.

(** ** The blocking wait ends when the flag is set *)

Lemma omap_length_le {A B} (f : A -> option B) (l : list A) :
  (length (omap f l) <= length l)%nat.
Proof.
  induction l as [|a l IH]; [cbn; lia|].
  change (omap f (a :: l))
    with (match f a with Some b => b :: omap f l | None => omap f l end).
  destruct (f a); cbn [length]; lia.
Qed.

(** A trace each event of which is a channel read records no [poll]. *)
Lemma drained_no_wait (t : list Event) :
  length (omap drained_of t) = length t ->
  omap wait_of t = [] /\ forall dl, Forall (wait_args_ok dl) t.
Proof.
  induction t as [|e t IH]; intros Hl.
  - split; [reflexivity | constructor].
  - pose proof (omap_length_le drained_of t) as Hle.
    destruct e;
      match type of Hl with
      | length (omap drained_of (EvGetCqEvent ?c ?x :: t)) = _ =>
          change (omap drained_of (EvGetCqEvent c x :: t))
            with (c :: omap drained_of t) in Hl
      | length (omap drained_of (?e :: t)) = _ =>
          change (omap drained_of (e :: t)) with (omap drained_of t) in Hl
      end;
      cbn [length] in Hl; try lia.
    destruct IH as [IH1 IH2]; [lia|].
    split; [exact IH1|]. intros dl. constructor; [exact I | apply IH2].
Qed.

(** The wait loop from the [k]-th test on, the flag being set at test
    [k + j] at the latest: with fuel for [j] calls of [poll] it aborts on a
    negative result or returns, all earlier results being zero. *)
Lemma wait_loop_bounded (E : Env) (done : nat -> bool) (dl : DeviceList) :
  forall (fuel k j : nat) (s : State),
    done (k + j)%nat = true -> (j <= fuel)%nat ->
    wait_loop E fuel done k dl 0 s = Abort \/
    exists r t (m : nat),
      wait_loop E fuel done k dl 0 s = Ok (r, extend s t) /\
      0 <= r /\
      forallb is_wait t = true /\
      Forall (wait_args_ok dl) t /\
      omap wait_of t = replicate m 0 ++ (if 0 <? r then [r] else []) /\
      (length t <= j)%nat.
Proof.
  assert (forall s, exists r t (m : nat),
             Ok (0, s) = Ok (r, extend s t) /\ 0 <= r /\
             forallb is_wait t = true /\ Forall (wait_args_ok dl) t /\
             omap wait_of t = replicate m 0 ++ (if 0 <? r then [r] else []) /\
             (length t <= 0)%nat) as Hstop.
  { intros s. exists 0, [], 0%nat. rewrite extend_nil.
    repeat split; try reflexivity; try lia. constructor. }
  induction fuel as [|fuel IH]; intros k j s Hdone Hj.
  - replace j with 0%nat in * by lia. rewrite Nat.add_0_r in Hdone.
    right. cbn [wait_loop]. rewrite Hdone. cbn [negb andb].
    destruct (Hstop s) as (r & t & m & H). exists r, t, m. exact H.
  - cbn [wait_loop]. destruct (done k) eqn:Hk; cbn [negb andb Z.eqb].
    + right. destruct (Hstop s) as (r & t & m & H1 & H2 & H3 & H4 & H5 & H6).
      exists r, t, m. repeat split; try assumption. lia.
    + destruct j as [|j]; [rewrite Nat.add_0_r in Hdone; congruence|].
      unfold bind, sys_poll, call. cbv zeta.
      set (fds := poll_fds dl). set (nfds := int_wrap (num dl * 2)).
      destruct (env_poll E (trace s) fds nfds 1) as [r1 err] eqn:Hpoll.
      cbn [fst snd].
      set (e := EvPoll fds nfds 1 r1 err).
      assert (wait_args_ok dl e) as Hargs by (subst e; now repeat split).
      destruct (Z.ltb_spec r1 0) as [Hneg|Hpos]; [now left|].
      destruct (Z.eq_dec r1 0) as [Hz|Hnz].
      * subst r1.
        destruct (IH (S k) j (log s e)) as [Hab|(r & t & m & Hrun & Hr & Hw & Ha & Ho & Hl)].
        -- rewrite <- Hdone. f_equal. lia.
        -- lia.
        -- now left.
        -- right. exists r, (e :: t), (S m).
           rewrite Hrun, log_extend, extend_extend.
           split; [reflexivity|]. split; [exact Hr|].
           split; [cbn; exact Hw|]. split; [constructor; assumption|].
           split; [change (omap wait_of (e :: t)) with (0 :: omap wait_of t);
                   rewrite Ho; reflexivity|].
           cbn [length]. lia.
      * right. exists r1, [e], 0%nat.
        assert (wait_loop E fuel done (S k) dl r1 (log s e) = Ok (r1, log s e)) as Hret.
        { destruct fuel; cbn [wait_loop];
            replace (r1 =? 0) with false by (symmetry; apply Z.eqb_neq; exact Hnz);
            rewrite andb_false_r; reflexivity. }
        rewrite Hret, log_extend.
        split; [reflexivity|]. split; [lia|]. split; [reflexivity|].
        split; [constructor; [exact Hargs | constructor]|].
        split.
        { subst e. cbn. replace (0 <? r1) with true by (symmetry; apply Z.ltb_lt; lia).
          reflexivity. }
        cbn [length]. lia.
Qed.

(** A wait loop that aborts has had [poll] answer a negative result, after
    calls that answered 0 with the flag not set. *)
Lemma wait_loop_abort_inv (E : Env) (done : nat -> bool) (dl : DeviceList) :
  forall (fuel k : nat) (s : State),
    wait_loop E fuel done k dl 0 s = Abort ->
    exists (m : nat) r err,
      (m < fuel)%nat /\
      (forall i, (i <= m)%nat -> done (k + i)%nat = false) /\
      Forall (fun e => wait_of e = Some 0) (waits E dl (trace s) m) /\
      env_poll E (trace s ++ waits E dl (trace s) m)
               (poll_fds dl) (int_wrap (num dl * 2)) 1 = (r, err) /\
      r < 0.
Proof.
  induction fuel as [|fuel IH]; intros k s H.
  - cbn [wait_loop] in H. destruct (negb (done k) && (0 =? 0)); discriminate H.
  - destruct (done k) eqn:Hk.
    { rewrite (wait_loop_done E done dl (S fuel) k s Hk) in H. discriminate H. }
    destruct (env_poll E (trace s) (poll_fds dl) (int_wrap (num dl * 2)) 1)
      as [r1 err1] eqn:Hp.
    rewrite (wait_loop_ready E done dl fuel k s r1 err1 Hk Hp) in H.
    destruct (Z.ltb_spec r1 0) as [Hneg|Hpos].
    + exists 0%nat, r1, err1. cbn [waits]. rewrite app_nil_r.
      split; [lia|]. split.
      { intros i Hi. replace i with 0%nat by lia. now rewrite Nat.add_0_r. }
      split; [constructor|]. split; [exact Hp | exact Hneg].
    + destruct (Z.eqb_spec r1 0) as [->|Hnz]; [|discriminate H].
      apply IH in H as (m & r & err & Hm & Hdone & Hzero & Hpoll & Hr).
      cbn [trace log] in Hzero, Hpoll.
      exists (S m), r, err. split; [lia|]. split.
      { intros [|i] Hi; [now rewrite Nat.add_0_r|].
        replace (k + S i)%nat with (S k + i)%nat by lia. apply Hdone. lia. }
      cbn [waits]. cbv zeta. rewrite Hp. cbn [fst snd].
      split; [constructor; [reflexivity | exact Hzero]|].
      split; [|exact Hr].
      rewrite <- Hpoll. f_equal. now rewrite <- app_assoc.
Qed.

(** X9.  [poll_blocking] ends once the caller's flag is set: if the flag is
    set when the loop tests it for the [j+1]-th time, the call makes at most
    [j] calls of [poll], each on the list's descriptor array with a timeout
    of 1, and either aborts or returns a result [r >= 0].  It aborts only
    when a call of [poll] returned a negative value, after fewer than [j]
    calls that all returned 0.  When it returns, all calls of [poll] but the
    last returned 0; with [r = 0] every one did and no channel was read. *)
Theorem poll_blocking_cancellable (E : Env) (fuel : nat) (done : nat -> bool)
        (dl : DeviceList) (s : State) (j : nat) :
  done j = true -> (j <= fuel)%nat ->
  channels_live s (devices dl) = true ->
  (poll_blocking E fuel done dl s = Abort /\
   exists (m : nat) r err,
     (m < j)%nat /\
     Forall (fun e => wait_of e = Some 0) (waits E dl (trace s) m) /\
     env_poll E (trace s ++ waits E dl (trace s) m)
              (poll_fds dl) (int_wrap (num dl * 2)) 1 = (r, err) /\
     r < 0) \/
  exists r t (m : nat),
    poll_blocking E fuel done dl s = Ok (r, extend s t) /\
    0 <= r /\
    Forall (wait_args_ok dl) t /\
    omap wait_of t = replicate m 0 ++ (if 0 <? r then [r] else []) /\
    (length (omap wait_of t) <= j)%nat /\
    (r = 0 -> forallb is_wait t = true).
Proof.
  intros Hdone Hj Hlive. unfold poll_blocking, bind.
  destruct (wait_loop_bounded E done dl fuel 0 j s Hdone Hj)
    as [Hab|(r & t & m & Hrun & Hr & Hw & Ha & Ho & Hl)].
  - left. rewrite Hab. split; [reflexivity|].
    apply wait_loop_abort_inv in Hab as (m & r & err & _ & Hnot & Hzero & Hp & Hr).
    exists m, r, err. split; [|repeat split; assumption].
    destruct (Nat.lt_ge_cases m j) as [Hlt|Hge]; [exact Hlt|].
    specialize (Hnot j Hge). cbn [Nat.add] in Hnot. congruence.
  - rewrite Hrun. destruct (Z.leb_spec r 0) as [H0|H0].
    + right. exists r, t, m. cbv [ret].
      split; [reflexivity|]. split; [exact Hr|]. split; [exact Ha|].
      split; [exact Ho|]. split; [|intros _; exact Hw].
      pose proof (omap_length_le wait_of t) as Hlen. lia.
    + destruct (drain_events_run E (devices dl) (extend s t) Hlive)
        as (t2 & Hrun2 & Hch & Hlen2).
      right. exists r, (t ++ t2), m. rewrite Hrun2, extend_extend.
      assert (length (omap drained_of t2) = length t2) as Hl2.
      { apply (f_equal (@length _)) in Hch. rewrite length_map in Hch.
        rewrite Hch, Hlen2. unfold channels_of. clear.
        induction (devices dl) as [|d ds IH]; [reflexivity|].
        cbn [flat_map app length]. lia. }
      destruct (drained_no_wait t2 Hl2) as [Hnone Hargs2].
      split; [reflexivity|]. split; [exact Hr|].
      split; [apply Forall_app; split; [exact Ha | apply Hargs2]|].
      split; [rewrite omap_app, Hnone, app_nil_r; exact Ho|].
      split; [|lia].
      rewrite omap_app, Hnone, app_nil_r.
      pose proof (omap_length_le wait_of t) as Hlen. lia.
Qed.

Lemma poll_blocking_cancellable_witness :
  exists r t (m : nat),
    poll_blocking idle_env 5 done_at_2 pair_list pair_state
    = Ok (r, extend pair_state t) /\
    0 <= r /\
    Forall (wait_args_ok pair_list) t /\
    omap wait_of t = replicate m 0 ++ (if 0 <? r then [r] else []) /\
    (length (omap wait_of t) <= 2)%nat.
Proof.
  destruct (poll_blocking_cancellable idle_env 5 done_at_2 pair_list
              pair_state 2) as [[Hab _]|(r & t & m & Hrun & Hr & Ha & Ho & Hl & _)].
  - reflexivity.
  - lia.
  - vm_compute. reflexivity.
  - exfalso. vm_compute in Hab. discriminate Hab.
  - exists r, t, m. repeat (split; [assumption|]). exact Hl.
Defined.

(** ** A device after uninit() *)

Lemma deref_dead p s : is_live s p = false -> deref p s = Undefined.
Proof.
  unfold is_live, deref. destruct p as [h|]; [|reflexivity].
  intros H. now rewrite H.
Qed.

(** Reading the events of a list one device of which has a deleted (or
    NULL) channel is a use of that channel. *)
Lemma drain_events_dead (E : Env) (ds : list Device) :
  forall s,
    Exists (fun d => is_live s (tx_cc d) = false \/ is_live s (rx_cc d) = false) ds ->
    drain_events E ds s = Undefined.
Proof.
  induction ds as [|d ds IH]; intros s Hex; [inversion Hex|].
  cbn [drain_events]. unfold get_cq_event. unfold bind at 1 2.
  destruct (is_live s (tx_cc d)) eqn:Ht; [|now rewrite (deref_dead _ _ Ht)].
  apply is_live_Some in Ht as (tc & Htc & Hlt).
  rewrite (deref_live _ _ _ Htc Hlt). unfold call at 1. cbv zeta.
  set (e1 := EvGetCqEvent tc _). unfold bind at 1 2.
  destruct (is_live (log s e1) (rx_cc d)) eqn:Hr; [|now rewrite (deref_dead _ _ Hr)].
  apply is_live_Some in Hr as (rc & Hrc & Hlr).
  rewrite (deref_live _ _ _ Hrc Hlr). unfold call at 1. cbv zeta.
  set (e2 := EvGetCqEvent rc _).
  apply IH. inversion Hex as [? ? Hd|? ? Hrest]; subst.
  - exfalso. destruct Hd as [Hd|Hd].
    + rewrite Htc in Hd. cbn in Hd. rewrite bool_decide_eq_false in Hd. contradiction.
    + rewrite Hrc in Hd. cbn in Hd. rewrite bool_decide_eq_false in Hd. contradiction.
  - exact Hrest.
Qed.

(** X10.  After a [uninit()] that ran, the polls of the device return 0 and
    [rearm_cqs] returns without touching the deleted completion queues, and
    a further [uninit()] does nothing.  [poll_blocking] does not test the
    flag: on a list that holds the device, as soon as [poll] reports a
    ready descriptor the call reads the completion channels that
    [uninit()] deleted. *)
Theorem Device_uninit_then_use (E : Env) (d : Device) (s : State)
        (d1 : Device) (s1 : State) :
  initialized d = true ->
  Device_uninit d s = Ok (d1, s1) ->
  (forall n, poll_tx_cq E d1 n s1 = Ok (0, s1) /\
             poll_rx_cq E d1 n s1 = Ok (0, s1)) /\
  rearm_cqs E d1 s1 = Ok (tt, s1) /\
  Device_uninit d1 s1 = Ok (d1, s1) /\
  forall fuel done dl r s2,
    d1 ∈ devices dl ->
    wait_loop E fuel done 0 dl 0 s1 = Ok (r, s2) -> 0 < r ->
    poll_blocking E fuel done dl s1 = Undefined.
Proof.
  intros Hi Hun.
  destruct (Device_uninit_releases d s d1 s1 Hi Hun) as (-> & Hnone & _).
  split; [|split; [|split]].
  - intros n. unfold poll_tx_cq, poll_rx_cq. cbn. split; reflexivity.
  - reflexivity.
  - reflexivity.
  - intros fuel done dl r s2 Hin Hw Hr.
    unfold poll_blocking, bind. rewrite Hw.
    destruct (Z.leb_spec r 0) as [H0|_]; [lia|].
    apply wait_loop_trace in Hw as (t & -> & _).
    fold (bind (drain_events E (devices dl)) (fun _ => ret r) (extend s1 t)).
    unfold bind. rewrite drain_events_dead; [reflexivity|].
    apply Exists_exists. exists (set_initialized false d). split; [exact Hin|].
    left. unfold none_live, resources in Hnone. cbn [forallb] in Hnone.
    repeat (apply andb_prop in Hnone as [? Hnone]).
    match goal with
    | H : negb (is_live s1 (tx_cc _)) = true |- _ =>
        apply negb_true_iff in H; exact H
    end.
Qed.

Lemma Device_uninit_then_use_witness :
  poll_tx_cq quiet_env torn_device 16 torn_state = Ok (0, torn_state) /\
  poll_blocking quiet_env 3 never_done
    (mk_device_list [torn_device] 0 []) torn_state = Undefined.
Proof.
  destruct (Device_uninit_then_use quiet_env ready_device ready_state
              torn_device torn_state) as (Hp & _ & _ & Hb).
  - reflexivity.
  - vm_compute. reflexivity.
  - split; [apply Hp|].
    apply (Hb 3%nat never_done (mk_device_list [torn_device] 0 []) 1
              (log torn_state (EvPoll [] 2 1 1 0))).
    + apply list_elem_of_here.
    + vm_compute. reflexivity.
    + lia.
Defined.

(** ** The destructor *)

(** What a [delete] that returns has done to the heap. *)
Lemma delete_exact p s u s' :
  delete p s = Ok (u, s') ->
  (p = NULL \/ is_live s p = true) /\
  next_handle s' = next_handle s /\
  forall h, h ∈ live s' <-> h ∈ live s /\ Some h <> p.
Proof.
  unfold delete. destruct p as [h0|].
  - case_bool_decide as Hl; [|discriminate]. intros Heq. inversion Heq; subst.
    cbn. split; [right; now rewrite bool_decide_eq_true|].
    split; [reflexivity|]. intros h. rewrite elem_of_difference, elem_of_singleton.
    split; intros [H1 H2]; (split; [exact H1|]); congruence.
  - intros Heq. inversion Heq; subst. split; [now left|].
    split; [reflexivity|]. intros h. split; [intros H; split; [exact H | discriminate]|].
    now intros [H _].
Qed.

Lemma ask_inv {A} (f : list Event -> A) s a s' :
  ask f s = Ok (a, s') -> a = f (trace s) /\ s' = s.
Proof. cbv [ask]. intros H. now inversion H. Qed.

(** X11.  A destructor that returns has found the shared receive queue
    alive, has had [ibv_destroy_srq] (and, with a bound port,
    [ibv_close_device]) answer 0, and has released the shared receive
    queue, the memory manager, the protection domain and the bound port,
    nothing else: completion queues and completion channels that were alive
    are alive afterwards. *)
Theorem Device_dtor_releases (destroy_srq : list Event -> handle -> Z)
        (close_device : list Event -> Z) (d : Device) (b : Binding)
        (s s' : State) :
  Device_dtor destroy_srq close_device d b s = Ok (tt, s') ->
  (exists q, srq d = Some q /\ q ∈ live s /\ destroy_srq (trace s) q = 0) /\
  (has_port b = true -> close_device (trace s') = 0) /\
  next_handle s' = next_handle s /\
  (forall h, h ∈ live s' <-> h ∈ live s /\ Some h ∉ dtor_released d b) /\
  (forall p, p ∈ [tx_cq d; rx_cq d; tx_cc d; rx_cc d] ->
             p ∉ dtor_released d b ->
             is_live s p = true -> is_live s' p = true).
Proof.
  intros H. unfold Device_dtor in H.
  apply bind_inv in H as (q & s0 & Hd & H).
  apply deref_inv in Hd as (Hq & Hlq & ->).
  apply bind_inv in H as (r & s0 & Ha & H).
  apply ask_inv in Ha as (-> & ->).
  apply bind_inv in H as (? & s0 & Ha & H).
  apply assert_inv in Ha as (Hr & ->). apply Z.eqb_eq in Hr.
  apply bind_inv in H as (? & s1 & D1 & H).
  apply delete_exact in D1 as (_ & N1 & L1).
  apply bind_inv in H as (? & s2 & D2 & H).
  apply delete_exact in D2 as (_ & N2 & L2).
  apply bind_inv in H as (? & s3 & D3 & H).
  apply delete_exact in D3 as (_ & N3 & L3).
  assert ((has_port b = true -> close_device (trace s') = 0) /\
          next_handle s' = next_handle s3 /\
          forall h, h ∈ live s' <-> h ∈ live s3 /\ Some h <> port_ptr b)
    as (Hclose & N4 & L4).
  { unfold has_port, port_ptr. destruct (active_port b) as [po|].
    - apply bind_inv in H as (? & s4 & D4 & H).
      apply delete_exact in D4 as (_ & N4 & L4).
      apply bind_inv in H as (r' & s5 & Ha & H).
      apply ask_inv in Ha as (-> & ->).
      apply assert_inv in H as (Hr' & ->). apply Z.eqb_eq in Hr'.
      split; [intros _; exact Hr'|]. split; [exact N4 | exact L4].
    - cbv [ret] in H. inversion H; subst s'.
      split; [discriminate|]. split; [reflexivity|].
      intros h. split; [intros Hh; split; [exact Hh | discriminate]|].
      now intros [Hh _]. }
  assert (forall h, h ∈ live s' <-> h ∈ live s /\ Some h ∉ dtor_released d b)
    as Hlive.
  { intros h. rewrite L4, L3, L2, L1. unfold dtor_released.
    rewrite !not_elem_of_cons. split.
    - intros ((((Hh & H1) & H2) & H3) & H4).
      split; [exact Hh|]. repeat (split; [assumption|]). apply not_elem_of_nil.
    - intros (Hh & H1 & H2 & H3 & H4 & _). repeat split; assumption. }
  split; [exists q; repeat split; assumption|].
  split; [exact Hclose|]. split; [congruence|]. split; [exact Hlive|].
  intros p _ Hnot Hp. apply is_live_Some in Hp as (h & -> & Hl).
  apply is_live_Some. exists h. split; [reflexivity|].
  apply Hlive. split; assumption.
Qed.

Lemma Device_dtor_releases_witness :
  exists s',
    Device_dtor (fun _ _ => 0) (fun _ => 0) ready_device (mk_binding 1 None)
                ready_state = Ok (tt, s') /\
    next_handle s' = next_handle ready_state /\
    is_live s' (srq ready_device) = false /\
    is_live s' (tx_cq ready_device) = true /\
    is_live s' (rx_cc ready_device) = true.
Proof.
  set (run := Device_dtor (fun _ _ => 0) (fun _ => 0) ready_device
                          (mk_binding 1 None) ready_state).
  assert (run = Ok (tt, state_of run)) as Hrun by (vm_compute; reflexivity).
  destruct (Device_dtor_releases (fun _ _ => 0) (fun _ => 0) ready_device
              (mk_binding 1 None) ready_state (state_of run) Hrun)
    as (_ & _ & N & L & Hkeep).
  exists (state_of run). split; [exact Hrun|]. split; [exact N|].
  split; [|split].
  - apply not_true_is_false. intros Hl.
    apply is_live_Some in Hl as (h & Hh & Hl). apply L in Hl as [_ Hn].
    apply Hn. rewrite <- Hh. apply list_elem_of_here.
  - apply Hkeep.
    + apply list_elem_of_here.
    + apply (bool_decide_unpack _). vm_compute. exact I.
    + vm_compute. reflexivity.
  - apply Hkeep.
    + do 3 apply list_elem_of_further. apply list_elem_of_here.
    + apply (bool_decide_unpack _). vm_compute. exact I.
    + vm_compute. reflexivity.
Defined.

(** X12.  [uninit()] leaves the pointers to what it deleted in place, and
    the destructor does not test the flag: the destructor of a device after
    a [uninit()] that ran passes the deleted shared receive queue to
    [ibv_destroy_srq], whatever the library would answer. *)
Theorem Device_dtor_after_uninit (destroy_srq : list Event -> handle -> Z)
        (close_device : list Event -> Z) (d : Device) (b : Binding)
        (s : State) (d1 : Device) (s1 : State) :
  initialized d = true ->
  Device_uninit d s = Ok (d1, s1) ->
  srq d1 = srq d /\ memory_manager d1 = memory_manager d /\ pd d1 = pd d /\
  Device_dtor destroy_srq close_device d1 b s1 = Undefined.
Proof.
  intros Hi Hun.
  destruct (Device_uninit_releases d s d1 s1 Hi Hun) as (-> & Hnone & _).
  repeat (split; [reflexivity|]).
  unfold none_live, resources in Hnone. cbn [forallb] in Hnone.
  apply andb_prop in Hnone as [_ Hnone].
  apply andb_prop in Hnone as [_ Hnone].
  apply andb_prop in Hnone as [Hq _]. apply negb_true_iff in Hq.
  unfold Device_dtor. unfold bind at 1. now rewrite (deref_dead _ _ Hq).
Qed.

Lemma Device_dtor_after_uninit_witness :
  srq torn_device = srq ready_device /\
  Device_dtor (fun _ _ => 0) (fun _ => 0) torn_device (mk_binding 1 None)
              torn_state = Undefined.
Proof.
  destruct (Device_dtor_after_uninit (fun _ _ => 0) (fun _ => 0) ready_device
              (mk_binding 1 None) ready_state torn_device torn_state)
    as (Hq & _ & _ & Hu).
  - reflexivity.
  - vm_compute. reflexivity.
  - split; [exact Hq | exact Hu].
Defined.

(** ** What init() creates *)

Lemma same_heap_ret {A} (a : A) : same_heap (ret a).
Proof. intros s b s' H. cbv [ret] in H. now inversion H. Qed.

Lemma same_heap_abort {A} : same_heap (@ceph_abort A).
Proof. intros s b s' H. discriminate H. Qed.

Lemma same_heap_bind {A B} (m : M A) (k : A -> M B) :
  same_heap m -> (forall a, same_heap (k a)) -> same_heap (bind m k).
Proof.
  intros Hm Hk s b s'' H. apply bind_inv in H as (a & s' & H1 & H2).
  destruct (Hm _ _ _ H1) as [L1 N1]. destruct (Hk a _ _ _ H2) as [L2 N2].
  split; congruence.
Qed.

Lemma same_heap_call {A} (f : list Event -> A) ev : same_heap (call f ev).
Proof. intros s a s' H. cbv [call] in H. now inversion H. Qed.

Lemma same_heap_assert b : same_heap (assert b).
Proof. destruct b; [apply same_heap_ret | apply same_heap_abort]. Qed.

Lemma same_heap_deref p : same_heap (deref p).
Proof. intros s a s' H. now apply deref_inv in H as (_ & _ & ->). Qed.

Lemma same_heap_emit e : same_heap (emit e).
Proof. intros s a s' H. cbv [emit] in H. now inversion H. Qed.

Lemma same_heap_post_chunks E d chunks : same_heap (post_chunks E d chunks).
Proof.
  induction chunks as [|c cs IH]; cbn [post_chunks]; [apply same_heap_ret|].
  apply same_heap_bind.
  - unfold post_chunk, ibv_post_srq_recv. apply same_heap_bind.
    + apply same_heap_bind; [apply same_heap_deref|].
      intros h. apply same_heap_call.
    + intros [r err]. destruct (negb (r =? 0)); apply same_heap_ret.
  - intros r. apply same_heap_bind; [apply same_heap_assert | intros _; exact IH].
Qed.

Lemma same_heap_post_channel_cluster E d : same_heap (post_channel_cluster E d).
Proof.
  unfold post_channel_cluster, get_channel_buffers. apply same_heap_bind.
  - apply same_heap_bind; [apply same_heap_deref | intros h; apply same_heap_call].
  - intros [r chunks]. apply same_heap_bind; [apply same_heap_assert|].
    intros _. apply same_heap_bind; [apply same_heap_post_chunks|].
    intros _. apply same_heap_ret.
Qed.

Lemma new_object_exact h s s' :
  new_object s = Ok (h, s') ->
  h = next_handle s /\ next_handle s' = S (next_handle s) /\
  live s' = {[next_handle s]} ∪ live s.
Proof. intros H. cbv [new_object] in H. inversion H; subst. now cbn. Qed.

Lemma create_comp_queue_exact E cc q s s' :
  create_comp_queue E cc s = Ok (q, s') ->
  is_null q = false ->
  q = Some (next_handle s) /\ next_handle s' = S (next_handle s) /\
  live s' = {[next_handle s]} ∪ live s.
Proof.
  unfold create_comp_queue. intros H Hq.
  apply bind_inv in H as (cq & s1 & Hn & H).
  apply new_object_exact in Hn as (-> & N1 & L1).
  apply bind_inv in H as (r & s2 & Hc & H).
  destruct (same_heap_call _ _ _ _ _ Hc) as [L2 N2].
  destruct (negb _).
  - apply bind_inv in H as (? & s3 & _ & H). cbv [ret] in H.
    inversion H; subst. discriminate Hq.
  - cbv [ret] in H. inversion H; subst. split; [reflexivity|].
    split; congruence.
Qed.

(** What an [init()] that ran has created: five objects, in the order
    protection domain, memory manager, shared receive queue, transmit and
    receive completion queue, and nothing else. *)
Lemma Device_init_heap (E : Env) (conf : Config) (d : Device) (s : State)
      (d' : Device) (s' : State) :
  nonempty_buffers E ->
  initialized d = false ->
  Device_init E conf d s = Ok (d', s') ->
  let n := next_handle s in
  pd d' = Some n /\ memory_manager d' = Some (1 + n)%nat /\
  srq d' = Some (2 + n)%nat /\
  tx_cq d' = Some (3 + n)%nat /\ rx_cq d' = Some (4 + n)%nat /\
  tx_cc d' = tx_cc d /\ rx_cc d' = rx_cc d /\
  initialized d' = true /\
  next_handle s' = (5 + n)%nat /\
  forall h, h ∈ live s' <-> h ∈ live s \/ (n <= h < 5 + n)%nat.
Proof.
  intros Hne Hi H n. unfold Device_init in H. rewrite Hi in H.
  apply bind_inv in H as (a & s1 & Hq & H).
  destruct (same_heap_call _ _ _ _ _ Hq) as [L1 N1]. destruct a as [r attr].
  destruct (r =? -1); [discriminate|].
  apply bind_inv in H as (p & s2 & Hn & H).
  apply new_object_exact in Hn as (-> & N2 & L2).
  apply bind_inv in H as (r0 & s3 & Hs & H).
  destruct (same_heap_call _ _ _ _ _ Hs) as [L3 N3].
  apply bind_inv in H as (? & s4 & Ha & H). apply assert_inv in Ha as (_ & ->).
  apply bind_inv in H as (mm & s5 & Hn & H).
  apply new_object_exact in Hn as (-> & N5 & L5).
  apply bind_inv in H as (? & s6 & Hr & H).
  assert (live s6 = live s5 /\ next_handle s6 = next_handle s5) as [L6 N6].
  { unfold register_rx_tx in Hr. revert Hr.
    apply (same_heap_bind (deref _) (fun h => emit _));
      [apply same_heap_deref | intros h; apply same_heap_emit]. }
  apply bind_inv in H as (q & s7 & Hc & H).
  apply bind_inv in H as (v & s8 & Hp & H).
  pose proof (post_channel_cluster_srq_live _ _ _ _ _ Hne Hp) as Lq.
  destruct (same_heap_post_channel_cluster _ _ _ _ _ Hp) as [L8 N8].
  cbn [srq set_srq] in Lq.
  assert (q = Some (next_handle s6) /\ next_handle s7 = S (next_handle s6) /\
          live s7 = {[next_handle s6]} ∪ live s6) as (-> & N7 & L7).
  { unfold create_shared_receive_queue in Hc.
    apply bind_inv in Hc as (pdh & s6' & Hd & Hc).
    apply deref_inv in Hd as (_ & _ & ->).
    unfold ibv_create_srq in Hc.
    destruct (env_create_srq _ _ _ _ _); inversion Hc; subst q s7; clear Hc.
    - now cbn.
    - discriminate Lq. }
  apply bind_inv in H as (cq & s9 & Hc1 & H).
  apply bind_inv in H as (? & s10 & Ha & H). apply assert_inv in Ha as (Hn1 & ->).
  cbn [tx_cq set_tx_cq] in Hn1. apply negb_true_iff in Hn1.
  apply create_comp_queue_exact in Hc1 as (-> & N9 & L9); [|exact Hn1].
  apply bind_inv in H as (cq' & s11 & Hc2 & H).
  apply bind_inv in H as (? & s12 & Ha & H). apply assert_inv in Ha as (Hn2 & ->).
  cbn [rx_cq set_rx_cq] in Hn2. apply negb_true_iff in Hn2.
  pose proof Hc2 as Hc2'.
  apply create_comp_queue_exact in Hc2 as (-> & N11 & L11); [|exact Hn2].
  cbv [ret] in H. inversion H; subst d' s'; clear H.
  cbn [pd memory_manager srq tx_cq rx_cq tx_cc rx_cc initialized
       set_initialized set_rx_cq set_tx_cq set_srq set_memory_manager
       set_max_send_wr set_max_recv_wr set_pd set_device_attr].
  assert (next_handle s1 = n) as E1 by exact N1.
  assert (next_handle s3 = (1 + n)%nat) as E3 by (rewrite N3, N2, E1; reflexivity).
  assert (next_handle s6 = (2 + n)%nat) as E6 by (rewrite N6, N5, E3; reflexivity).
  assert (next_handle s8 = (3 + n)%nat) as E8 by (rewrite N8, N7, E6; reflexivity).
  assert (next_handle s9 = (4 + n)%nat) as E9 by (rewrite N9, E8; reflexivity).
  rewrite E1, E3, E6, E8, E9.
  split; [reflexivity|]. split; [reflexivity|].
  split; [reflexivity|]. split; [reflexivity|]. split; [reflexivity|].
  split; [reflexivity|]. split; [reflexivity|].
  assert (forall h, h ∈ live s11 <-> h ∈ live s \/ (n <= h < 5 + n)%nat) as Hlive.
  { intros h. rewrite L11, L9, L8, L7, L6, L5, L3, L2, L1.
    rewrite E9, E8, E6, E3, E1.
    rewrite !elem_of_union, !elem_of_singleton. intuition lia. }
  split; [reflexivity|]. split; [rewrite N11, E9; reflexivity | exact Hlive].
Qed.

(** X13.  What [init()] creates.  On a constructed device (two different
    completion channels, alive) an [init()] that returns has created
    exactly five objects, all new, and deleted nothing: what is alive
    afterwards is what was alive before and the five.  The seven resources
    of the device are then alive and pairwise different objects, and the
    handles in use are still below the next one. *)
Theorem Device_init_creates_five (E : Env) (conf : Config) (d : Device)
        (s : State) (d' : Device) (s' : State) :
  nonempty_buffers E ->
  heap_wf s ->
  initialized d = false ->
  is_live s (tx_cc d) = true -> is_live s (rx_cc d) = true ->
  tx_cc d <> rx_cc d ->
  Device_init E conf d s = Ok (d', s') ->
  (forall h, h ∈ live s' <->
             h ∈ live s \/ (next_handle s <= h < 5 + next_handle s)%nat) /\
  next_handle s' = (5 + next_handle s)%nat /\
  heap_wf s' /\
  (forall p, p ∈ [pd d'; memory_manager d'; srq d'; tx_cq d'; rx_cq d'] ->
             exists h, p = Some h /\ (h ∉ live s) /\ h ∈ live s') /\
  tx_cc d' = tx_cc d /\ rx_cc d' = rx_cc d /\
  NoDup (resources d') /\
  all_live s' (resources d') = true.
Proof.
  intros Hne Hwf Hi Ltc Lrc Hdiff Hin.
  destruct (Device_init_heap E conf d s d' s' Hne Hi Hin)
    as (Hp & Hm & Hq & Htq & Hrq & Htc & Hrc & Hi' & Hnext & Hlive).
  apply is_live_Some in Ltc as (tc & Htc0 & Ltc).
  apply is_live_Some in Lrc as (rc & Hrc0 & Lrc).
  pose proof (Hwf _ Ltc) as Btc. pose proof (Hwf _ Lrc) as Brc.
  set (n := next_handle s) in *.
  assert (tc <> rc) as Hne2 by congruence.
  assert (resources d'
          = [Some n; Some (1 + n)%nat; Some (2 + n)%nat; Some (3 + n)%nat;
             Some tc; Some (4 + n)%nat; Some rc]) as Hres.
  { unfold resources. now rewrite Hp, Hm, Hq, Htq, Hrq, Htc, Hrc, Htc0, Hrc0. }
  split; [exact Hlive|]. split; [exact Hnext|]. split.
  { intros h Hh. rewrite Hnext. apply Hlive in Hh as [Hh|Hh]; [|lia].
    specialize (Hwf _ Hh). fold n in Hwf. lia. }
  split.
  { intros p Hp'. rewrite Hp, Hm, Hq, Htq, Hrq in Hp'.
    assert (forall h, (n <= h < 5 + n)%nat -> (h ∉ live s) /\ h ∈ live s') as Hnew.
    { intros h Hh. split.
      - intros Hl. specialize (Hwf _ Hl). fold n in Hwf. lia.
      - apply Hlive. now right. }
    repeat (apply elem_of_cons in Hp' as [->|Hp'];
            [eexists; split; [reflexivity | apply Hnew; lia]|]).
    inversion Hp'. }
  split; [exact Htc|]. split; [exact Hrc|]. split.
  { rewrite Hres.
    repeat (apply NoDup_cons; split;
            [rewrite ?not_elem_of_cons;
             repeat split; try apply not_elem_of_nil;
             intros Heq; inversion Heq; lia|]).
    apply NoDup_nil_2. }
  rewrite Hres. unfold all_live. cbn [forallb is_live].
  rewrite !andb_true_iff, !bool_decide_eq_true, !Hlive.
  repeat split; try (right; lia); now left.
Qed.

Lemma Device_init_creates_five_witness :
  next_handle ready_state = 7%nat /\
  NoDup (resources ready_device) /\
  all_live ready_state (resources ready_device) = true /\
  forall h, h ∈ live ready_state <->
            h ∈ live fresh_state \/ (2 <= h < 7)%nat.
Proof.
  destruct (Device_init_creates_five quiet_env example_conf fresh_device
              fresh_state ready_device ready_state)
    as (L & N & _ & _ & _ & _ & Hnd & Hall).
  - intros t h b _. vm_compute. discriminate.
  - intros h Hh. vm_compute.
    apply elem_of_elements in Hh. vm_compute in Hh.
    repeat (apply elem_of_cons in Hh as [->|Hh]; [lia|]). inversion Hh.
  - reflexivity.
  - vm_compute. reflexivity.
  - vm_compute. reflexivity.
  - vm_compute. discriminate.
  - vm_compute. reflexivity.
  - split; [exact N|]. split; [exact Hnd|]. split; [exact Hall | exact L].
Defined.

(** ** Binding a port *)

Section BindingProofs.
Variable port_ctor : port_hw -> Z -> outcome Port.
Variable hw_ports : Z -> port_link.

(** One turn of the loop that does not bind: the Port is created and
    deleted again. *)
Lemma binding_loop_skip (count : nat) (i port_num : Z) (b : Binding) (s : State)
      (p : Port) :
  heap_wf s ->
  port_ctor (link_hw (hw_ports (i + 1))) (i + 1) = Ok p ->
  (i + 1 =? port_num) && (link_state (hw_ports (i + 1)) =? IBV_PORT_ACTIVE) = false ->
  let h := next_handle s in
  binding_loop port_ctor hw_ports (S count) i port_num b s
  = binding_loop port_ctor hw_ports count (i + 1) port_num b
      (mk_state (trace s ++ [EvNew h; EvDelete h]) (live s) (S h)).
Proof.
  intros Hwf Hc Ht h. cbn [binding_loop]. unfold bind at 1.
  cbv [new_object]. rewrite Hc, Ht. unfold bind, delete.
  cbn [live trace next_handle].
  rewrite bool_decide_eq_true_2
    by (apply elem_of_union_l, elem_of_singleton; reflexivity).
  rewrite new_then_delete by (apply fresh_not_live; exact Hwf).
  now rewrite <- app_assoc.
Qed.

(** What the loop has done when it returns: it bound port [port_num], or
    it went through all the ports that were left. *)
Lemma binding_loop_inv (port_num : Z) (b : Binding) :
  forall (count : nat) (i : Z) (s : State) (b' : Binding) (s' : State),
    heap_wf s ->
    binding_loop port_ctor hw_ports count i port_num b s = Ok (b', s') ->
    heap_wf s' /\
    ((exists po,
        b' = mk_binding (port_cnt b) (Some po) /\
        i < port_num <= i + Z.of_nat count /\
        port_ctor (link_hw (hw_ports port_num)) port_num = Ok (port_value po) /\
        port_state po = IBV_PORT_ACTIVE /\
        link_state (hw_ports port_num) = IBV_PORT_ACTIVE /\
        (port_handle po ∉ live s) /\
        live s' = {[port_handle po]} ∪ live s /\
        forall k, i < k <= port_num -> constructible port_ctor hw_ports k) \/
    (b' = b /\ live s' = live s /\
     (port_num <= i \/ i + Z.of_nat count < port_num \/
      link_state (hw_ports port_num) <> IBV_PORT_ACTIVE) /\
     forall k, i < k <= i + Z.of_nat count -> constructible port_ctor hw_ports k)).
Proof.
  induction count as [|count IH]; intros i s b' s' Hwf H.
  - cbv [binding_loop ret] in H. inversion H; subst. split; [exact Hwf|]. right.
    split; [reflexivity|]. split; [reflexivity|].
    split; [lia|]. intros k Hk. cbn in Hk. lia.
  - destruct (port_ctor (link_hw (hw_ports (i + 1))) (i + 1)) as [p| | |] eqn:Hc;
      try (cbn [binding_loop] in H; unfold bind in H; cbv [new_object] in H;
           rewrite Hc in H; discriminate H).
    destruct ((i + 1 =? port_num) &&
              (link_state (hw_ports (i + 1)) =? IBV_PORT_ACTIVE)) eqn:Ht.
    + cbn [binding_loop] in H. unfold bind in H. cbv [new_object] in H.
      rewrite Hc, Ht in H. cbv [ret] in H. inversion H; subst b' s'; clear H.
      apply andb_prop in Ht as [Hn Ha].
      apply Z.eqb_eq in Hn. apply Z.eqb_eq in Ha. subst port_num.
      split; [apply heap_wf_new; exact Hwf|].
      left. eexists. split; [reflexivity|]. cbn [port_handle port_value port_state live].
      split; [lia|]. split; [exact Hc|]. split; [exact Ha|]. split; [exact Ha|].
      split; [apply fresh_not_live; exact Hwf|]. split; [reflexivity|].
      intros k Hk. assert (k = i + 1) as -> by lia. now exists p.
    + rewrite (binding_loop_skip count i port_num b s p Hwf Hc Ht) in H.
      apply IH in H; [|apply heap_wf_skip; exact Hwf]. cbn [live] in H.
      assert (constructible port_ctor hw_ports (i + 1)) as Hc1 by now exists p.
      destruct H as (Hwf' & H). split; [exact Hwf'|].
      destruct H as [(po & -> & Hr & Hp & Hs & Hl & Hn & Hlive & Hall)
                    |(-> & Hlive & Hwhy & Hall)].
      * left. exists po. split; [reflexivity|]. split; [lia|].
        split; [exact Hp|]. split; [exact Hs|]. split; [exact Hl|].
        split; [exact Hn|]. split; [exact Hlive|].
        intros k Hk. destruct (Z.eq_dec k (i + 1)) as [->|Hk1]; [exact Hc1|].
        apply Hall. lia.
      * right. split; [reflexivity|]. split; [exact Hlive|]. split.
        -- apply andb_false_iff in Ht as [Hn|Ha].
           ++ apply Z.eqb_neq in Hn. lia.
           ++ apply Z.eqb_neq in Ha.
              destruct (Z.eq_dec port_num (i + 1)) as [->|Hp]; [now right; right|].
              lia.
        -- intros k Hk. destruct (Z.eq_dec k (i + 1)) as [->|Hk1]; [exact Hc1|].
           apply Hall. lia.
Qed.

(** The loop binds the requested port when the hardware reports it active
    and every Port up to it can be constructed. *)
Lemma binding_loop_finds (port_num : Z) (b : Binding) :
  forall (count : nat) (i : Z) (s : State),
    heap_wf s ->
    i < port_num <= i + Z.of_nat count ->
    link_state (hw_ports port_num) = IBV_PORT_ACTIVE ->
    (forall k, i < k <= port_num -> constructible port_ctor hw_ports k) ->
    exists po s',
      binding_loop port_ctor hw_ports count i port_num b s
      = Ok (mk_binding (port_cnt b) (Some po), s').
Proof.
  induction count as [|count IH]; intros i s Hwf Hr Ha Hall; [lia|].
  destruct (Hall (i + 1)) as [p Hc]; [lia|].
  destruct (Z.eq_dec (i + 1) port_num) as [Heq|Hne].
  - cbn [binding_loop]. unfold bind. cbv [new_object]. rewrite Hc.
    rewrite Heq, Ha, Z.eqb_refl. cbn [andb]. eexists _, _. reflexivity.
  - rewrite (binding_loop_skip count i port_num b s p Hwf Hc).
    + apply IH; [apply heap_wf_skip; exact Hwf | lia | exact Ha |].
      intros k Hk. apply Hall. lia.
    + apply andb_false_iff. left. now apply Z.eqb_neq.
Qed.
End BindingProofs.

(** X14.  [binding_port(port_num)], the port count of the device being a
    [uint8_t].  When it returns, [port_cnt] is the device's port count and a
    port is bound: either the one requested, which lies in
    [1 .. port_cnt], is reported ACTIVE, is a new object and the only one
    the call leaves behind, every Port from 1 up to it having been
    constructed; or, no such port being there, the port that was bound
    before the call, all Ports created on the way being deleted again.
    Conversely the call returns whenever the requested port is in range and
    ACTIVE and the Ports up to it can be constructed. *)
Theorem Device_binding_port_binds (port_ctor : port_hw -> Z -> outcome Port)
        (hw_ports : Z -> port_link) (d : Device) (b : Binding) (port_num : Z)
        (s : State) :
  heap_wf s ->
  0 <= phys_port_cnt (device_attr d) <= 255 ->
  let cnt := phys_port_cnt (device_attr d) in
  (forall b' s',
      Device_binding_port port_ctor hw_ports d b port_num s = Ok (b', s') ->
      port_cnt b' = cnt /\
      exists po,
        active_port b' = Some po /\
        ((1 <= port_num <= cnt /\
          port_ctor (link_hw (hw_ports port_num)) port_num = Ok (port_value po) /\
          port_state po = IBV_PORT_ACTIVE /\
          link_state (hw_ports port_num) = IBV_PORT_ACTIVE /\
          (port_handle po ∉ live s) /\
          live s' = {[port_handle po]} ∪ live s /\
          forall k, 1 <= k <= port_num -> constructible port_ctor hw_ports k) \/
         (active_port b = Some po /\ live s' = live s /\
          (port_num < 1 \/ cnt < port_num \/
           link_state (hw_ports port_num) <> IBV_PORT_ACTIVE) /\
          forall k, 1 <= k <= cnt -> constructible port_ctor hw_ports k))) /\
  (1 <= port_num <= cnt ->
   link_state (hw_ports port_num) = IBV_PORT_ACTIVE ->
   (forall k, 1 <= k <= port_num -> constructible port_ctor hw_ports k) ->
   exists b' s',
     Device_binding_port port_ctor hw_ports d b port_num s = Ok (b', s')).
Proof.
  intros Hwf Hcnt cnt. split.
  - intros b' s' H. unfold Device_binding_port in H. cbv zeta in H.
    apply bind_inv in H as (b1 & s1 & Hloop & H).
    apply bind_inv in H as (? & s2 & Ha & H).
    apply assert_inv in Ha as (Hhas & ->).
    cbv [ret] in H. inversion H; subst b1 s1; clear H.
    apply binding_loop_inv in Hloop as (_ & Hloop); [|exact Hwf].
    cbn [port_cnt active_port] in Hloop. fold cnt in Hloop.
    rewrite Z2Nat.id in Hloop by (subst cnt; lia).
    destruct Hloop as [(po & -> & Hr & Hp & Hs & Hl & Hn & Hlive & Hall)
                      |(-> & Hlive & Hwhy & Hall)].
    + split; [reflexivity|]. exists po. split; [reflexivity|]. left.
      split; [lia|]. repeat (split; [assumption|]).
      intros k Hk. apply Hall. lia.
    + split; [reflexivity|]. unfold has_port in Hhas. cbn [active_port] in Hhas |- *.
      destruct (active_port b) as [po|]; [|discriminate Hhas].
      exists po. split; [reflexivity|]. right.
      split; [reflexivity|]. split; [exact Hlive|]. split; [lia|].
      intros k Hk. apply Hall. lia.
  - intros Hr Ha Hall.
    destruct (binding_loop_finds port_ctor hw_ports port_num
                (mk_binding cnt (active_port b)) (Z.to_nat cnt) 0 s Hwf)
      as (po & s' & Hrun).
    + rewrite Z2Nat.id by (subst cnt; lia). lia.
    + exact Ha.
    + intros k Hk. apply Hall. lia.
    + exists (mk_binding cnt (Some po)), s'.
      unfold Device_binding_port. cbv zeta. fold cnt.
      rewrite (bind_ok _ _ _ _ _ Hrun). reflexivity.
Qed.

Lemma Device_binding_port_binds_witness :
  exists b' s',
    Device_binding_port Port_ctor active_links two_port_device unbound 2
                        ready_state = Ok (b', s').
Proof.
  destruct (Device_binding_port_binds Port_ctor active_links two_port_device
              unbound 2 ready_state) as (_ & H).
  - intros h Hh. vm_compute.
    apply elem_of_elements in Hh. vm_compute in Hh.
    repeat (apply elem_of_cons in Hh as [->|Hh]; [lia|]). inversion Hh.
  - vm_compute. split; discriminate.
  - apply H.
    + vm_compute. split; discriminate.
    + reflexivity.
    + intros k Hk. eexists. vm_compute. reflexivity.
Defined.

(** ** A queue pair on the bound port *)

(** Either build of [Port::Port] stores the port number it is given. *)
Lemma Port_ctor_stores (sscanf_gid : string -> Z * list Z) (conf : Config)
      (port_ctor : port_hw -> Z -> outcome Port) (hw : port_hw) (k : Z) (p : Port) :
  port_ctor = Port_ctor_exp sscanf_gid conf \/ port_ctor = Port_ctor ->
  port_ctor hw k = Ok p -> port_num p = k.
Proof.
  intros [->| ->] H.
  - unfold Port_ctor_exp in H.
    destruct (query_port_r hw =? -1); [discriminate H|].
    destruct (sscanf_gid _) as [r cgid].
    destruct (gid_scan _ _ _ _ _ _) as [[i g]| | |]; try discriminate H.
    destruct (i =? gid_tbl_len hw); [discriminate H|].
    now inversion H.
  - unfold Port_ctor in H.
    destruct (query_port_r hw =? -1); [discriminate H|].
    destruct (gid_table hw) as [|e ?]; [discriminate H|].
    destruct (negb _); [discriminate H|]. now inversion H.
Qed.

(** X15.  Before a port is bound [create_queue_pair] reads through the
    null [active_port].  After a [binding_port(pn)] that returned on a
    device without a port, in either build of the Port constructor, it
    always returns: the queue pair it builds is a new object on port [pn]
    with the device's shared receive queue, completion queues and work
    request limits; when [qp->init()] answers 0 it is returned alive, and
    otherwise it is deleted and NULL is returned, with the heap as
    before. *)
Theorem create_queue_pair_on_bound_port (sscanf_gid : string -> Z * list Z)
        (conf : Config) (port_ctor : port_hw -> Z -> outcome Port)
        (hw_ports : Z -> port_link)
        (qp_init : list Event -> handle -> QueuePair -> Z)
        (d : Device) (b : Binding) (pn type : Z) (s : State)
        (b' : Binding) (s' : State) :
  port_ctor = Port_ctor_exp sscanf_gid conf \/ port_ctor = Port_ctor ->
  heap_wf s ->
  0 <= phys_port_cnt (device_attr d) <= 255 ->
  active_port b = None ->
  Device_binding_port port_ctor hw_ports d b pn s = Ok (b', s') ->
  Device_create_queue_pair qp_init d b type s = Undefined /\
  let h := next_handle s' in
  let q := mk_queue_pair type pn (srq d) (tx_cq d) (rx_cq d)
                         (max_send_wr d) (max_recv_wr d) in
  let r := qp_init (trace s' ++ [EvNew h]) h q in
  (h ∉ live s') /\
  exists s'',
    Device_create_queue_pair qp_init d b' type s'
    = Ok (if r =? 0 then Some (h, q) else None, s'') /\
    next_handle s'' = S h /\
    live s'' = if r =? 0 then {[h]} ∪ live s' else live s'.
Proof.
  intros Hbuild Hwf Hcnt Hnone H.
  split; [unfold Device_create_queue_pair; now rewrite Hnone|].
  unfold Device_binding_port in H. cbv zeta in H.
  apply bind_inv in H as (b1 & s1 & Hloop & H).
  apply bind_inv in H as (? & s2 & Ha & H).
  apply assert_inv in Ha as (Hhas & ->).
  cbv [ret] in H. inversion H; subst b1 s1; clear H.
  apply binding_loop_inv in Hloop as (Hwf' & Hloop); [|exact Hwf].
  cbn [port_cnt active_port] in Hloop.
  destruct Hloop as [(po & -> & Hr & Hp & Hs & Hl & Hn & Hlive & Hall)
                    |(-> & _)];
    [|unfold has_port in Hhas; cbn [active_port] in Hhas;
      rewrite Hnone in Hhas; discriminate Hhas].
  apply (Port_ctor_stores sscanf_gid conf _ _ _ _ Hbuild) in Hp.
  intros h q r. split; [apply fresh_not_live; exact Hwf'|].
  assert (port_handle po ∈ live s') as Hpl
      by (rewrite Hlive; apply elem_of_union_l, elem_of_singleton; reflexivity).
  unfold Device_create_queue_pair. cbn [active_port].
  rewrite (bind_ok _ _ _ _ _ (deref_live _ _ _ eq_refl Hpl)).
  unfold bind at 1. cbv [new_object]. unfold bind at 1. cbv [ask].
  cbn [trace live next_handle]. rewrite Hp. fold h q r.
  destruct (r =? 0); cbn [negb].
  - eexists. split; [reflexivity|]. split; reflexivity.
  - unfold bind, delete. cbn [live trace next_handle].
    rewrite bool_decide_eq_true_2
      by (apply elem_of_union_l, elem_of_singleton; reflexivity).
    eexists. split; [reflexivity|]. split; [reflexivity|]. cbn [live].
    apply new_then_delete, fresh_not_live; exact Hwf'.
Qed.

Lemma create_queue_pair_on_bound_port_witness :
  let run := Device_binding_port Port_ctor active_links two_port_device
                                 unbound 2 ready_state in
  exists s'',
    Device_create_queue_pair (fun _ _ _ => 0) two_port_device
                             (result_of run unbound) 2 (state_of run)
    = Ok (Some (9%nat, mk_queue_pair 2 2 (Some 4%nat) (Some 5%nat) (Some 6%nat)
                                     1024 512), s'').
Proof.
  intros run.
  destruct (create_queue_pair_on_bound_port (fun _ => (0, [])) example_conf
              Port_ctor active_links (fun _ _ _ => 0) two_port_device unbound
              2 2 ready_state (result_of run unbound) (state_of run))
    as (_ & _ & s'' & Hrun & _).
  - now right.
  - intros h Hh. vm_compute.
    apply elem_of_elements in Hh. vm_compute in Hh.
    repeat (apply elem_of_cons in Hh as [->|Hh]; [lia|]). inversion Hh.
  - vm_compute. split; discriminate.
  - reflexivity.
  - vm_compute. reflexivity.
  - exists s''. rewrite Hrun. reflexivity.
Defined.

(** ** The calls of init(), in order *)

Lemma call_inv {A} (f : list Event -> A) ev s a s' :
  call f ev s = Ok (a, s') -> a = f (trace s) /\ s' = log s (ev a).
Proof. cbv [call]. intros H. now inversion H. Qed.

Lemma create_comp_queue_trace E cc q s s' :
  create_comp_queue E cc s = Ok (q, s') ->
  is_null q = false ->
  exists h, q = Some h /\ h ∈ live s' /\
            trace s' = trace s ++ [EvNew h; EvCqInit h CQ_DEPTH cc 0].
Proof.
  unfold create_comp_queue. intros H Hq.
  apply bind_inv in H as (cq & s1 & Hn & H).
  cbv [new_object] in Hn. inversion Hn; subst cq s1; clear Hn.
  apply bind_inv in H as (r & s2 & Hc & H).
  apply call_inv in Hc as (Hr & ->).
  destruct (Z.eqb_spec r 0) as [->|Hne]; cbn [negb] in H.
  - cbv [ret] in H. inversion H; subst q s'. eexists. split; [reflexivity|].
    cbn. split; [apply elem_of_union_l, elem_of_singleton; reflexivity|].
    now rewrite <- app_assoc.
  - apply bind_inv in H as (? & s3 & _ & H). cbv [ret] in H.
    inversion H; subst. discriminate Hq.
Qed.

(** X16.  The calls of an [init()] that ran, in order: the device query;
    a new protection domain; [set_nonblock] on the device's descriptor,
    answering 0; a new memory manager, registered with the configured
    buffer size and the two limits; a shared receive queue for
    [max_recv_wr] work requests of one scatter-gather entry each, on the
    new protection domain; the free chunks of the memory manager, each
    posted once to that queue and accepted; and a completion queue of depth
    30000 on the transmit channel, then one on the receive channel.  The
    five pointers of the device are the objects so created.
    ([max_recv_wr] is taken not to be negative: the queue's size is passed
    as a [uint32_t].) *)
Theorem Device_init_calls (E : Env) (conf : Config) (d : Device) (s : State)
        (d' : Device) (s' : State) :
  nonempty_buffers E ->
  initialized d = false ->
  Device_init E conf d s = Ok (d', s') ->
  0 <= max_recv_wr d' ->
  exists p m q tq rq qr r chunks posts,
    pd d' = Some p /\ memory_manager d' = Some m /\ srq d' = Some q /\
    tx_cq d' = Some tq /\ rx_cq d' = Some rq /\
    NoDup [p; m; q; tq; rq] /\
    trace s'
    = trace s ++
      [EvQueryDevice qr (device_attr d'); EvNew p;
       EvSetNonblock (async_fd d) 0; EvNew m;
       EvRegisterRxTx m (ms_async_rdma_buffer_size conf)
                      (max_recv_wr d') (max_send_wr d');
       EvCreateSrq p (max_recv_wr d') 1 (Some q);
       EvGetChannelBuffers m 0 r chunks] ++
      posts ++
      [EvNew tq; EvCqInit tq 30000 (tx_cc d) 0;
       EvNew rq; EvCqInit rq 30000 (rx_cc d) 0] /\
    0 < r /\
    omap posted_of posts = map (fun c => (q, rx_work_request c)) chunks /\
    length posts = length chunks /\
    forallb post_accepted posts = true.
Proof.
  intros Hne Hi H _.
  destruct (Device_init_heap E conf d s d' s' Hne Hi H)
    as (Hp & Hm & Hq & Htq & Hrq & _).
  unfold Device_init in H. rewrite Hi in H.
  apply bind_inv in H as (a & s1 & Hc & H).
  apply call_inv in Hc as (Ha & ->). destruct a as [qr attr].
  destruct (qr =? -1); [discriminate|].
  apply bind_inv in H as (p & s2 & Hn & H).
  cbv [new_object] in Hn. inversion Hn; subst p s2; clear Hn.
  apply bind_inv in H as (r0 & s3 & Hs & H).
  apply call_inv in Hs as (_ & ->).
  apply bind_inv in H as (? & s4 & Has & H). apply assert_inv in Has as (Hr0 & ->).
  apply Z.eqb_eq in Hr0. subst r0.
  apply bind_inv in H as (mm & s5 & Hn & H).
  cbv [new_object] in Hn. inversion Hn; subst mm s5; clear Hn.
  apply bind_inv in H as (? & s6 & Hr & H).
  unfold register_rx_tx in Hr.
  apply bind_inv in Hr as (mh & s6' & Hd & Hr).
  apply deref_inv in Hd as (Hmh & _ & ->).
  cbv [emit] in Hr. inversion Hr; subst s6; clear Hr.
  cbn [memory_manager set_memory_manager] in Hmh. inversion Hmh; subst mh; clear Hmh.
  apply bind_inv in H as (q & s7 & Hc & H).
  apply bind_inv in H as (v & s8 & Hpc & H).
  pose proof (post_channel_cluster_srq_live _ _ _ _ _ Hne Hpc) as Lq.
  cbn [srq set_srq] in Lq.
  unfold create_shared_receive_queue in Hc.
  apply bind_inv in Hc as (pdh & s7' & Hd & Hc).
  apply deref_inv in Hd as (Hpdh & _ & ->).
  cbn [pd set_pd set_memory_manager set_max_send_wr set_max_recv_wr] in Hpdh.
  inversion Hpdh; subst pdh; clear Hpdh.
  unfold ibv_create_srq in Hc.
  destruct (env_create_srq _ _ _ _ _); inversion Hc; subst q s7; clear Hc;
    [|discriminate Lq].
  apply is_live_Some in Lq as (qh & Hqh & Lq). inversion Hqh; subst qh; clear Hqh.
  unfold post_channel_cluster, get_channel_buffers in Hpc.
  apply bind_inv in Hpc as (g & s9 & Hg & Hpc).
  apply bind_inv in Hg as (mh & s9' & Hd & Hg).
  apply deref_inv in Hd as (Hmh & _ & ->).
  cbn [memory_manager set_srq set_memory_manager] in Hmh.
  inversion Hmh; subst mh; clear Hmh.
  apply call_inv in Hg as (Hg & ->). destruct g as [r chunks].
  cbn [fst snd] in Hpc.
  apply bind_inv in Hpc as (? & s10 & Has & Hpc).
  apply assert_inv in Has as (Hrpos & ->). apply Z.ltb_lt in Hrpos.
  apply bind_inv in Hpc as (? & s11 & Hposts & Hpc).
  cbv [ret] in Hpc. inversion Hpc; subst v s11; clear Hpc.
  match type of Hposts with
  | post_chunks E ?dd chunks ?st = _ =>
      destruct (post_chunks_cases E dd _ chunks eq_refl st Lq)
        as [Hab|(posts & Hrun & Hpo & Hlen & Hacc)];
      [rewrite Hab in Hposts; discriminate Hposts|];
      rewrite Hrun in Hposts; inversion Hposts; subst s8; clear Hposts Hrun
  end.
  apply bind_inv in H as (cq & s12 & Hc1 & H).
  apply bind_inv in H as (? & s13 & Has & H). apply assert_inv in Has as (Hn1 & ->).
  cbn [tx_cq set_tx_cq] in Hn1. apply negb_true_iff in Hn1.
  apply create_comp_queue_trace in Hc1 as (tq & -> & _ & T1); [|exact Hn1].
  apply bind_inv in H as (cq' & s14 & Hc2 & H).
  apply bind_inv in H as (? & s15 & Has & H). apply assert_inv in Has as (Hn2 & ->).
  cbn [rx_cq set_rx_cq] in Hn2. apply negb_true_iff in Hn2.
  apply create_comp_queue_trace in Hc2 as (rq & -> & _ & T2); [|exact Hn2].
  cbv [ret] in H. inversion H; subst d' s'; clear H.
  cbn [pd memory_manager srq tx_cq rx_cq tx_cc rx_cc initialized device_attr
       max_recv_wr max_send_wr async_fd
       set_initialized set_rx_cq set_tx_cq set_srq set_memory_manager
       set_max_send_wr set_max_recv_wr set_pd set_device_attr] in *.
  assert (tq = (3 + next_handle s)%nat) as -> by congruence.
  assert (rq = (4 + next_handle s)%nat) as -> by congruence.
  eexists _, _, _, _, _, qr, r, chunks, posts.
  do 5 (split; [reflexivity|]).
  split.
  { repeat (apply NoDup_cons; split;
            [rewrite ?not_elem_of_cons;
             repeat split; try apply not_elem_of_nil; lia|]).
    apply NoDup_nil_2. }
  split.
  { rewrite T2, T1. cbn [trace extend log].
    rewrite <- !app_assoc, uint32_wrap_idem.
    change (uint32_wrap MAX_SHARED_RX_SGE_COUNT) with 1. reflexivity. }
  split; [exact Hrpos|]. split; [exact Hpo|]. split; [exact Hlen | exact Hacc].
Qed.

Lemma Device_init_calls_witness :
  exists p m q tq rq qr r chunks posts,
    pd ready_device = Some p /\ memory_manager ready_device = Some m /\
    srq ready_device = Some q /\
    tx_cq ready_device = Some tq /\ rx_cq ready_device = Some rq /\
    NoDup [p; m; q; tq; rq] /\
    trace ready_state
    = trace fresh_state ++
      [EvQueryDevice qr example_attr; EvNew p;
       EvSetNonblock 5 0; EvNew m;
       EvRegisterRxTx m 4096 512 1024;
       EvCreateSrq p 512 1 (Some q);
       EvGetChannelBuffers m 0 r chunks] ++
      posts ++
      [EvNew tq; EvCqInit tq 30000 (Some 0%nat) 0;
       EvNew rq; EvCqInit rq 30000 (Some 1%nat) 0] /\
    length posts = length chunks.
Proof.
  destruct (Device_init_calls quiet_env example_conf fresh_device fresh_state
              ready_device ready_state)
    as (p & m & q & tq & rq & qr & r & chunks & posts & Hp & Hm & Hq & Htq & Hrq
        & Hnd & Ht & _ & _ & Hlen & _).
  - intros t h b _. vm_compute. discriminate.
  - reflexivity.
  - vm_compute. reflexivity.
  - vm_compute. discriminate.
  - exists p, m, q, tq, rq, qr, r, chunks, posts.
    do 6 (split; [assumption|]). split; [exact Ht | exact Hlen].
Defined.
